(** * Splitter (PyTorch): the training engine of [src/splitter.py]

    A shallow embedding of the skip-gram batch builder, the negative-sample
    pool, the embedding initialisation and the loss of the Splitter model,
    with the properties of the training engine stated over it.

    Conventions of the embedding:
    - Python integers are [Z]; Python lists and one-dimensional tensors of
      node identifiers are [list Z]; indexing follows Python (a negative
      index counts from the end, an index out of range raises IndexError).
    - A Python [dict] is insertion ordered: [odict] is an association list
      with unique keys, [od_set] overwriting in place.  [str2idx], which the
      code only looks up, is a [gmap].
    - An exception is the name of its class; a computation that may raise
      returns a [result].
    - Tensors of floating-point numbers are lists of real numbers: float
      arithmetic is idealised as exact real arithmetic, and the one
      non-finite value the engine can produce (the mean of an empty tensor)
      is the value [NaN] of [fval]. *)

From Stdlib Require Import ZArith List Lia QArith Reals Lra Psatz.
From stdpp Require Import base option list strings gmap sorting.
From Stdlib Require DecimalString DecimalZ.
Import ListNotations.
Local Open Scope Z_scope.

(** ** Exceptions and the error monad *)

Definition exn := string.
Definition IndexError : exn := "IndexError"%string.
Definition KeyError : exn := "KeyError"%string.
Definition ValueError : exn := "ValueError"%string.
Definition AttributeError : exn := "AttributeError"%string.
Definition RuntimeError : exn := "RuntimeError"%string.

Inductive result (A : Type) : Type :=
| Ok (a : A)
| Raise (e : exn).
Arguments Ok {A} a.
Arguments Raise {A} e.

#[global] Instance result_ret : MRet result := fun A a => Ok a.
#[global] Instance result_bind : MBind result := fun A B f m =>
  match m with Ok a => f a | Raise e => Raise e end.

(** ** Python sequences *)

(** [range(lo, hi)]: empty when [hi <= lo]. *)
Definition py_range (lo hi : Z) : list Z :=
  map (fun k => lo + Z.of_nat k) (seq 0 (Z.to_nat (hi - lo))).

(** [l[i]] on a list or a one-dimensional tensor. *)
Definition py_getitem {A : Type} (l : list A) (i : Z) : result A :=
  let n := Z.of_nat (length l) in
  let k := if i <? 0 then i + n else i in
  if (0 <=? k) && (k <? n) then
    match l !! Z.to_nat k with
    | Some x => Ok x
    | None => Raise IndexError
    end
  else Raise IndexError.

(** [l * n]: the list repeated [n] times, empty when [n <= 0]. *)
Definition py_repeat {A : Type} (l : list A) (n : Z) : list A :=
  concat (repeat l (Z.to_nat n)).

(** [[f(i, j) for i in is_ for j in js]] *)
Definition comprehension2 {A : Type} (is_ js : list Z) (f : Z -> Z -> A) : list A :=
  flat_map (fun i => map (f i) js) is_.

(** ** Insertion-ordered dictionaries *)

Definition odict (K V : Type) := list (K * V).

Fixpoint od_get {V : Type} (d : odict Z V) (k : Z) : result V :=
  match d with
  | [] => Raise KeyError
  | (k', v) :: d' => if k' =? k then Ok v else od_get d' k
  end.

Fixpoint od_set {V : Type} (d : odict Z V) (k : Z) (v : V) : odict Z V :=
  match d with
  | [] => [(k, v)]
  | (k', v') :: d' => if k' =? k then (k, v) :: d' else (k', v') :: od_set d' k v
  end.

Definition od_items {K V : Type} (d : odict K V) : list (K * V) := d.

Definition gm_get (d : gmap string Z) (k : string) : result Z :=
  match d !! k with
  | Some v => Ok v
  | None => Raise KeyError
  end.

(** ** The persona graph, as far as the trainer uses it *)

Record graph := {
  nodes : list Z;          (* graph.nodes() *)
  degree : Z -> nat        (* graph.degree(node) *)
}.

(** ** SplitterTrainer: the fields the batch builder and the pool use *)

Record trainer := {
  walk_length : Z;
  window_size : Z;
  negative_samples : Z;
  persona_graph : graph;              (* egonet_splitter.persona_graph *)
  personality_map : odict Z string;   (* egonet_splitter.personality_map *)
  str2idx : gmap string Z;            (* base_walker.str2idx *)
  downsampled_degrees : odict Z Z;
  negative_samples_pool : list Z;
  pure_sources : list Z;
  personas : list Z;
  sources : list Z;
  contexts : list Z;
  targets : list Q
}.

Definition set_pure_sources (self : trainer) (v : list Z) : trainer :=
  {| walk_length := walk_length self; window_size := window_size self;
     negative_samples := negative_samples self;
     persona_graph := persona_graph self;
     personality_map := personality_map self; str2idx := str2idx self;
     downsampled_degrees := downsampled_degrees self;
     negative_samples_pool := negative_samples_pool self;
     pure_sources := v; personas := personas self; sources := sources self;
     contexts := contexts self; targets := targets self |}.

Definition set_personas (self : trainer) (v : list Z) : trainer :=
  {| walk_length := walk_length self; window_size := window_size self;
     negative_samples := negative_samples self;
     persona_graph := persona_graph self;
     personality_map := personality_map self; str2idx := str2idx self;
     downsampled_degrees := downsampled_degrees self;
     negative_samples_pool := negative_samples_pool self;
     pure_sources := pure_sources self; personas := v; sources := sources self;
     contexts := contexts self; targets := targets self |}.

Definition set_sources (self : trainer) (v : list Z) : trainer :=
  {| walk_length := walk_length self; window_size := window_size self;
     negative_samples := negative_samples self;
     persona_graph := persona_graph self;
     personality_map := personality_map self; str2idx := str2idx self;
     downsampled_degrees := downsampled_degrees self;
     negative_samples_pool := negative_samples_pool self;
     pure_sources := pure_sources self; personas := personas self; sources := v;
     contexts := contexts self; targets := targets self |}.

Definition set_contexts (self : trainer) (v : list Z) : trainer :=
  {| walk_length := walk_length self; window_size := window_size self;
     negative_samples := negative_samples self;
     persona_graph := persona_graph self;
     personality_map := personality_map self; str2idx := str2idx self;
     downsampled_degrees := downsampled_degrees self;
     negative_samples_pool := negative_samples_pool self;
     pure_sources := pure_sources self; personas := personas self;
     sources := sources self; contexts := v; targets := targets self |}.

Definition set_targets (self : trainer) (v : list Q) : trainer :=
  {| walk_length := walk_length self; window_size := window_size self;
     negative_samples := negative_samples self;
     persona_graph := persona_graph self;
     personality_map := personality_map self; str2idx := str2idx self;
     downsampled_degrees := downsampled_degrees self;
     negative_samples_pool := negative_samples_pool self;
     pure_sources := pure_sources self; personas := personas self;
     sources := sources self; contexts := contexts self; targets := v |}.

Definition set_downsampled_degrees (self : trainer) (d : odict Z Z) : trainer :=
  {| walk_length := walk_length self; window_size := window_size self;
     negative_samples := negative_samples self;
     persona_graph := persona_graph self;
     personality_map := personality_map self; str2idx := str2idx self;
     downsampled_degrees := d;
     negative_samples_pool := negative_samples_pool self;
     pure_sources := pure_sources self; personas := personas self;
     sources := sources self; contexts := contexts self; targets := targets self |}.

Definition set_negative_samples_pool (self : trainer) (pool : list Z) : trainer :=
  {| walk_length := walk_length self; window_size := window_size self;
     negative_samples := negative_samples self;
     persona_graph := persona_graph self;
     personality_map := personality_map self; str2idx := str2idx self;
     downsampled_degrees := downsampled_degrees self;
     negative_samples_pool := pool;
     pure_sources := pure_sources self; personas := personas self;
     sources := sources self; contexts := contexts self; targets := targets self |}.

(** [reset_node_sets] *)
Definition reset_node_sets (self : trainer) : trainer :=
  set_targets (set_contexts (set_sources (set_personas (set_pure_sources self []) []) []) []) [].

(** ** The skip-gram batch builder *)

(** The index expressions of the four comprehensions of
    [create_batch_from_path], in the order in which they are evaluated. *)
Definition right_source_indices (wl w : Z) : list Z :=
  comprehension2 (py_range 0 (wl - w)) (py_range 1 (w + 1)) (fun i _ => i).
Definition right_context_indices (wl w : Z) : list Z :=
  comprehension2 (py_range 0 (wl - w)) (py_range 1 (w + 1)) (fun i j => i + j).
Definition left_source_indices (wl w : Z) : list Z :=
  comprehension2 (py_range w wl) (py_range 1 (w + 1)) (fun i _ => i).
Definition left_context_indices (wl w : Z) : list Z :=
  comprehension2 (py_range w wl) (py_range 1 (w + 1)) (fun i j => i - j).

Definition accessed_indices (wl w : Z) : list Z :=
  right_source_indices wl w ++ right_context_indices wl w ++
  left_source_indices wl w ++ left_context_indices wl w.

(** [[walk[e] for ...]]: the elements are read in order, the first failing
    access raises. *)
Definition gather (walk : list Z) (idx : list Z) : result (list Z) :=
  mapM (py_getitem walk) idx.

(** Lines 219-222: [source_nodes] and [context_nodes]. *)
Definition window_pairs (wl w : Z) (walk : list Z) : result (list Z * list Z) :=
  s1 ← gather walk (right_source_indices wl w);
  c1 ← gather walk (right_context_indices wl w);
  s2 ← gather walk (left_source_indices wl w);
  c2 ← gather walk (left_context_indices wl w);
  mret (s1 ++ s2, c1 ++ c2).

(** [np.random.choice(pool, size)] draws from numpy's global generator: a
    sampler takes the generator state and returns the next state with the
    draws, or the exception it raises. *)
Definition sampler (rng : Type) := rng -> list Z -> Z -> rng * result (list Z).

(** [str2idx[personality_map[source_node.item()]]] *)
Definition persona_index (self : trainer) (source_node : Z) : result Z :=
  original ← od_get (personality_map self) source_node;
  gm_get (str2idx self) original.

(** [create_batch_from_path]: the trainer and generator reached, and whether
    the call returned or raised.  The accumulators assigned before a raising
    line keep their new value. *)
Definition create_batch_from_path {rng : Type} (choice : sampler rng)
    (self : trainer) (g : rng) (walk : list Z) : trainer * rng * result unit :=
  match window_pairs (walk_length self) (window_size self) walk with
  | Raise e => (self, g, Raise e)
  | Ok (source_nodes, context_nodes) =>
    let length_of_source_nodes := Z.of_nat (length source_nodes) in
    let self1 := set_pure_sources self (pure_sources self ++ source_nodes) in
    match mapM (persona_index self1) source_nodes with
    | Raise e => (self1, g, Raise e)
    | Ok ps =>
      let self2 := set_personas self1 (personas self1 ++ ps) in
      let self3 := set_sources self2
        (sources self2 ++ py_repeat source_nodes (negative_samples self2 + 1)) in
      match choice g (negative_samples_pool self3)
                   (negative_samples self3 * length_of_source_nodes) with
      | (g', Raise e) => (self3, g', Raise e)
      | (g', Ok negs) =>
        let self4 := set_contexts self3 (contexts self3 ++ (context_nodes ++ negs)) in
        let self5 := set_targets self4
          (targets self4 ++
           (repeat 1%Q (Z.to_nat length_of_source_nodes) ++
            repeat 0%Q (Z.to_nat (negative_samples self4 * length_of_source_nodes)))) in
        (self5, g', Ok tt)
      end
    end
  end.

(** numpy's sampler on a generator given as the list of its coming raw
    draws: a negative size and an empty population with a positive size
    raise ValueError; draw [r] selects [pool[r mod len(pool)]]. *)
Definition np_random_choice : sampler (list nat) := fun g pool size =>
  if size <? 0 then (g, Raise ValueError)
  else if (Nat.eqb (length pool) 0) && negb (size =? 0) then (g, Raise ValueError)
  else
    let n := Z.to_nat size in
    (drop n g,
     Ok (map (fun r => nth (r mod length pool)%nat pool 0) (take n (g ++ repeat 0%nat n)))).

(** The spec's count of positive pairs for a walk of length [L]. *)
Definition spec_pair_count (L w : Z) : Z :=
  if 2 * w <? L then 2 * w * (L - 2 * w) else 0.

(** The number of positive pairs the builder produces. *)
Definition pair_count (L w : Z) : Z := 2 * Z.max 0 w * Z.max 0 (L - w).

(** ** The negative-sample pool *)

(** The integer part of [d ** 0.75] for an integer [d >= 0]: the greatest
    [k] with [k^4 <= d^3] (see [floor_pow075_spec] and
    [floor_pow075_real]). *)
Definition floor_pow075 (d : Z) : Z := Z.sqrt (Z.sqrt (d ^ 3)).

(** [int(1 + degree ** 0.75)], computed exactly. *)
Definition downsampled_degree (d : nat) : Z := 1 + floor_pow075 (Z.of_nat d).

(** The same expression read over the real numbers: [d ** 0.75] is the real
    power, [int] truncates towards zero. *)
Definition pow075 (d : nat) : R :=
  match d with
  | O => 0%R
  | S _ => Rpower (INR d) (3 / 4)
  end.

Definition py_int (x : R) : Z :=
  if Rle_dec 0 x then Int_part x else (- Int_part (- x)).

Definition downsampled_degree_real (d : nat) : Z := py_int (1 + pow075 d).

(** [{node: value(node) for node in ns}], started from the dictionary [acc]. *)
Definition dict_comprehension (value : Z -> Z) (ns : list Z) (acc : odict Z Z)
    : odict Z Z :=
  fold_left (fun d node => od_set d node (value node)) ns acc.

(** [create_negative_sample_pool] *)
Definition create_negative_sample_pool (self : trainer) : trainer :=
  let g := persona_graph self in
  let dd := dict_comprehension (fun node => downsampled_degree (degree g node))
                               (nodes g) [] in
  let self1 := set_downsampled_degrees self dd in
  let pool := flat_map (fun kv => map (fun _ => fst kv) (py_range 0 (snd kv)))
                       (od_items (downsampled_degrees self1)) in
  set_negative_samples_pool self1 pool.

(** ** The Splitter model: embedding tables *)

(** A floating-point tensor of rank two is the list of its rows. *)
Definition tensor1 := list R.
Definition tensor2 := list (list R).

(** A [torch.nn.Parameter]: the values and the autograd flag. *)
Record parameter := {
  data : tensor2;
  requires_grad : bool
}.

(** A [torch.nn.Embedding]. *)
Record embedding := {
  weight : parameter;
  padding_idx : option Z
}.

Record splitter := {
  dimensions : Z;
  lambd : R;
  base_node_count : Z;
  node_count : Z;
  base_node_embedding : option embedding;   (* absent before create_weights *)
  node_embedding : option embedding
}.

(** [Splitter.__init__] *)
Definition Splitter (dimensions : Z) (lambd : R) (base_node_count node_count : Z) : splitter :=
  {| dimensions := dimensions; lambd := lambd;
     base_node_count := base_node_count; node_count := node_count;
     base_node_embedding := None; node_embedding := None |}.

(** [p.data = t]: the values of [p] are replaced by those of [t]; the
    autograd flag of [p] is not touched, whatever the flag of [t]. *)
Definition assign_data (p t : parameter) : parameter :=
  {| data := data t; requires_grad := requires_grad p |}.

Definition assign_weight_data (e : embedding) (t : parameter) : embedding :=
  {| weight := assign_data (weight e) t; padding_idx := padding_idx e |}.

(** [self.<attribute>] on an attribute that may not be set yet. *)
Definition getattr {A : Type} (a : option A) : result A :=
  match a with
  | Some x => Ok x
  | None => Raise AttributeError
  end.

(** The lookup done for one item of the persona map in [initialize_weights]:
    [base_node_embedding[str2idx[original_node]]]. *)
Definition base_row (base_vectors : list (list R)) (str2idx : gmap string Z)
    (item : Z * string) : result (list R) :=
  idx ← gm_get str2idx (snd item); py_getitem base_vectors idx.

Section Tables.

(** The initial values torch draws for [Embedding(count, dimensions)], and the
    conversion of a number to a float32 done by [torch.Tensor(array)]. *)
Variable embedding_init : Z -> Z -> tensor2.
Variable float32 : R -> R.

(** [torch.nn.Embedding(count, dimensions, padding_idx = 0)]: the weight is a
    trainable parameter. *)
Definition Embedding (count dimensions : Z) (padding : option Z) : embedding :=
  {| weight := {| data := embedding_init count dimensions; requires_grad := true |};
     padding_idx := padding |}.

(** [torch.Tensor(array)] *)
Definition torch_Tensor (array : list (list R)) : tensor2 := map (map float32) array.

(** [torch.nn.Parameter(tensor, requires_grad = flag)] *)
Definition nn_Parameter (t : tensor2) (flag : bool) : parameter :=
  {| data := t; requires_grad := flag |}.

(** [create_weights] *)
Definition create_weights (self : splitter) : splitter :=
  {| dimensions := dimensions self; lambd := lambd self;
     base_node_count := base_node_count self; node_count := node_count self;
     base_node_embedding :=
       Some (Embedding (base_node_count self) (dimensions self) (Some 0));
     node_embedding :=
       Some (Embedding (node_count self) (dimensions self) (Some 0)) |}.

(** [initialize_weights]; [base_vectors] is the argument
    [base_node_embedding], a numpy array indexed by row. *)
Definition initialize_weights (self : splitter) (base_vectors : list (list R))
    (mapping : odict Z string) (str2idx : gmap string Z) : result splitter :=
  persona_embedding ← mapM (base_row base_vectors str2idx) (od_items mapping);
  ne ← getattr (node_embedding self);
  let ne' := assign_weight_data ne (nn_Parameter (torch_Tensor persona_embedding) true) in
  be ← getattr (base_node_embedding self);
  let be' := assign_weight_data be (nn_Parameter (torch_Tensor base_vectors) false) in
  mret {| dimensions := dimensions self; lambd := lambd self;
          base_node_count := base_node_count self; node_count := node_count self;
          base_node_embedding := Some be'; node_embedding := Some ne' |}.

(** [setup_model], with the counts and the inputs it reads from the trainer. *)
Definition setup_model (dims : Z) (lam : R) (base_count persona_count : Z)
    (base_vectors : list (list R)) (mapping : odict Z string)
    (str2idx : gmap string Z) : result splitter :=
  let model := Splitter dims lam base_count persona_count in
  let model := create_weights model in
  initialize_weights model base_vectors mapping str2idx.

End Tables.

(** [model.parameters()]: the weights of the sub-modules, in the order in
    which [create_weights] registers them. *)
Definition parameters (self : splitter) : list parameter :=
  match base_node_embedding self with Some e => [weight e] | None => [] end ++
  match node_embedding self with Some e => [weight e] | None => [] end.

(** The tensors an optimizer built on [parameters] can update: [backward]
    leaves a gradient only on parameters that require one, and [step] skips
    a parameter without gradient. *)
Definition updated_by_optimizer (self : splitter) : list parameter :=
  filter (fun p => requires_grad p = true) (parameters self).

(** The table an embedding looks its indices up in. *)
Definition table (e : option embedding) : tensor2 :=
  match e with
  | Some e => data (weight e)
  | None => []
  end.

(** ** The Splitter model: the loss *)

(** A scalar float: a real number, or [NaN]. *)
Definition fval := option R.
Definition NaN : fval := None.

Definition fneg (a : fval) : fval := option_map Ropp a.
Definition fscale (c : R) (a : fval) : fval := option_map (Rmult c) a.
Definition fadd (a b : fval) : fval :=
  match a, b with
  | Some x, Some y => Some (x + y)%R
  | _, _ => NaN
  end.

Definition sum_r (xs : list R) : R := fold_right Rplus 0%R xs.

(** [torch.mean]: NaN on an empty tensor. *)
Definition torch_mean (xs : tensor1) : fval :=
  match xs with
  | [] => NaN
  | _ :: _ => Some (sum_r xs / INR (length xs))%R
  end.

(** [torch.nn.functional.normalize(m, p=2, dim=1)]: each row is divided by
    its L2 norm, or by [eps = 1e-12] when the norm is smaller. *)
Definition normalize_eps : R := (/ 10 ^ 12)%R.

Definition l2_norm (v : list R) : R := sqrt (sum_r (map (fun x => x * x)%R v)).

Definition normalize_row (v : list R) : list R :=
  map (fun x => x / Rmax (l2_norm v) normalize_eps)%R v.

Definition normalize (m : tensor2) : tensor2 := map normalize_row m.

Definition dot (u v : list R) : R := sum_r (zip_with Rmult u v).

(** [torch.sum(a * b, dim=1)] *)
Definition rowwise_dot (a b : tensor2) : tensor1 := zip_with dot a b.

(** [torch.sigmoid] *)
Definition sigmoid (x : R) : R := (/ (1 + exp (- x)))%R.

(** Two tensors of rank two have the same shape.  The element-wise
    operations of the loss are modelled on equal shapes, as the trainer
    builds them; on other shapes the model raises (torch itself would also
    accept shapes that broadcast). *)
Definition same_shape2 (a b : tensor2) : bool :=
  bool_decide (map length a = map length b).

(** [calculate_main_loss] *)
Definition calculate_main_loss (node_f feature_f : tensor2) (targets : tensor1)
    : result fval :=
  if same_shape2 node_f feature_f && Nat.eqb (length targets) (length node_f) then
    let node_f := normalize node_f in
    let feature_f := normalize feature_f in
    let scores := rowwise_dot node_f feature_f in
    let scores := map sigmoid scores in
    let main_loss :=
      zip_with (fun t s => t * ln s + (1 - t) * ln (1 - s))%R targets scores in
    let main_loss := fneg (torch_mean main_loss) in
    Ok main_loss
  else Raise RuntimeError.

(** [calculate_regularization] *)
Definition calculate_regularization (source_f original_f : tensor2) : result fval :=
  if same_shape2 source_f original_f then
    let source_f := normalize source_f in
    let original_f := normalize original_f in
    let scores := rowwise_dot source_f original_f in
    let scores := map sigmoid scores in
    let regularization_loss := fneg (torch_mean (map ln scores)) in
    Ok regularization_loss
  else Raise RuntimeError.

(** [forward] *)
Definition forward (self : splitter) (node_f feature_f : tensor2) (targets : tensor1)
    (source_f original_f : tensor2) : result fval :=
  main_loss ← calculate_main_loss node_f feature_f targets;
  regularization_loss ← calculate_regularization source_f original_f;
  let loss := fadd main_loss (fscale (lambd self) regularization_loss) in
  mret loss.

(** *** The loss as the spec words it *)

(** The probability of one example: the sigmoid of the dot product of the
    two L2-normalised rows. *)
Definition spec_probability (u v : list R) : R :=
  sigmoid (dot (normalize_row u) (normalize_row v)).

(** Binary cross-entropy of one example. *)
Definition spec_example_loss (t p : R) : R := (- (t * ln p + (1 - t) * ln (1 - p)))%R.

Definition spec_main_loss (node_f feature_f : tensor2) (targets : tensor1) : fval :=
  torch_mean (map (fun e => spec_example_loss (snd e) (spec_probability (fst (fst e)) (snd (fst e))))
                  (zip (zip node_f feature_f) targets)).

Definition spec_regularization_loss (source_f original_f : tensor2) : fval :=
  torch_mean (map (fun e => (- ln (spec_probability (fst e) (snd e)))%R)
                  (zip source_f original_f)).

Definition spec_loss (lam : R) (node_f feature_f : tensor2) (targets : tensor1)
    (source_f original_f : tensor2) : fval :=
  fadd (spec_main_loss node_f feature_f targets)
       (fscale lam (spec_regularization_loss source_f original_f)).

(** Row [k] of a matrix multiplied by [c]. *)
Definition scale_row (k : nat) (c : R) (m : tensor2) : tensor2 :=
  alter (map (Rmult c)) k m.

(** The probabilities whose logarithm the loss takes. *)
Definition probabilities (a b : tensor2) : tensor1 :=
  map sigmoid (rowwise_dot (normalize a) (normalize b)).

(** The computation returned. *)
Definition is_ok {A : Type} (r : result A) : bool :=
  match r with
  | Ok _ => true
  | Raise _ => false
  end.

(** A small trainer state: four personas of four nodes, walks of length 4,
    window 1, one negative sample per positive pair. *)
Definition example_trainer : trainer :=
  {| walk_length := 4; window_size := 1; negative_samples := 1;
     persona_graph := {| nodes := [1; 2; 3; 4]; degree := fun _ => 3%nat |};
     personality_map := [(1, "a"); (2, "b"); (3, "c"); (4, "d")]%string;
     str2idx := list_to_map [("a", 0); ("b", 1); ("c", 2); ("d", 3)]%string;
     downsampled_degrees := []; negative_samples_pool := [1; 2; 3; 4];
     pure_sources := []; personas := []; sources := []; contexts := [];
     targets := [] |}.

(** The trainer of a run whose split produced an empty persona graph while
    the maps of the example are kept, and the trainer whose maps are empty
    as well. *)
Definition empty_graph_trainer : trainer :=
  {| walk_length := 4; window_size := 1; negative_samples := 1;
     persona_graph := {| nodes := []; degree := fun _ => 0%nat |};
     personality_map := [(1, "a"); (2, "b"); (3, "c"); (4, "d")]%string;
     str2idx := list_to_map [("a", 0); ("b", 1); ("c", 2); ("d", 3)]%string;
     downsampled_degrees := []; negative_samples_pool := [];
     pure_sources := []; personas := []; sources := []; contexts := [];
     targets := [] |}.

Definition empty_trainer : trainer :=
  {| walk_length := 4; window_size := 1; negative_samples := 1;
     persona_graph := {| nodes := []; degree := fun _ => 0%nat |};
     personality_map := []; str2idx := ∅;
     downsampled_degrees := []; negative_samples_pool := [];
     pure_sources := []; personas := []; sources := []; contexts := [];
     targets := [] |}.

(** The exception the spec names for sampling from an empty pool. *)
Definition EmptyPoolError : exn := "EmptyPoolError"%string.

(** A small model input: two nodes with base vectors of dimension 2, three
    personas (persona 0 of node "a", personas 1 and 2 of node "b"). *)
Definition example_base_vectors : list (list R) := [[1; 0]; [0; 1]]%R.
Definition example_mapping : odict Z string := [(0, "a"); (1, "b"); (2, "b")]%string.
Definition example_str2idx : gmap string Z := list_to_map [("a", 0); ("b", 1)]%string.

(** The same personas listed in another order. *)
Definition unordered_mapping : odict Z string := [(1, "b"); (0, "a"); (2, "b")]%string.

(** The model of the example after [create_weights]; the initial values
    drawn by torch are overwritten by [initialize_weights] and left empty. *)
Definition example_model : splitter :=
  create_weights (fun _ _ => []) (Splitter 2 (1 / 10)%R 2 3).

(** A row can be scaled without changing its normalised form when its norm
    and the scaled norm are both at least [eps], or when it is zero. *)
Definition scalable (c : R) (v : list R) : Prop :=
  (normalize_eps <= l2_norm v /\ normalize_eps <= c * l2_norm v)%R \/ l2_norm v = 0%R.

(** ** The mini-batch loop of [fit] *)

(** [for walk in walks: self.create_batch_from_path(walk)]: the first
    exception leaves the loop with the trainer as it then is. *)
Fixpoint create_batches {rng : Type} (choice : sampler rng) (self : trainer) (g : rng)
    (walks : list (list Z)) : trainer * rng * result unit :=
  match walks with
  | [] => (self, g, Ok tt)
  | walk :: walks' =>
    match create_batch_from_path choice self g walk with
    | (self', g', Ok _) => create_batches choice self' g' walks'
    | (self', g', Raise e) => (self', g', Raise e)
    end
  end.

(** The five accumulators are parallel: one persona per positive source, and
    [negative_samples + 1] examples per positive source. *)
Definition aligned (self : trainer) : Prop :=
  length (personas self) = length (pure_sources self) /\
  length (sources self) =
    (length (pure_sources self) * (Z.to_nat (negative_samples self) + 1))%nat /\
  length (contexts self) = length (sources self) /\
  length (targets self) = length (sources self).

(** The targets appended for one walk with [P] positive pairs and [k]
    negatives per pair. *)
Definition target_block (P : nat) (k : Z) : list Q :=
  repeat 1%Q P ++ repeat 0%Q (Z.to_nat k * P).

(** The configuration of a trainer: everything but the accumulators. *)
Definition same_configuration (a b : trainer) : Prop :=
  walk_length a = walk_length b /\ window_size a = window_size b /\
  negative_samples a = negative_samples b /\ persona_graph a = persona_graph b /\
  personality_map a = personality_map b /\ str2idx a = str2idx b /\
  downsampled_degrees a = downsampled_degrees b /\
  negative_samples_pool a = negative_samples_pool b.

(** ** Embedding look-up, [transfer_batch] and [optimize] *)

(** [embedding(torch.LongTensor(indices))]: the rows of the weight at the
    indices.  An index that is not a row number raises IndexError; unlike
    Python indexing, a negative index is not counted from the end. *)
Definition embedding_forward (e : embedding) (indices : list Z) : result tensor2 :=
  mapM (fun i =>
          if (0 <=? i) && (i <? Z.of_nat (length (data (weight e))))
          then py_getitem (data (weight e)) i
          else Raise IndexError)
       indices.

(** The tensors [transfer_batch] stores on the trainer. *)
Record batch := {
  node_f : tensor2;
  feature_f : tensor2;
  targets_tensor : tensor1;      (* self.targets, now a FloatTensor *)
  source_f : tensor2;
  original_f : tensor2
}.

(** [transfer_batch]; [model] is [self.model]. *)
Definition transfer_batch (self : trainer) (model : splitter) : result batch :=
  e1 ← getattr (node_embedding model);
  node_f ← embedding_forward e1 (sources self);
  e2 ← getattr (node_embedding model);
  feature_f ← embedding_forward e2 (contexts self);
  let targets := map Q2R (targets self) in
  e3 ← getattr (node_embedding model);
  source_f ← embedding_forward e3 (pure_sources self);
  e4 ← getattr (base_node_embedding model);
  original_f ← embedding_forward e4 (personas self);
  mret {| node_f := node_f; feature_f := feature_f; targets_tensor := targets;
          source_f := source_f; original_f := original_f |}.

Section Fit.

Context {rng : Type}.
Variable choice : sampler rng.

(** [loss.backward(); self.optimizer.step(); self.optimizer.zero_grad()]: the
    model after the update computed from the tensors of the batch. *)
Variable optimizer_step : splitter -> batch -> splitter.

(** [optimize]: the trainer and model reached and the value returned,
    [loss.item()]. *)
Definition optimize (self : trainer) (model : splitter) (b : batch)
    : trainer * splitter * result fval :=
  match forward model (node_f b) (feature_f b) (targets_tensor b)
                (source_f b) (original_f b) with
  | Raise e => (self, model, Raise e)
  | Ok loss => (reset_node_sets self, optimizer_step model b, Ok loss)
  end.

(** One iteration of the loop of [fit] over the mini-batch [walks]. *)
Definition fit_minibatch (self : trainer) (model : splitter) (g : rng)
    (walks : list (list Z)) : trainer * splitter * rng * result fval :=
  match create_batches choice self g walks with
  | (self1, g1, Raise e) => (self1, model, g1, Raise e)
  | (self1, g1, Ok _) =>
    match transfer_batch self1 model with
    | Raise e => (self1, model, g1, Raise e)
    | Ok b =>
      match optimize self1 model b with
      | (self2, model2, r) => (self2, model2, g1, r)
      end
    end
  end.

End Fit.

(** The node is a persona: a key of the persona map. *)
Definition is_persona (self : trainer) (x : Z) : Prop :=
  is_ok (od_get (personality_map self) x) = true.

(** The accumulators are empty, as [reset_node_sets] leaves them. *)
Definition accumulators_empty (self : trainer) : Prop :=
  pure_sources self = [] /\ personas self = [] /\ sources self = [] /\
  contexts self = [] /\ targets self = [].

(** What the mini-batch loop maintains on the accumulators: they are
    parallel, the personas are the owners of the positive sources, the
    targets are ones and zeros, and every node identifier satisfies [V]. *)
Definition batch_invariant (V : Z -> Prop) (self : trainer) : Prop :=
  aligned self /\
  mapM (persona_index self) (pure_sources self) = Ok (personas self) /\
  Forall (fun t => t = 1%Q \/ t = 0%Q) (targets self) /\
  Forall V (pure_sources self) /\ Forall V (sources self) /\ Forall V (contexts self).

(** The value of a computation that returned, [d] otherwise. *)
Definition result_value {A : Type} (d : A) (r : result A) : A :=
  match r with
  | Ok a => a
  | Raise _ => d
  end.

(** A trainer whose personas are numbered from 0 as [example_mapping] lists
    them, on a persona graph that is a path, with its pool; the model that
    [setup_model] builds for it; two walks of a mini-batch and the trainer
    and tensors they lead to. *)
Definition path_trainer : trainer :=
  create_negative_sample_pool
    {| walk_length := 3; window_size := 1; negative_samples := 1;
       persona_graph := {| nodes := [0; 1; 2];
                           degree := fun n => if n =? 1 then 2%nat else 1%nat |};
       personality_map := example_mapping;
       str2idx := example_str2idx;
       downsampled_degrees := []; negative_samples_pool := [];
       pure_sources := []; personas := []; sources := []; contexts := [];
       targets := [] |}.

Definition path_model : splitter :=
  {| dimensions := 2; lambd := (1 / 10)%R; base_node_count := 2; node_count := 3;
     base_node_embedding :=
       Some {| weight := {| data := [[1; 0]; [0; 1]]%R; requires_grad := true |};
               padding_idx := Some 0 |};
     node_embedding :=
       Some {| weight := {| data := [[1; 0]; [0; 1]; [0; 1]]%R; requires_grad := true |};
               padding_idx := Some 0 |} |}.

Definition path_walks : list (list Z) := [[0; 1; 2]; [2; 1; 0]].

Definition path_trainer_loaded : trainer :=
  fst (fst (create_batches np_random_choice path_trainer [5; 2; 7]%nat path_walks)).

Definition path_batch : batch :=
  result_value {| node_f := []; feature_f := []; targets_tensor := [];
                  source_f := []; original_f := [] |}
               (transfer_batch path_trainer_loaded path_model).

(** ** Saving the persona embedding *)

(** [str(n)] of an integer: its decimal digits, after a minus sign for a
    negative one. *)
Definition py_str (z : Z) : string :=
  DecimalString.NilEmpty.string_of_int (Z.to_int z).

(** Dictionaries with string keys, in insertion order. *)
Fixpoint sd_get {V : Type} (d : odict string V) (k : string) : result V :=
  match d with
  | [] => Raise KeyError
  | (k', v) :: d' => if String.eqb k' k then Ok v else sd_get d' k
  end.

Fixpoint sd_set {V : Type} (d : odict string V) (k : string) (v : V)
    : odict string V :=
  match d with
  | [] => [(k, v)]
  | (k', v') :: d' =>
      if String.eqb k' k then (k, v) :: d' else (k', v') :: sd_set d' k v
  end.

(** [save_persona_embedding]: the dictionary handed to [pd.to_pickle]
    ([return_data]); [model] is [self.model]. The node ids are taken as
    integers that a LongTensor holds. *)
Definition save_persona_embedding (self : trainer) (model : splitter)
    : result (odict string (list R)) :=
  let nodes := merge_sort Z.le (nodes (persona_graph self)) in
  e ← getattr (node_embedding model);
  embedding ← embedding_forward e nodes;
  mret (fold_left (fun return_data ne => sd_set return_data (py_str (fst ne)) (snd ne))
                  (zip nodes embedding) []).

(** * Properties *)

(** ** Python sequences and the error monad *)

Lemma py_range_length (lo hi : Z) : length (py_range lo hi) = Z.to_nat (hi - lo).
Proof. unfold py_range. now rewrite length_map, length_seq. Qed.

Lemma In_py_range (lo hi k : Z) : In k (py_range lo hi) <-> lo <= k < hi.
Proof.
  unfold py_range. rewrite in_map_iff. split.
  - intros (n & <- & Hn). apply in_seq in Hn. lia.
  - intros Hk. exists (Z.to_nat (k - lo)). split; [lia|].
    apply in_seq. lia.
Qed.

Lemma comprehension2_length {A : Type} (is_ js : list Z) (f : Z -> Z -> A) :
  length (comprehension2 is_ js f) = (length is_ * length js)%nat.
Proof.
  unfold comprehension2. induction is_ as [|i is_ IH]; simpl; [reflexivity|].
  now rewrite length_app, length_map, IH.
Qed.

Lemma In_comprehension2 {A : Type} (is_ js : list Z) (f : Z -> Z -> A) (x : A) :
  In x (comprehension2 is_ js f) <-> exists i j, In i is_ /\ In j js /\ x = f i j.
Proof.
  unfold comprehension2. rewrite in_flat_map. split.
  - intros (i & Hi & Hx). apply in_map_iff in Hx as (j & <- & Hj). eauto.
  - intros (i & j & Hi & Hj & ->). exists i. split; [assumption|].
    apply in_map_iff. eauto.
Qed.

Lemma py_getitem_in_range {A : Type} (l : list A) (i : Z) :
  0 <= i < Z.of_nat (length l) ->
  exists x, py_getitem l i = Ok x /\ l !! Z.to_nat i = Some x.
Proof.
  intros Hi. unfold py_getitem.
  destruct (Z.ltb_spec i 0) as [?|_]; [lia|].
  destruct (Z.leb_spec 0 i) as [_|?]; [|lia].
  destruct (Z.ltb_spec i (Z.of_nat (length l))) as [_|?]; [|lia].
  simpl. destruct (l !! Z.to_nat i) as [x|] eqn:Hx.
  - exists x. split; reflexivity.
  - apply lookup_ge_None in Hx. lia.
Qed.

Lemma py_getitem_past_end {A : Type} (l : list A) (i : Z) :
  Z.of_nat (length l) <= i -> py_getitem l i = Raise IndexError.
Proof.
  intros Hi. unfold py_getitem.
  destruct (Z.ltb_spec i 0) as [?|_]; [lia|].
  destruct (Z.ltb_spec i (Z.of_nat (length l))) as [?|_]; [lia|].
  now rewrite andb_false_r.
Qed.

Lemma mapM_cons_result {A B : Type} (f : A -> result B) (x : A) (l : list A) :
  mapM f (x :: l) =
  match f x with
  | Ok y => match mapM f l with Ok ys => Ok (y :: ys) | Raise e => Raise e end
  | Raise e => Raise e
  end.
Proof. reflexivity. Qed.

Lemma mapM_result_length {A B : Type} (f : A -> result B) (l : list A) (ys : list B) :
  mapM f l = Ok ys -> length ys = length l.
Proof.
  revert ys. induction l as [|x l IH]; intros ys H.
  - injection H as <-. reflexivity.
  - rewrite mapM_cons_result in H.
    destruct (f x) as [y|e]; [|discriminate].
    destruct (mapM f l) as [ys'|e]; [|discriminate].
    injection H as <-. simpl. f_equal. now apply IH.
Qed.

Lemma mapM_result_total {A B : Type} (f : A -> result B) (l : list A) :
  (forall x, In x l -> exists y, f x = Ok y) ->
  exists ys, mapM f l = Ok ys.
Proof.
  induction l as [|x l IH]; intros H.
  - exists []. reflexivity.
  - destruct (H x (or_introl eq_refl)) as (y & Hy).
    destruct IH as (ys & Hys); [intros z Hz; apply H; now right|].
    exists (y :: ys). rewrite mapM_cons_result, Hy, Hys. reflexivity.
Qed.

Lemma mapM_result_lookup {A B : Type} (f : A -> result B) (l : list A) (ys : list B) :
  mapM f l = Ok ys ->
  forall k x, l !! k = Some x -> exists y, ys !! k = Some y /\ f x = Ok y.
Proof.
  revert ys. induction l as [|a l IH]; intros ys H k x Hk.
  - destruct k; discriminate.
  - rewrite mapM_cons_result in H.
    destruct (f a) as [y|e] eqn:Hy; [|discriminate].
    destruct (mapM f l) as [ys'|e]; [|discriminate].
    injection H as <-. destruct k as [|k]; simpl in *.
    + injection Hk as <-. eauto.
    + now apply (IH ys' eq_refl k x).
Qed.

Lemma mapM_result_raises {A B : Type} (f : A -> result B) (l : list A) (x : A) (e : exn) :
  (forall z, In z l -> forall e', f z = Raise e' -> e' = e) ->
  In x l -> f x = Raise e -> mapM f l = Raise e.
Proof.
  induction l as [|a l IH]; intros Hall Hin Hx; [destruct Hin|].
  rewrite mapM_cons_result.
  destruct (f a) as [y|e'] eqn:Hy.
  - destruct Hin as [->|Hin]; [congruence|].
    rewrite IH; auto. intros z Hz. apply Hall. now right.
  - f_equal. apply (Hall a (or_introl eq_refl)). exact Hy.
Qed.

(** ** The batch builder: accessed positions *)

Lemma In_accessed_indices (wl w k : Z) :
  In k (accessed_indices wl w) ->
  exists i j, 1 <= j <= w /\
    ((0 <= i < wl - w /\ (k = i \/ k = i + j)) \/
     (w <= i < wl /\ (k = i \/ k = i - j))).
Proof.
  unfold accessed_indices, right_source_indices, right_context_indices,
    left_source_indices, left_context_indices.
  rewrite !in_app_iff, !In_comprehension2.
  intros [H|[H|[H|H]]]; destruct H as (i & j & Hi & Hj & ->);
    apply In_py_range in Hi, Hj; exists i, j; (split; [lia|]).
  - left. split; [lia|]. now left.
  - left. split; [lia|]. now right.
  - right. split; [lia|]. now left.
  - right. split; [lia|]. now right.
Qed.

Lemma accessed_indices_bounds (wl w k : Z) :
  In k (accessed_indices wl w) -> 0 <= k <= wl - 1.
Proof.
  intros H. apply In_accessed_indices in H as (i & j & Hj & [[Hi Hk]|[Hi Hk]]);
    destruct Hk as [->| ->]; lia.
Qed.

Lemma gather_total (walk idx : list Z) :
  (forall k, In k idx -> 0 <= k < Z.of_nat (length walk)) ->
  exists xs, gather walk idx = Ok xs /\ length xs = length idx.
Proof.
  intros H. destruct (mapM_result_total (py_getitem walk) idx) as (xs & Hxs).
  - intros k Hk. destruct (py_getitem_in_range walk k (H k Hk)) as (x & Hx & _). eauto.
  - exists xs. split; [exact Hxs|]. now apply mapM_result_length in Hxs.
Qed.

(** C10: when the walk has at least [walk_length] elements, every position
    the batch builder reads ([i], [i + j] and [i - j] of the four
    comprehensions) lies in [[0, walk_length - 1]] and the read succeeds,
    whatever the window size. *)
Theorem accesses_in_bounds (wl w : Z) (walk : list Z) (k : Z) :
  wl <= Z.of_nat (length walk) ->
  In k (accessed_indices wl w) ->
  0 <= k <= wl - 1 /\
  exists x, py_getitem walk k = Ok x /\ walk !! Z.to_nat k = Some x.
Proof.
  intros Hlen Hk. pose proof (accessed_indices_bounds wl w k Hk) as Hb.
  split; [exact Hb|]. apply py_getitem_in_range. lia.
Qed.

Lemma accesses_in_bounds_witness :
  0 <= 3 <= 4 - 1 /\
  exists x, py_getitem [11; 12; 13; 14; 15] 3 = Ok x /\
            [11; 12; 13; 14; 15] !! Z.to_nat 3 = Some x.
Proof.
  apply (accesses_in_bounds 4 1 [11; 12; 13; 14; 15] 3).
  - simpl. lia.
  - vm_compute. tauto.
Defined.

(** The guarantee needs the walk to be that long: the last position
    [walk_length - 1] is read as soon as [1 <= window_size < walk_length],
    and a shorter walk makes the builder raise IndexError. *)
Lemma last_position_is_read (wl w : Z) :
  1 <= w < wl -> In (wl - 1) (right_context_indices wl w).
Proof.
  intros H. unfold right_context_indices. apply In_comprehension2.
  exists (wl - 1 - w), w. rewrite !In_py_range. lia.
Qed.

Lemma gather_raises (walk idx : list Z) (k : Z) :
  (forall z, In z idx -> 0 <= z) ->
  In k idx -> Z.of_nat (length walk) <= k ->
  gather walk idx = Raise IndexError.
Proof.
  intros Hpos Hin Hk. apply (mapM_result_raises _ _ k); auto.
  - intros z Hz e' He'. unfold py_getitem in He'.
    destruct (_ && _); [|congruence].
    destruct (walk !! _); congruence.
  - now apply py_getitem_past_end.
Qed.

Lemma py_getitem_error {A : Type} (l : list A) (i : Z) (e : exn) :
  py_getitem l i = Raise e -> e = IndexError.
Proof.
  unfold py_getitem. destruct (_ && _); [|congruence].
  destruct (l !! _); congruence.
Qed.

Lemma gather_error (walk idx : list Z) (e : exn) :
  gather walk idx = Raise e -> e = IndexError.
Proof.
  unfold gather. induction idx as [|k idx IH]; [discriminate|].
  rewrite mapM_cons_result.
  destruct (py_getitem walk k) as [x|e'] eqn:Hk.
  - destruct (mapM (py_getitem walk) idx) as [xs|e']; [discriminate|].
    intros [= <-]. now apply IH.
  - intros [= <-]. now apply py_getitem_error in Hk.
Qed.

Lemma short_walk_raises (wl w : Z) (walk : list Z) :
  1 <= w < wl -> Z.of_nat (length walk) < wl ->
  window_pairs wl w walk = Raise IndexError.
Proof.
  intros Hw Hlen. unfold window_pairs.
  destruct (gather walk (right_source_indices wl w)) as [s1|e] eqn:H1.
  - simpl. rewrite (gather_raises walk (right_context_indices wl w) (wl - 1)).
    + reflexivity.
    + intros z Hz. apply (accessed_indices_bounds wl w z).
      unfold accessed_indices. rewrite !in_app_iff. tauto.
    + now apply last_position_is_read.
    + lia.
  - simpl. now rewrite (gather_error _ _ _ H1).
Qed.

(** ** The batch builder: positive pairs *)

Lemma gather_in_range (walk idx : list Z) :
  (forall k, In k idx -> 0 <= k < Z.of_nat (length walk)) ->
  gather walk idx = Ok (map (fun k => nth (Z.to_nat k) walk 0) idx).
Proof.
  unfold gather. induction idx as [|k idx IH]; intros H; [reflexivity|].
  rewrite mapM_cons_result.
  destruct (py_getitem_in_range walk k (H k (or_introl eq_refl))) as (x & -> & Hx).
  rewrite IH by (intros z Hz; apply H; now right).
  simpl. do 2 f_equal. symmetry. now apply nth_lookup_Some.
Qed.

Lemma window_pairs_long_walk (wl w : Z) (walk : list Z) :
  wl <= Z.of_nat (length walk) ->
  window_pairs wl w walk =
  Ok (map (fun k => nth (Z.to_nat k) walk 0)
          (right_source_indices wl w ++ left_source_indices wl w),
      map (fun k => nth (Z.to_nat k) walk 0)
          (right_context_indices wl w ++ left_context_indices wl w)).
Proof.
  intros Hlen.
  assert (Hin : forall k, In k (accessed_indices wl w) ->
                          0 <= k < Z.of_nat (length walk)).
  { intros k Hk. apply accessed_indices_bounds in Hk. lia. }
  unfold accessed_indices in Hin. unfold window_pairs.
  rewrite !gather_in_range by (intros k Hk; apply Hin; rewrite !in_app_iff; tauto).
  simpl. now rewrite !map_app.
Qed.

Lemma source_indices_length (wl w : Z) :
  Z.of_nat (length (right_source_indices wl w ++ left_source_indices wl w)) =
  pair_count wl w.
Proof.
  unfold right_source_indices, left_source_indices, pair_count.
  rewrite length_app, !comprehension2_length, !py_range_length. nia.
Qed.

Lemma context_indices_length (wl w : Z) :
  length (right_context_indices wl w ++ left_context_indices wl w) =
  length (right_source_indices wl w ++ left_source_indices wl w).
Proof.
  unfold right_source_indices, left_source_indices,
    right_context_indices, left_context_indices.
  now rewrite !length_app, !comprehension2_length.
Qed.

Lemma pair_count_inside (L w : Z) : 0 < w < L -> pair_count L w = 2 * w * (L - w).
Proof. intros H. unfold pair_count. rewrite !Z.max_r by lia. reflexivity. Qed.

Lemma pair_count_outside (L w : Z) : L <= w \/ w <= 0 -> pair_count L w = 0.
Proof. intros H. unfold pair_count. lia. Qed.

(** C1 (as the code has it): for a walk with at least [L = walk_length]
    elements and window size [w], the builder produces exactly [2w(L - w)]
    positive pairs when [0 < w < L], and none when [L <= w] or [w <= 0].
    The pairs with a context to the right come from the positions where a
    full window fits on the right ([i + w <= L - 1]), the pairs with a
    context to the left from the positions where a full window fits on the
    left ([i - w >= 0]); a position where only one side fits keeps the pairs
    of that side. *)
Theorem positive_pair_count (L w : Z) (walk : list Z) :
  L <= Z.of_nat (length walk) ->
  exists src ctx,
    window_pairs L w walk = Ok (src, ctx) /\
    src = map (fun k => nth (Z.to_nat k) walk 0)
              (right_source_indices L w ++ left_source_indices L w) /\
    ctx = map (fun k => nth (Z.to_nat k) walk 0)
              (right_context_indices L w ++ left_context_indices L w) /\
    length ctx = length src /\
    Z.of_nat (length src) = pair_count L w /\
    (0 < w < L -> pair_count L w = 2 * w * (L - w)) /\
    (L <= w \/ w <= 0 -> pair_count L w = 0) /\
    (forall i, In i (right_source_indices L w) <-> (0 <= i /\ i + w <= L - 1 /\ 1 <= w)) /\
    (forall i, In i (left_source_indices L w) <-> (0 <= i - w /\ i <= L - 1 /\ 1 <= w)).
Proof.
  intros Hlen. do 2 eexists. split; [now apply window_pairs_long_walk|].
  split; [reflexivity|]. split; [reflexivity|].
  rewrite !length_map. split; [apply context_indices_length|].
  split; [apply source_indices_length|].
  split; [apply pair_count_inside|]. split; [apply pair_count_outside|].
  split; intros i.
  - unfold right_source_indices. rewrite In_comprehension2. split.
    + intros (i' & j & Hi & Hj & ->). apply In_py_range in Hi, Hj. lia.
    + intros H. exists i, 1. rewrite !In_py_range. lia.
  - unfold left_source_indices. rewrite In_comprehension2. split.
    + intros (i' & j & Hi & Hj & ->). apply In_py_range in Hi, Hj. lia.
    + intros H. exists i, 1. rewrite !In_py_range. lia.
Qed.

Lemma positive_pair_count_witness :
  exists src ctx,
    window_pairs 5 2 [1; 2; 3; 4; 5] = Ok (src, ctx) /\
    src = map (fun k => nth (Z.to_nat k) [1; 2; 3; 4; 5] 0)
              (right_source_indices 5 2 ++ left_source_indices 5 2) /\
    ctx = map (fun k => nth (Z.to_nat k) [1; 2; 3; 4; 5] 0)
              (right_context_indices 5 2 ++ left_context_indices 5 2) /\
    length ctx = length src /\
    Z.of_nat (length src) = pair_count 5 2 /\
    (0 < 2 < 5 -> pair_count 5 2 = 2 * 2 * (5 - 2)) /\
    (5 <= 2 \/ 2 <= 0 -> pair_count 5 2 = 0) /\
    (forall i, In i (right_source_indices 5 2) <-> (0 <= i /\ i + 2 <= 5 - 1 /\ 1 <= 2)) /\
    (forall i, In i (left_source_indices 5 2) <-> (0 <= i - 2 /\ i <= 5 - 1 /\ 1 <= 2)).
Proof.
  apply (positive_pair_count 5 2 [1; 2; 3; 4; 5]). simpl. lia.
Defined.

(** C1 as the spec states it fails: with [L = 4] and [w = 1] the builder
    produces 6 pairs where the spec counts [2w(L - 2w) = 4], and with
    [L = 2 <= 2w] it produces 2 pairs where the spec counts none; position 0,
    where no window fits on the left, is the source of a pair. *)
Lemma positive_pair_count_counterexample :
  window_pairs 4 1 [1; 2; 3; 4] = Ok ([1; 2; 3; 2; 3; 4], [2; 3; 4; 1; 2; 3]) /\
  Z.of_nat (length [1; 2; 3; 2; 3; 4]) <> spec_pair_count 4 1 /\
  window_pairs 2 1 [1; 2] = Ok ([1; 2], [2; 1]) /\
  Z.of_nat (length [1; 2]) <> spec_pair_count 2 1.
Proof. vm_compute. repeat split; congruence. Qed.

(** ** The batch builder: the appended batch *)

Lemma py_repeat_length {A : Type} (l : list A) (n : Z) :
  length (py_repeat l n) = (Z.to_nat n * length l)%nat.
Proof.
  unfold py_repeat. induction (Z.to_nat n) as [|k IH]; simpl; [reflexivity|].
  now rewrite length_app, IH.
Qed.

Lemma persona_index_total (self : trainer) (walk : list Z) (idx : list Z) :
  forallb (fun x => is_ok (persona_index self x)) walk = true ->
  (forall k, In k idx -> 0 <= k < Z.of_nat (length walk)) ->
  exists ps,
    mapM (persona_index self) (map (fun k => nth (Z.to_nat k) walk 0) idx) = Ok ps.
Proof.
  intros Hall Hidx. apply mapM_result_total. intros x Hx.
  apply in_map_iff in Hx as (k & <- & Hk).
  rewrite forallb_forall in Hall.
  specialize (Hall (nth (Z.to_nat k) walk 0)).
  destruct (persona_index self (nth (Z.to_nat k) walk 0)) as [i|e]; [eauto|].
  assert (false = true); [|discriminate].
  apply Hall. apply nth_In. specialize (Hidx k Hk). lia.
Qed.

(** C4: for one walk processed with negative count [negative_samples >= 0],
    the builder returns and appends, [P] being the number of positive pairs:
    the [P] positive sources to [pure_sources] and their [P] owners to
    [personas]; [P * (negative_samples + 1)] entries to each of [sources],
    [contexts] and [targets]; and the appended targets are [P] ones followed
    by [negative_samples * P] zeros. *)
Theorem batch_shape {rng : Type} (choice : sampler rng) (self : trainer) (g g1 : rng)
    (walk negs : list Z) :
  walk_length self <= Z.of_nat (length walk) ->
  forallb (fun x => is_ok (persona_index self x)) walk = true ->
  0 <= negative_samples self ->
  choice g (negative_samples_pool self)
    (negative_samples self * pair_count (walk_length self) (window_size self))
    = (g1, Ok negs) ->
  length negs =
    Z.to_nat (negative_samples self * pair_count (walk_length self) (window_size self)) ->
  exists (self' : trainer) (P : nat) (src ctx ps : list Z),
    create_batch_from_path choice self g walk = (self', g1, Ok tt) /\
    window_pairs (walk_length self) (window_size self) walk = Ok (src, ctx) /\
    mapM (persona_index self) src = Ok ps /\
    Z.of_nat P = pair_count (walk_length self) (window_size self) /\
    pure_sources self' = pure_sources self ++ src /\ length src = P /\
    personas self' = personas self ++ ps /\ length ps = P /\
    sources self' = sources self ++ py_repeat src (negative_samples self + 1) /\
    contexts self' = contexts self ++ (ctx ++ negs) /\
    targets self' = targets self ++
      (repeat 1%Q P ++ repeat 0%Q (Z.to_nat (negative_samples self) * P)) /\
    length (py_repeat src (negative_samples self + 1)) =
      (P * (Z.to_nat (negative_samples self) + 1))%nat /\
    length (ctx ++ negs) = (P * (Z.to_nat (negative_samples self) + 1))%nat /\
    length (repeat 1%Q P ++ repeat 0%Q (Z.to_nat (negative_samples self) * P)) =
      (P * (Z.to_nat (negative_samples self) + 1))%nat.
Proof.
  intros Hlen Hmap Hneg Hchoice Hnegs.
  destruct (persona_index_total self walk
              (right_source_indices (walk_length self) (window_size self) ++
               left_source_indices (walk_length self) (window_size self)) Hmap)
    as (ps & Hps).
  { intros k Hk.
    assert (In k (accessed_indices (walk_length self) (window_size self))) as Hin.
    { unfold accessed_indices. rewrite !in_app_iff in *. tauto. }
    apply accessed_indices_bounds in Hin. lia. }
  pose proof (window_pairs_long_walk (walk_length self) (window_size self) walk Hlen)
    as Hpairs.
  unfold create_batch_from_path. rewrite Hpairs.
  set (src := map _ (right_source_indices _ _ ++ left_source_indices _ _)) in *.
  set (ctx := map _ (right_context_indices _ _ ++ left_context_indices _ _)) in *.
  assert (Hsrc : Z.of_nat (length src) =
                 pair_count (walk_length self) (window_size self)).
  { unfold src. rewrite length_map. apply source_indices_length. }
  assert (Hctx : length ctx = length src).
  { unfold src, ctx. rewrite !length_map. apply context_indices_length. }
  pose proof (mapM_result_length _ _ _ Hps) as Hpslen.
  change (mapM (persona_index (set_pure_sources self (pure_sources self ++ src))) src)
    with (mapM (persona_index self) src).
  rewrite Hps. cbn [negative_samples negative_samples_pool set_pure_sources
    set_personas set_sources set_contexts set_targets].
  rewrite Hsrc, Hchoice.
  exists (set_targets
            (set_contexts
               (set_sources
                  (set_personas (set_pure_sources self (pure_sources self ++ src))
                     (personas self ++ ps))
                  (sources self ++ py_repeat src (negative_samples self + 1)))
               (contexts self ++ (ctx ++ negs)))
            (targets self ++
               (repeat 1%Q (Z.to_nat (pair_count (walk_length self) (window_size self))) ++
                repeat 0%Q (Z.to_nat (negative_samples self *
                                      pair_count (walk_length self) (window_size self)))))),
    (length src), src, ctx, ps.
  split; [reflexivity|]. split; [reflexivity|]. split; [exact Hps|].
  split; [exact Hsrc|]. cbn.
  split; [reflexivity|]. split; [reflexivity|].
  split; [reflexivity|]. split; [exact Hpslen|].
  split; [reflexivity|]. split; [reflexivity|].
  split.
  { rewrite <- Hsrc. do 3 f_equal; lia. }
  rewrite py_repeat_length, !length_app, !repeat_length, Hnegs, Hctx.
  rewrite <- Hsrc. repeat split; nia.
Qed.

Lemma batch_shape_witness :
  exists (self' : trainer) (P : nat) (src ctx ps : list Z),
    create_batch_from_path np_random_choice example_trainer [5; 2; 7]%nat [1; 2; 3; 4]
      = (self', [], Ok tt) /\
    window_pairs (walk_length example_trainer) (window_size example_trainer)
      [1; 2; 3; 4] = Ok (src, ctx) /\
    mapM (persona_index example_trainer) src = Ok ps /\
    Z.of_nat P = pair_count (walk_length example_trainer) (window_size example_trainer) /\
    pure_sources self' = pure_sources example_trainer ++ src /\ length src = P /\
    personas self' = personas example_trainer ++ ps /\ length ps = P /\
    sources self' = sources example_trainer ++
      py_repeat src (negative_samples example_trainer + 1) /\
    contexts self' = contexts example_trainer ++ (ctx ++ [2; 3; 4; 1; 1; 1]) /\
    targets self' = targets example_trainer ++
      (repeat 1%Q P ++ repeat 0%Q (Z.to_nat (negative_samples example_trainer) * P)) /\
    length (py_repeat src (negative_samples example_trainer + 1)) =
      (P * (Z.to_nat (negative_samples example_trainer) + 1))%nat /\
    length (ctx ++ [2; 3; 4; 1; 1; 1]) =
      (P * (Z.to_nat (negative_samples example_trainer) + 1))%nat /\
    length (repeat 1%Q P ++
            repeat 0%Q (Z.to_nat (negative_samples example_trainer) * P)) =
      (P * (Z.to_nat (negative_samples example_trainer) + 1))%nat.
Proof.
  apply (batch_shape np_random_choice example_trainer [5; 2; 7]%nat []
           [1; 2; 3; 4] [2; 3; 4; 1; 1; 1]).
  - simpl. lia.
  - vm_compute. reflexivity.
  - simpl. lia.
  - vm_compute. reflexivity.
  - vm_compute. reflexivity.
Defined.

(** The batch of the example, evaluated. *)
Example example_batch :
  let '(self', _, r) :=
    create_batch_from_path np_random_choice example_trainer [5; 2; 7]%nat [1; 2; 3; 4] in
  r = Ok tt /\
  pure_sources self' = [1; 2; 3; 2; 3; 4] /\
  personas self' = [0; 1; 2; 1; 2; 3] /\
  sources self' = [1; 2; 3; 2; 3; 4; 1; 2; 3; 2; 3; 4] /\
  contexts self' = [2; 3; 4; 1; 2; 3; 2; 3; 4; 1; 1; 1] /\
  targets self' = [1; 1; 1; 1; 1; 1; 0; 0; 0; 0; 0; 0]%Q.
Proof. vm_compute. repeat split. Qed.

(** ** The negative-sample pool *)

Lemma od_get_od_set {V : Type} (d : odict Z V) (k k' : Z) (v : V) :
  od_get (od_set d k v) k' = if k =? k' then Ok v else od_get d k'.
Proof.
  induction d as [|[a b] d IH]; simpl.
  - destruct (Z.eqb_spec k k'); reflexivity.
  - destruct (Z.eqb_spec a k) as [->|Hak]; simpl.
    + destruct (Z.eqb_spec k k'); reflexivity.
    + rewrite IH. destruct (Z.eqb_spec a k') as [->|Hak']; [|reflexivity].
      destruct (Z.eqb_spec k k'); [congruence|reflexivity].
Qed.

Lemma od_set_keys {V : Type} (d : odict Z V) (k k' : Z) (v : V) :
  In k' (map fst (od_set d k v)) <-> k' = k \/ In k' (map fst d).
Proof.
  induction d as [|[a b] d IH]; simpl.
  - intuition congruence.
  - destruct (Z.eqb_spec a k) as [->|Hak]; simpl; [intuition congruence|].
    rewrite IH. intuition congruence.
Qed.

Lemma od_set_NoDup {V : Type} (d : odict Z V) (k : Z) (v : V) :
  List.NoDup (map fst d) -> List.NoDup (map fst (od_set d k v)).
Proof.
  induction d as [|[a b] d IH]; simpl; intros H.
  - constructor; [intros []|constructor].
  - apply List.NoDup_cons_iff in H as [Ha Hd].
    destruct (Z.eqb_spec a k) as [->|Hak]; simpl.
    + now constructor.
    + constructor; [|now apply IH].
      rewrite od_set_keys. intuition congruence.
Qed.

Lemma od_get_missing {V : Type} (d : odict Z V) (k : Z) :
  ~ In k (map fst d) -> od_get d k = Raise KeyError.
Proof.
  induction d as [|[a b] d IH]; simpl; intros H; [reflexivity|].
  destruct (Z.eqb_spec a k) as [->|_]; [tauto|]. apply IH. tauto.
Qed.

Section Dictionary_comprehension.

Variable value : Z -> Z.

Lemma build_NoDup (ns : list Z) (acc : odict Z Z) :
  List.NoDup (map fst acc) -> List.NoDup (map fst (dict_comprehension value ns acc)).
Proof.
  unfold dict_comprehension.
  revert acc. induction ns as [|a ns IH]; intros acc H; [exact H|].
  apply IH. now apply od_set_NoDup.
Qed.

Lemma build_get_other (ns : list Z) (acc : odict Z Z) (n : Z) :
  ~ In n ns -> od_get (dict_comprehension value ns acc) n = od_get acc n.
Proof.
  unfold dict_comprehension.
  revert acc. induction ns as [|a ns IH]; intros acc H; [reflexivity|].
  simpl in H. simpl. rewrite IH by tauto.
  rewrite od_get_od_set. destruct (Z.eqb_spec a n); [tauto|reflexivity].
Qed.

Lemma build_get (ns : list Z) (acc : odict Z Z) (n : Z) :
  In n ns -> od_get (dict_comprehension value ns acc) n = Ok (value n).
Proof.
  revert acc. induction ns as [|a ns IH]; intros acc H; [destruct H|].
  change (dict_comprehension value (a :: ns) acc)
    with (dict_comprehension value ns (od_set acc a (value a))).
  destruct (in_dec Z.eq_dec n ns) as [Hin|Hnin]; [now apply IH|].
  destruct H as [->|H]; [|tauto].
  rewrite (build_get_other ns _ n Hnin), od_get_od_set, Z.eqb_refl. reflexivity.
Qed.

End Dictionary_comprehension.

Lemma count_occ_constant (k n : Z) (l : list Z) :
  count_occ Z.eq_dec (map (fun _ => k) l) n = if k =? n then length l else 0%nat.
Proof.
  induction l as [|a l IH]; simpl.
  - now destruct (k =? n).
  - destruct (Z.eq_dec k n) as [->|H].
    + rewrite IH, Z.eqb_refl. reflexivity.
    + rewrite IH. destruct (Z.eqb_spec k n); [congruence|reflexivity].
Qed.

Lemma pool_count (d : odict Z Z) (n : Z) :
  List.NoDup (map fst d) ->
  count_occ Z.eq_dec
    (flat_map (fun kv => map (fun _ => fst kv) (py_range 0 (snd kv))) d) n =
  match od_get d n with
  | Ok v => Z.to_nat v
  | Raise _ => 0%nat
  end.
Proof.
  induction d as [|[k v] d IH]; simpl; intros H; [reflexivity|].
  apply List.NoDup_cons_iff in H as [Hk Hd].
  rewrite count_occ_app, count_occ_constant, py_range_length, (IH Hd).
  destruct (Z.eqb_spec k n) as [->|Hkn].
  - rewrite (od_get_missing d n Hk). rewrite Z.sub_0_r. lia.
  - reflexivity.
Qed.

Lemma floor_pow075_spec (d : Z) :
  0 <= d ->
  0 <= floor_pow075 d /\
  floor_pow075 d ^ 4 <= d ^ 3 < (floor_pow075 d + 1) ^ 4.
Proof.
  intros Hd. unfold floor_pow075.
  assert (H3 : 0 <= d ^ 3) by (apply Z.pow_nonneg; lia).
  pose proof (Z.sqrt_spec (d ^ 3) H3) as Ha. cbv zeta in Ha.
  pose proof (Z.sqrt_nonneg (d ^ 3)) as Ha0.
  pose proof (Z.sqrt_spec (Z.sqrt (d ^ 3)) Ha0) as Hk. cbv zeta in Hk.
  pose proof (Z.sqrt_nonneg (Z.sqrt (d ^ 3))) as Hk0.
  set (a := Z.sqrt (d ^ 3)) in *. set (k := Z.sqrt a) in *.
  split; [exact Hk0|].
  replace (k ^ 4) with ((k * k) * (k * k)) by ring.
  replace ((k + 1) ^ 4) with (((k + 1) * (k + 1)) * ((k + 1) * (k + 1))) by ring.
  split; nia.
Qed.

Lemma floor_pow075_mono (d1 d2 : Z) :
  0 <= d1 <= d2 -> floor_pow075 d1 <= floor_pow075 d2.
Proof.
  intros H. unfold floor_pow075. do 2 apply Z.sqrt_le_mono.
  apply Z.pow_le_mono_l. lia.
Qed.

Lemma downsampled_degree_mono (d1 d2 : nat) :
  (d1 <= d2)%nat -> downsampled_degree d1 <= downsampled_degree d2.
Proof.
  intros H. unfold downsampled_degree.
  apply Z.add_le_mono_l, floor_pow075_mono. lia.
Qed.

Lemma downsampled_degree_positive (d : nat) : 1 <= downsampled_degree d.
Proof.
  unfold downsampled_degree.
  pose proof (floor_pow075_spec (Z.of_nat d) (Nat2Z.is_nonneg d)). lia.
Qed.

(** The exact integer computation is the integer part of the real power. *)
Lemma pow075_fourth_power (d : nat) : (pow075 d ^ 4 = INR d ^ 3)%R.
Proof.
  destruct d as [|d]; [simpl; ring|].
  unfold pow075.
  assert (Hpos : (0 < INR (S d))%R) by (apply lt_0_INR; lia).
  assert (Hx : (0 < Rpower (INR (S d)) (3 / 4))%R) by (unfold Rpower; apply exp_pos).
  rewrite <- (Rpower_pow 4 _ Hx), Rpower_mult.
  replace (3 / 4 * INR 4)%R with (INR 3) by (simpl; field).
  now rewrite Rpower_pow.
Qed.

Lemma pow075_nonneg (d : nat) : (0 <= pow075 d)%R.
Proof.
  destruct d as [|d]; simpl; [lra|]. left. unfold Rpower. apply exp_pos.
Qed.

Lemma floor_pow075_real (d : nat) : Int_part (pow075 d) = floor_pow075 (Z.of_nat d).
Proof.
  symmetry. apply Int_part_spec.
  destruct (floor_pow075_spec (Z.of_nat d) (Nat2Z.is_nonneg d)) as (Hk0 & Hlo & Hhi).
  set (k := floor_pow075 (Z.of_nat d)) in *.
  pose proof (pow075_fourth_power d) as Hx4.
  pose proof (pow075_nonneg d) as Hx0.
  set (x := pow075 d) in *.
  assert (Hd3 : (INR d ^ 3 = IZR (Z.of_nat d ^ 3))%R).
  { rewrite INR_IZR_INZ, pow_IZR. reflexivity. }
  apply IZR_le in Hlo. apply IZR_lt in Hhi. apply IZR_le in Hk0.
  change 4 with (Z.of_nat 4) in Hlo, Hhi.
  rewrite <- pow_IZR in Hlo, Hhi. rewrite <- Hd3, <- Hx4 in Hlo, Hhi.
  rewrite plus_IZR in Hhi.
  split.
  - destruct (Rlt_le_dec (x - 1) (IZR k)) as [?|Hge]; [assumption|exfalso].
    assert ((IZR k + 1) ^ 4 <= x ^ 4)%R by (apply pow_incr; lra). lra.
  - destruct (Rle_lt_dec (IZR k) x) as [?|Hlt]; [assumption|exfalso].
    assert (x ^ 4 <= IZR k ^ 4)%R by (apply pow_incr; lra).
    assert (x ^ 4 < IZR k ^ 4)%R; [|lra].
    assert (Hk : (0 < IZR k)%R) by lra.
    replace (x ^ 4)%R with ((x * x) * (x * x))%R by ring.
    replace (IZR k ^ 4)%R with ((IZR k * IZR k) * (IZR k * IZR k))%R by ring.
    assert (Hsq : (x * x < IZR k * IZR k)%R) by nra.
    assert (Hsq0 : (0 <= x * x)%R) by nra.
    apply Rmult_le_0_lt_compat; assumption.
Qed.

Lemma downsampled_degree_is_real (d : nat) :
  downsampled_degree_real d = downsampled_degree d /\
  downsampled_degree d = 1 + Int_part (pow075 d).
Proof.
  pose proof (pow075_nonneg d) as Hx0.
  unfold downsampled_degree_real, downsampled_degree, py_int.
  rewrite <- floor_pow075_real. split; [|reflexivity].
  destruct (Rle_dec 0 (1 + pow075 d)) as [_|Hneg]; [|lra].
  symmetry. apply Int_part_spec. rewrite plus_IZR.
  pose proof (base_Int_part (pow075 d)) as [H1 H2]. lra.
Qed.

Lemma pool_multiplicity_exact (self : trainer) (n : Z) :
  In n (nodes (persona_graph self)) ->
  Z.of_nat (count_occ Z.eq_dec
              (negative_samples_pool (create_negative_sample_pool self)) n) =
  downsampled_degree (degree (persona_graph self) n).
Proof.
  intros Hn. unfold create_negative_sample_pool. cbn.
  unfold od_items. rewrite pool_count.
  - rewrite (build_get (fun node => downsampled_degree (degree (persona_graph self) node))
               _ _ n Hn).
    pose proof (downsampled_degree_positive (degree (persona_graph self) n)). lia.
  - apply build_NoDup. constructor.
Qed.

(** C6: every node [n] of the persona graph occurs in the negative-sample
    pool exactly [1 + floor(degree(n) ** 0.75)] times (the power taken over
    the real numbers), and this multiplicity does not decrease when the
    degree grows. *)
Theorem pool_multiplicity (self : trainer) (n : Z) :
  In n (nodes (persona_graph self)) ->
  let pool := negative_samples_pool (create_negative_sample_pool self) in
  let deg := degree (persona_graph self) in
  Z.of_nat (count_occ Z.eq_dec pool n) = 1 + Int_part (pow075 (deg n)) /\
  Z.of_nat (count_occ Z.eq_dec pool n) = 1 + floor_pow075 (Z.of_nat (deg n)) /\
  (forall m, In m (nodes (persona_graph self)) -> (deg n <= deg m)%nat ->
     (count_occ Z.eq_dec pool n <= count_occ Z.eq_dec pool m)%nat) /\
  (forall d1 d2 : nat, (d1 <= d2)%nat ->
     1 + Int_part (pow075 d1) <= 1 + Int_part (pow075 d2)).
Proof.
  intros Hn pool deg. subst pool deg.
  rewrite (pool_multiplicity_exact self n Hn).
  split; [apply downsampled_degree_is_real|]. split; [reflexivity|]. split.
  - intros m Hm Hle. apply Nat2Z.inj_le.
    rewrite !pool_multiplicity_exact by assumption.
    now apply downsampled_degree_mono.
  - intros d1 d2 Hle.
    rewrite <- !(proj2 (downsampled_degree_is_real _)).
    now apply downsampled_degree_mono.
Qed.

Lemma pool_multiplicity_witness :
  let pool := negative_samples_pool (create_negative_sample_pool example_trainer) in
  let deg := degree (persona_graph example_trainer) in
  Z.of_nat (count_occ Z.eq_dec pool 2) = 1 + Int_part (pow075 (deg 2)) /\
  Z.of_nat (count_occ Z.eq_dec pool 2) = 1 + floor_pow075 (Z.of_nat (deg 2)) /\
  (forall m, In m (nodes (persona_graph example_trainer)) -> (deg 2%Z <= deg m)%nat ->
     (count_occ Z.eq_dec pool 2%Z <= count_occ Z.eq_dec pool m)%nat) /\
  (forall d1 d2 : nat, (d1 <= d2)%nat ->
     1 + Int_part (pow075 d1) <= 1 + Int_part (pow075 d2)).
Proof.
  apply (pool_multiplicity example_trainer 2). simpl. tauto.
Defined.

(** The pool of the example: every node has degree 3 and weight
    [1 + floor(3 ** 0.75) = 3]. *)
Example example_pool :
  negative_samples_pool (create_negative_sample_pool example_trainer) =
  [1; 1; 1; 2; 2; 2; 3; 3; 3; 4; 4; 4].
Proof. vm_compute. reflexivity. Qed.

(** ** The empty persona graph *)

Lemma empty_graph_empty_pool (self : trainer) :
  nodes (persona_graph self) = [] ->
  negative_samples_pool (create_negative_sample_pool self) = [].
Proof. intros H. unfold create_negative_sample_pool. rewrite H. reflexivity. Qed.

(** The pool is empty only for an empty graph: every node is in it. *)
Lemma pool_empty_only_for_empty_graph (self : trainer) :
  negative_samples_pool (create_negative_sample_pool self) = [] ->
  nodes (persona_graph self) = [].
Proof.
  intros H. destruct (nodes (persona_graph self)) as [|n ns] eqn:Hns; [reflexivity|].
  pose proof (pool_multiplicity_exact self n) as Hc.
  rewrite Hns, H in Hc. specialize (Hc (or_introl eq_refl)).
  pose proof (downsampled_degree_positive (degree (persona_graph self) n)).
  simpl in Hc. lia.
Qed.

(** C9 (as the code has it): when the persona graph is empty the pool built
    from it is empty.  The builder does not check the pool: once the walk has
    been read and its sources mapped, it hands the empty pool to the sampler
    and returns if the sampler returns, or raises the exception the sampler
    raises, unchanged. *)
Theorem empty_pool_sampling {rng : Type} (choice : sampler rng) (self : trainer)
    (g : rng) (walk src ctx ps : list Z) :
  nodes (persona_graph self) = [] ->
  window_pairs (walk_length self) (window_size self) walk = Ok (src, ctx) ->
  mapM (persona_index self) src = Ok ps ->
  let self0 := create_negative_sample_pool self in
  negative_samples_pool self0 = [] /\
  snd (create_batch_from_path choice self0 g walk) =
  match snd (choice g [] (negative_samples self * Z.of_nat (length src))) with
  | Ok _ => Ok tt
  | Raise e => Raise e
  end.
Proof.
  intros Hg Hw Hps self0.
  pose proof (empty_graph_empty_pool self Hg) as Hpool. fold self0 in Hpool.
  split; [exact Hpool|].
  unfold create_batch_from_path.
  change (walk_length self0) with (walk_length self).
  change (window_size self0) with (window_size self).
  rewrite Hw.
  change (mapM (persona_index (set_pure_sources self0 (pure_sources self0 ++ src))) src)
    with (mapM (persona_index self) src).
  rewrite Hps.
  cbn [negative_samples negative_samples_pool set_pure_sources set_personas
       set_sources set_contexts set_targets].
  rewrite Hpool.
  change (negative_samples self0) with (negative_samples self).
  destruct (choice g [] (negative_samples self * Z.of_nat (length src)))
    as [g' [negs|e]]; reflexivity.
Qed.

Lemma empty_pool_sampling_witness :
  let self0 := create_negative_sample_pool empty_graph_trainer in
  negative_samples_pool self0 = [] /\
  snd (create_batch_from_path np_random_choice self0 [5; 2; 7]%nat [1; 2; 3; 4]) =
  match snd (np_random_choice [5; 2; 7]%nat []
               (negative_samples empty_graph_trainer *
                Z.of_nat (length [1; 2; 3; 2; 3; 4]))) with
  | Ok _ => Ok tt
  | Raise e => Raise e
  end.
Proof.
  apply (empty_pool_sampling np_random_choice empty_graph_trainer [5; 2; 7]%nat
           [1; 2; 3; 4] [1; 2; 3; 2; 3; 4] [2; 3; 4; 1; 2; 3] [0; 1; 2; 1; 2; 3]).
  - reflexivity.
  - vm_compute. reflexivity.
  - vm_compute. reflexivity.
Defined.

(** C9 as the spec states it fails: on the empty pool the builder raises
    numpy's ValueError when draws are requested, and KeyError (before it
    samples at all) when the persona map is empty as the graph is; neither
    is an EmptyPoolError, which the code does not define. *)
Lemma empty_pool_counterexample :
  negative_samples_pool (create_negative_sample_pool empty_graph_trainer) = [] /\
  snd (create_batch_from_path np_random_choice
         (create_negative_sample_pool empty_graph_trainer) [5; 2; 7]%nat [1; 2; 3; 4])
    = Raise ValueError /\
  snd (create_batch_from_path np_random_choice
         (create_negative_sample_pool empty_trainer) [5; 2; 7]%nat [1; 2; 3; 4])
    = Raise KeyError /\
  ValueError <> EmptyPoolError /\ KeyError <> EmptyPoolError.
Proof. vm_compute. repeat split; discriminate. Qed.

(** ** Initialisation of the embedding tables *)

Lemma py_getitem_map {A B : Type} (f : A -> B) (l : list A) (i : Z) (x : A) :
  py_getitem l i = Ok x -> py_getitem (map f l) i = Ok (f x).
Proof.
  unfold py_getitem. rewrite length_map.
  destruct (_ && _); [|discriminate].
  change (map f l) with (f <$> l). rewrite list_lookup_fmap.
  destruct (l !! _) as [y|]; [|discriminate].
  intros [= ->]. reflexivity.
Qed.

Lemma od_get_lookup {V : Type} (d : odict Z V) (k : Z) (v : V) :
  od_get d k = Ok v -> exists j : nat, d !! j = Some (k, v).
Proof.
  induction d as [|[a b] d IH]; simpl; [discriminate|].
  destruct (Z.eqb_spec a k) as [->|_].
  - intros [= ->]. now exists 0%nat.
  - intros H. destruct (IH H) as (j & Hj). now exists (S j).
Qed.

Lemma row_number_key {V : Type} (d : odict Z V) (j : nat) (k : Z) (v : V) :
  map fst d = map Z.of_nat (seq 0 (length d)) ->
  d !! j = Some (k, v) -> k = Z.of_nat j.
Proof.
  unfold odict in *. intros Hkeys Hj.
  assert (H1 : map fst d !! j = Some k).
  { change (map fst d) with (fst <$> d). now rewrite list_lookup_fmap, Hj. }
  rewrite Hkeys in H1.
  change (map Z.of_nat (seq 0 (length d))) with (Z.of_nat <$> seq 0 (length d)) in H1.
  rewrite list_lookup_fmap in H1.
  destruct (seq 0 (length d) !! j) as [i|] eqn:Hi; [|discriminate].
  apply lookup_seq in Hi as [-> _]. simpl in H1. congruence.
Qed.

Section Initialisation.

Variable float32 : R -> R.

Lemma initialize_weights_tables (self self' : splitter) (base_vectors : list (list R))
    (mapping : odict Z string) (str2idx : gmap string Z) :
  initialize_weights float32 self base_vectors mapping str2idx = Ok self' ->
  exists persona_embedding,
    mapM (base_row base_vectors str2idx) (od_items mapping) = Ok persona_embedding /\
    table (node_embedding self') = torch_Tensor float32 persona_embedding /\
    table (base_node_embedding self') = torch_Tensor float32 base_vectors.
Proof.
  unfold initialize_weights.
  destruct (mapM (base_row base_vectors str2idx) (od_items mapping)) as [pe|e];
    [|discriminate].
  destruct (node_embedding self) as [ne|]; [|discriminate].
  destruct (base_node_embedding self) as [be|]; [|discriminate].
  intros [= <-]. exists pe. repeat split.
Qed.


(** The row written for the [j]-th item of the persona map is the base row
    of the node that owns it, whatever the keys of the map are. *)
Lemma persona_rows_by_position (self self' : splitter) (base_vectors : list (list R))
    (mapping : odict Z string) (str2idx : gmap string Z) (j : nat) (p : Z) (o : string) :
  initialize_weights float32 self base_vectors mapping str2idx = Ok self' ->
  od_items mapping !! j = Some (p, o) ->
  exists idx row,
    gm_get str2idx o = Ok idx /\
    py_getitem (table (node_embedding self')) (Z.of_nat j) = Ok row /\
    py_getitem (table (base_node_embedding self')) idx = Ok row.
Proof.
  intros Hinit Hj.
  destruct (initialize_weights_tables _ _ _ _ _ Hinit) as (pe & Hpe & -> & ->).
  destruct (mapM_result_lookup _ _ _ Hpe j (p, o) Hj) as (y & Hy & Hrow).
  unfold base_row in Hrow. simpl in Hrow.
  destruct (gm_get str2idx o) as [idx|e] eqn:Hidx; [|discriminate].
  simpl in Hrow. exists idx, (map float32 y). split; [reflexivity|].
  unfold torch_Tensor. split.
  - apply py_getitem_map.
    destruct (py_getitem_in_range pe (Z.of_nat j)) as (x & Hx & Hx').
    + apply lookup_lt_Some in Hy. lia.
    + rewrite Nat2Z.id in Hx'. congruence.
  - now apply py_getitem_map.
Qed.


End Initialisation.


(** The tables of the example: personas 1 and 2 both start from the vector
    of node "b". *)
Example example_tables :
  exists self',
    initialize_weights (fun x => x) example_model example_base_vectors
      example_mapping example_str2idx = Ok self' /\
    table (node_embedding self') = [[1; 0]; [0; 1]; [0; 1]]%R /\
    table (base_node_embedding self') = [[1; 0]; [0; 1]]%R.
Proof. eexists. split; [vm_compute; reflexivity|]. split; reflexivity. Qed.

(** The numbering matters: the table is filled in the order of the map, so
    with the personas listed in another order row 0 holds the vector of the
    owner of persona 1. *)
Example rows_follow_the_map_order :
  exists self',
    initialize_weights (fun x => x) example_model example_base_vectors
      unordered_mapping example_str2idx = Ok self' /\
    od_get unordered_mapping 0 = Ok "a"%string /\
    py_getitem (table (node_embedding self')) 0 = Ok [0; 1]%R /\
    py_getitem (table (base_node_embedding self')) 0 = Ok [1; 0]%R.
Proof. eexists. split; [vm_compute; reflexivity|]. repeat split. Qed.

(** ** Trainability of the base table *)

Section Setup.

Variable embedding_init : Z -> Z -> tensor2.
Variable float32 : R -> R.

(** After [setup_model] the weight of the base embedding still requires a
    gradient: [create_weights] makes it trainable and [initialize_weights]
    only replaces its values, the flag [requires_grad = False] being that of
    the temporary parameter the values are taken from.  The weight is among
    [model.parameters()], which [fit] gives to the optimizer. *)
Lemma base_weight_requires_grad (dims : Z) (lam : R) (base_count persona_count : Z)
    (base_vectors : list (list R)) (mapping : odict Z string)
    (str2idx : gmap string Z) (model : splitter) :
  setup_model embedding_init float32 dims lam base_count persona_count
    base_vectors mapping str2idx = Ok model ->
  exists be,
    base_node_embedding model = Some be /\
    data (weight be) = torch_Tensor float32 base_vectors /\
    requires_grad (weight be) = true /\
    In (weight be) (parameters model) /\
    In (weight be) (updated_by_optimizer model).
Proof.
  unfold setup_model, initialize_weights.
  destruct (mapM _ (od_items mapping)) as [pe|e]; [|discriminate].
  simpl. intros [= <-]. eexists. split; [reflexivity|].
  split; [reflexivity|]. split; [reflexivity|].
  split; [now left|].
  unfold updated_by_optimizer. apply list_elem_of_In, list_elem_of_filter.
  split; [reflexivity|]. apply list_elem_of_In. now left.
Qed.

End Setup.

(** C2 fails on the code: for the model of the example, [setup_model] returns
    a model whose base-table weight requires a gradient and is one of the
    parameters the optimizer of [fit] updates. *)
Theorem base_table_is_trainable :
  exists model be,
    setup_model (fun _ _ => []) (fun x => x) 2 (1 / 10)%R 2 3
      example_base_vectors example_mapping example_str2idx = Ok model /\
    base_node_embedding model = Some be /\
    data (weight be) = example_base_vectors /\
    requires_grad (weight be) = true /\
    In (weight be) (parameters model) /\
    In (weight be) (updated_by_optimizer model).
Proof.
  assert (exists model,
    setup_model (fun _ _ => []) (fun x => x) 2 (1 / 10)%R 2 3
      example_base_vectors example_mapping example_str2idx = Ok model) as (model & Hm).
  { eexists. vm_compute. reflexivity. }
  destruct (base_weight_requires_grad _ _ _ _ _ _ _ _ _ _ Hm)
    as (be & Hbe & Hdata & Hflag & Hin & Hopt).
  exists model, be. repeat split; assumption.
Qed.

(** ** The loss *)

Lemma sum_r_opp (xs : list R) : sum_r (map Ropp xs) = (- sum_r xs)%R.
Proof. induction xs as [|x xs IH]; simpl; [ring|]. rewrite IH. ring. Qed.

Lemma fneg_torch_mean (xs : tensor1) : fneg (torch_mean xs) = torch_mean (map Ropp xs).
Proof.
  destruct xs as [|x xs]; [reflexivity|].
  change (torch_mean (map Ropp (x :: xs)))
    with (Some (sum_r (map Ropp (x :: xs)) / INR (length (map Ropp (x :: xs))))%R).
  rewrite sum_r_opp, length_map. unfold torch_mean, fneg, option_map.
  f_equal. unfold Rdiv. ring.
Qed.

Lemma main_loss_terms (node_f feature_f : tensor2) (targets : tensor1) :
  map Ropp
    (zip_with (fun t s => t * ln s + (1 - t) * ln (1 - s))%R targets
       (map sigmoid (rowwise_dot (normalize node_f) (normalize feature_f)))) =
  map (fun e => spec_example_loss (snd e) (spec_probability (fst (fst e)) (snd (fst e))))
      (zip (zip node_f feature_f) targets).
Proof.
  unfold rowwise_dot, normalize.
  revert feature_f targets. induction node_f as [|u node_f IH]; intros feature_f targets.
  - destruct targets; reflexivity.
  - destruct feature_f as [|v feature_f]; [destruct targets; reflexivity|].
    destruct targets as [|t targets]; [reflexivity|].
    cbn [map zip_with fst snd]. f_equal. apply IH.
Qed.

Lemma regularization_terms (source_f original_f : tensor2) :
  map Ropp (map ln (map sigmoid (rowwise_dot (normalize source_f) (normalize original_f)))) =
  map (fun e => (- ln (spec_probability (fst e) (snd e)))%R) (zip source_f original_f).
Proof.
  unfold rowwise_dot, normalize.
  revert original_f. induction source_f as [|u source_f IH]; intros original_f;
    [reflexivity|].
  destruct original_f as [|v original_f]; [reflexivity|].
  cbn [map zip_with fst snd]. f_equal. apply IH.
Qed.

Lemma forward_unfolded (self : splitter) (node_f feature_f : tensor2)
    (targets : tensor1) (source_f original_f : tensor2) :
  same_shape2 node_f feature_f = true ->
  length targets = length node_f ->
  same_shape2 source_f original_f = true ->
  forward self node_f feature_f targets source_f original_f =
  Ok (fadd (torch_mean
              (map (fun e => spec_example_loss (snd e)
                               (spec_probability (fst (fst e)) (snd (fst e))))
                   (zip (zip node_f feature_f) targets)))
           (fscale (lambd self)
              (torch_mean
                 (map (fun e => (- ln (spec_probability (fst e) (snd e)))%R)
                      (zip source_f original_f))))).
Proof.
  intros Hs Ht Hr. unfold forward, calculate_main_loss, calculate_regularization.
  rewrite Hs, Hr, Ht, Nat.eqb_refl. cbn [andb mbind result_bind mret result_ret].
  rewrite !fneg_torch_mean, main_loss_terms, regularization_terms. reflexivity.
Qed.



(** ** Scaling a row *)

Lemma normalize_eps_pos : (0 < normalize_eps)%R.
Proof. unfold normalize_eps. apply Rinv_0_lt_compat, pow_lt. lra. Qed.

Lemma normalize_eps_le_1 : (normalize_eps <= 1)%R.
Proof.
  unfold normalize_eps. rewrite <- Rinv_1.
  apply Rinv_le_contravar; [lra|]. apply pow_R1_Rle. lra.
Qed.

Lemma sum_sq_nonneg (v : list R) : (0 <= sum_r (map (fun x => x * x) v))%R.
Proof. induction v as [|x v IH]; simpl; [lra|]. nra. Qed.

Lemma sum_sq_scale (c : R) (v : list R) :
  sum_r (map (fun x => x * x)%R (map (Rmult c) v)) =
  (c * c * sum_r (map (fun x => x * x) v))%R.
Proof. induction v as [|x v IH]; simpl; [ring|]. rewrite IH. ring. Qed.

Lemma l2_norm_nonneg (v : list R) : (0 <= l2_norm v)%R.
Proof. apply sqrt_pos. Qed.

Lemma l2_norm_scale (c : R) (v : list R) :
  (0 <= c)%R -> l2_norm (map (Rmult c) v) = (c * l2_norm v)%R.
Proof.
  intros Hc. unfold l2_norm. rewrite sum_sq_scale, sqrt_mult.
  - now rewrite sqrt_square.
  - nra.
  - apply sum_sq_nonneg.
Qed.

Lemma l2_norm_zero_row (v : list R) : l2_norm v = 0%R -> Forall (fun x => x = 0%R) v.
Proof.
  unfold l2_norm. intros H.
  assert (Hs : sum_r (map (fun x => (x * x)%R) v) = 0%R).
  { rewrite <- (sqrt_sqrt _ (sum_sq_nonneg v)), H. ring. }
  clear H. induction v as [|x v IH]; [constructor|].
  simpl in Hs. pose proof (sum_sq_nonneg v) as Hv.
  constructor; [nra|]. apply IH. nra.
Qed.

Lemma scale_zero_row (c : R) (v : list R) :
  Forall (fun x => x = 0%R) v -> map (Rmult c) v = v.
Proof.
  induction 1 as [|x v Hx _ IH]; [reflexivity|].
  simpl. rewrite IH, Hx. f_equal. ring.
Qed.

Lemma normalize_row_scale (c : R) (v : list R) :
  (0 < c)%R -> scalable c v -> normalize_row (map (Rmult c) v) = normalize_row v.
Proof.
  intros Hc [[H1 H2]|H0].
  - unfold normalize_row. rewrite l2_norm_scale by lra.
    rewrite !Rmax_left by assumption.
    rewrite map_map. apply map_ext. intros x.
    pose proof normalize_eps_pos. field. split; lra.
  - now rewrite (scale_zero_row c v (l2_norm_zero_row v H0)).
Qed.

Lemma normalize_scale_row (k : nat) (c : R) (m : tensor2) :
  (0 < c)%R -> (forall v, m !! k = Some v -> scalable c v) ->
  normalize (scale_row k c m) = normalize m.
Proof.
  intros Hc. unfold normalize, scale_row. revert k.
  induction m as [|u m IH]; intros k H; [reflexivity|].
  destruct k as [|k]; simpl.
  - f_equal. apply normalize_row_scale; [assumption|]. now apply H.
  - f_equal. apply IH. intros v Hv. now apply H.
Qed.

Lemma scale_row_shape (k : nat) (c : R) (m : tensor2) :
  map length (scale_row k c m) = map length m.
Proof.
  unfold scale_row. revert k. induction m as [|u m IH]; intros k; [reflexivity|].
  destruct k as [|k]; simpl.
  - now rewrite length_map.
  - f_equal. apply IH.
Qed.

Lemma scale_row_length (k : nat) (c : R) (m : tensor2) :
  length (scale_row k c m) = length m.
Proof. unfold scale_row. apply length_alter. Qed.

Lemma forward_normalized (self : splitter) (a b c d a' b' c' d' : tensor2)
    (targets : tensor1) :
  map length a' = map length a -> map length b' = map length b ->
  map length c' = map length c -> map length d' = map length d ->
  normalize a' = normalize a -> normalize b' = normalize b ->
  normalize c' = normalize c -> normalize d' = normalize d ->
  forward self a' b' targets c' d' = forward self a b targets c d.
Proof.
  intros Ha Hb Hc Hd Na Nb Nc Nd.
  unfold forward, calculate_main_loss, calculate_regularization, same_shape2.
  rewrite Ha, Hb, Hc, Hd, Na, Nb, Nc, Nd.
  replace (length a') with (length a)
    by (rewrite <- (length_map length a), <- Ha; apply length_map).
  reflexivity.
Qed.

(** C7 (as the code has it): multiplying row [k] of any one input matrix by
    [c > 0] leaves the loss unchanged when that row has an L2 norm of at
    least [eps = 1e-12] before and after the scaling, or is zero. *)
Theorem loss_scale_invariant (self : splitter) (node_f feature_f : tensor2)
    (targets : tensor1) (source_f original_f : tensor2) (k : nat) (c : R) :
  (0 < c)%R ->
  ((forall v, node_f !! k = Some v -> scalable c v) ->
   forward self (scale_row k c node_f) feature_f targets source_f original_f =
     forward self node_f feature_f targets source_f original_f) /\
  ((forall v, feature_f !! k = Some v -> scalable c v) ->
   forward self node_f (scale_row k c feature_f) targets source_f original_f =
     forward self node_f feature_f targets source_f original_f) /\
  ((forall v, source_f !! k = Some v -> scalable c v) ->
   forward self node_f feature_f targets (scale_row k c source_f) original_f =
     forward self node_f feature_f targets source_f original_f) /\
  ((forall v, original_f !! k = Some v -> scalable c v) ->
   forward self node_f feature_f targets source_f (scale_row k c original_f) =
     forward self node_f feature_f targets source_f original_f).
Proof.
  intros Hc. repeat split; intros H; apply forward_normalized;
    try reflexivity; try apply scale_row_shape;
    now apply normalize_scale_row.
Qed.

Lemma l2_norm_unit_row : l2_norm [1; 0]%R = 1%R.
Proof.
  unfold l2_norm. simpl. replace (1 * 1 + (0 * 0 + 0))%R with 1%R by ring.
  apply sqrt_1.
Qed.

Lemma loss_scale_invariant_witness :
  forward example_model (scale_row 0 2 [[1; 0]]%R) [[1; 0]]%R [1%R] [[1; 0]]%R [[1; 0]]%R =
    forward example_model [[1; 0]]%R [[1; 0]]%R [1%R] [[1; 0]]%R [[1; 0]]%R /\
  forward example_model [[1; 0]]%R (scale_row 0 2 [[1; 0]]%R) [1%R] [[1; 0]]%R [[1; 0]]%R =
    forward example_model [[1; 0]]%R [[1; 0]]%R [1%R] [[1; 0]]%R [[1; 0]]%R /\
  forward example_model [[1; 0]]%R [[1; 0]]%R [1%R] (scale_row 0 2 [[1; 0]]%R) [[1; 0]]%R =
    forward example_model [[1; 0]]%R [[1; 0]]%R [1%R] [[1; 0]]%R [[1; 0]]%R /\
  forward example_model [[1; 0]]%R [[1; 0]]%R [1%R] [[1; 0]]%R (scale_row 0 2 [[1; 0]]%R) =
    forward example_model [[1; 0]]%R [[1; 0]]%R [1%R] [[1; 0]]%R [[1; 0]]%R.
Proof.
  assert (Hrow : forall v, [[1; 0]]%R !! 0%nat = Some v -> scalable 2 v).
  { intros v [= <-]. left. rewrite l2_norm_unit_row.
    pose proof normalize_eps_le_1. lra. }
  destruct (loss_scale_invariant example_model [[1; 0]]%R [[1; 0]]%R [1%R]
              [[1; 0]]%R [[1; 0]]%R 0 2 ltac:(lra)) as (H1 & H2 & H3 & H4).
  split; [exact (H1 Hrow)|]. split; [exact (H2 Hrow)|].
  split; [exact (H3 Hrow)|exact (H4 Hrow)].
Defined.

(** ** The sigmoid *)

Lemma sigmoid_bounds (x : R) : (0 < sigmoid x < 1)%R.
Proof.
  unfold sigmoid. pose proof (exp_pos (- x)) as He. split.
  - apply Rinv_0_lt_compat. lra.
  - rewrite <- Rinv_1. apply Rinv_lt_contravar; lra.
Qed.

Lemma sigmoid_increasing (x y : R) : (x < y)%R -> (sigmoid x < sigmoid y)%R.
Proof.
  intros H. unfold sigmoid.
  pose proof (exp_pos (- x)) as Hx. pose proof (exp_pos (- y)) as Hy.
  assert (exp (- y) < exp (- x))%R by (apply exp_increasing; lra).
  apply Rinv_lt_contravar; [nra|lra].
Qed.

Lemma sigmoid_monotone (x y : R) : (x <= y)%R -> (sigmoid x <= sigmoid y)%R.
Proof.
  intros [H| ->]; [left; now apply sigmoid_increasing|lra].
Qed.

Lemma l2_norm_singleton (x : R) : (0 <= x)%R -> l2_norm [x] = x.
Proof.
  intros Hx. unfold l2_norm. simpl. rewrite Rplus_0_r. now apply sqrt_square.
Qed.

Lemma probability_of_tiny_row :
  spec_probability [(normalize_eps / 2)%R] [1%R] = sigmoid (1 / 2).
Proof.
  pose proof normalize_eps_pos as He. pose proof normalize_eps_le_1 as H1.
  unfold spec_probability, normalize_row.
  rewrite !l2_norm_singleton by lra.
  rewrite Rmax_right by lra. rewrite Rmax_left by lra.
  unfold dot. simpl. f_equal. field. lra.
Qed.

Lemma probability_of_doubled_tiny_row :
  spec_probability [(2 * (normalize_eps / 2))%R] [1%R] = sigmoid 1.
Proof.
  pose proof normalize_eps_pos as He. pose proof normalize_eps_le_1 as H1.
  unfold spec_probability, normalize_row.
  rewrite !l2_norm_singleton by lra.
  rewrite Rmax_left by lra. rewrite Rmax_left by lra.
  unfold dot. simpl. f_equal. field. lra.
Qed.

(** C7 as the spec states it fails: a row of norm [eps / 2] is normalised to
    norm [1/2], the same row doubled to norm [1], and the loss changes. *)
Lemma loss_scale_counterexample :
  forward example_model (scale_row 0 2 [[(normalize_eps / 2)%R]]) [[1%R]] [1%R]
          [[1%R]] [[1%R]] <>
  forward example_model [[(normalize_eps / 2)%R]] [[1%R]] [1%R] [[1%R]] [[1%R]].
Proof.
  rewrite !forward_unfolded by reflexivity.
  unfold scale_row.
  cbn [alter list_alter zip zip_with map fst snd torch_mean length sum_r fold_right
       fscale fadd option_map].
  rewrite probability_of_tiny_row, probability_of_doubled_tiny_row.
  intros [= H].
  apply Rplus_eq_reg_r in H.
  unfold spec_example_loss in H.
  assert (Hln : ln (sigmoid 1) = ln (sigmoid (1 / 2))).
  { simpl in H. lra. }
  apply ln_inv in Hln; try apply sigmoid_bounds.
  pose proof (sigmoid_increasing (1 / 2) 1). lra.
Qed.

(** ** Sign and finiteness of the loss *)

Lemma normalized_sum_sq (v : list R) :
  (sum_r (map (fun x => x * x) (normalize_row v)) <= 1)%R.
Proof.
  unfold normalize_row.
  set (m := Rmax (l2_norm v) normalize_eps).
  assert (Hm : (0 < m)%R).
  { pose proof normalize_eps_pos. pose proof (Rmax_r (l2_norm v) normalize_eps).
    unfold m. lra. }
  assert (Hv : (sum_r (map (fun x => x * x) v) <= m * m)%R).
  { pose proof (Rmax_l (l2_norm v) normalize_eps) as Hl. fold m in Hl.
    pose proof (l2_norm_nonneg v) as H0.
    rewrite <- (sqrt_sqrt _ (sum_sq_nonneg v)). fold (l2_norm v). nra. }
  rewrite (map_ext (fun x => x / m)%R (Rmult (/ m))) by (intros x; unfold Rdiv; ring).
  rewrite sum_sq_scale.
  pose proof (sum_sq_nonneg v) as HS.
  assert (Hi : (0 < / m)%R) by now apply Rinv_0_lt_compat.
  replace 1%R with (/ m * / m * (m * m))%R by (field; lra).
  apply Rmult_le_compat_l; [nra|assumption].
Qed.

Lemma dot_upper (u v : list R) :
  (2 * dot u v <= sum_r (map (fun x => x * x) u) + sum_r (map (fun x => x * x) v))%R.
Proof.
  unfold dot. revert v. induction u as [|x u IH]; intros v.
  - simpl. pose proof (sum_sq_nonneg v). lra.
  - destruct v as [|y v].
    + simpl. pose proof (sum_sq_nonneg u). nra.
    + specialize (IH v). cbn [zip_with map sum_r fold_right].
      fold (sum_r (zip_with Rmult u v)) (sum_r (map (fun x => x * x)%R u))
           (sum_r (map (fun x => x * x)%R v)).
      pose proof (Rle_0_sqr (x - y)) as Hsq. unfold Rsqr in Hsq. lra.
Qed.

Lemma dot_lower (u v : list R) :
  (- (sum_r (map (fun x => x * x) u) + sum_r (map (fun x => x * x) v)) <= 2 * dot u v)%R.
Proof.
  unfold dot. revert v. induction u as [|x u IH]; intros v.
  - simpl. pose proof (sum_sq_nonneg v). lra.
  - destruct v as [|y v].
    + simpl. pose proof (sum_sq_nonneg u). nra.
    + specialize (IH v). cbn [zip_with map sum_r fold_right].
      fold (sum_r (zip_with Rmult u v)) (sum_r (map (fun x => x * x)%R u))
           (sum_r (map (fun x => x * x)%R v)).
      pose proof (Rle_0_sqr (x + y)) as Hsq. unfold Rsqr in Hsq. lra.
Qed.

(** The score of a pair of normalised rows is a cosine: it lies in [-1, 1]. *)
Lemma score_bounds (u v : list R) :
  (-1 <= dot (normalize_row u) (normalize_row v) <= 1)%R.
Proof.
  pose proof (normalized_sum_sq u). pose proof (normalized_sum_sq v).
  pose proof (dot_upper (normalize_row u) (normalize_row v)).
  pose proof (dot_lower (normalize_row u) (normalize_row v)).
  lra.
Qed.

Lemma probability_margin (u v : list R) :
  (sigmoid (-1) <= spec_probability u v <= sigmoid 1)%R.
Proof.
  unfold spec_probability. pose proof (score_bounds u v) as [H1 H2].
  split; now apply sigmoid_monotone.
Qed.

Lemma probabilities_margin (a b : tensor2) :
  Forall (fun p => (sigmoid (-1) <= p <= sigmoid 1)%R /\ (0 < p < 1)%R) (probabilities a b).
Proof.
  unfold probabilities, rowwise_dot, normalize.
  revert b. induction a as [|u a IH]; intros b; [constructor|].
  destruct b as [|v b]; [constructor|].
  cbn [map zip_with]. constructor; [|apply IH].
  split; [apply (probability_margin u v)|apply sigmoid_bounds].
Qed.

Lemma example_loss_nonneg (t p : R) :
  (0 <= t <= 1)%R -> (0 < p < 1)%R -> (0 <= spec_example_loss t p)%R.
Proof.
  intros Ht Hp. unfold spec_example_loss.
  assert (ln p < 0)%R by (rewrite <- ln_1; apply ln_increasing; lra).
  assert (ln (1 - p) < 0)%R by (rewrite <- ln_1; apply ln_increasing; lra).
  nra.
Qed.

Lemma regularization_term_nonneg (p : R) : (0 < p < 1)%R -> (0 <= - ln p)%R.
Proof.
  intros Hp. assert (ln p < 0)%R by (rewrite <- ln_1; apply ln_increasing; lra). lra.
Qed.

Lemma sum_r_nonneg (xs : list R) : Forall (fun x => (0 <= x)%R) xs -> (0 <= sum_r xs)%R.
Proof. induction 1 as [|x xs Hx _ IH]; simpl; lra. Qed.

Lemma torch_mean_nonneg (xs : tensor1) :
  xs <> [] -> Forall (fun x => (0 <= x)%R) xs ->
  exists r, torch_mean xs = Some r /\ (0 <= r)%R.
Proof.
  intros Hne Hall. destruct xs as [|x xs]; [congruence|].
  eexists. split; [reflexivity|].
  pose proof (sum_r_nonneg _ Hall) as Hs.
  assert (0 < INR (length (x :: xs)))%R by (apply lt_0_INR; simpl; lia).
  apply Rmult_le_pos; [assumption|]. left. now apply Rinv_0_lt_compat.
Qed.

Lemma main_terms_nonneg (node_f feature_f : tensor2) (targets : tensor1) :
  Forall (fun t => (0 <= t <= 1)%R) targets ->
  Forall (fun x => (0 <= x)%R)
    (map (fun e => spec_example_loss (snd e) (spec_probability (fst (fst e)) (snd (fst e))))
         (zip (zip node_f feature_f) targets)).
Proof.
  intros Ht. revert node_f feature_f.
  induction Ht as [|t targets Ht _ IH]; intros node_f feature_f.
  - destruct (zip node_f feature_f); constructor.
  - destruct node_f as [|u node_f]; [constructor|].
    destruct feature_f as [|v feature_f]; [constructor|].
    cbn [zip zip_with map fst snd]. constructor; [|apply IH].
    apply example_loss_nonneg; [assumption|]. apply sigmoid_bounds.
Qed.

Lemma regularization_terms_nonneg (source_f original_f : tensor2) :
  Forall (fun x => (0 <= x)%R)
    (map (fun e => (- ln (spec_probability (fst e) (snd e)))%R) (zip source_f original_f)).
Proof.
  revert original_f. induction source_f as [|u source_f IH]; intros original_f;
    [constructor|].
  destruct original_f as [|v original_f]; [constructor|].
  cbn [zip zip_with map fst snd]. constructor; [|apply IH].
  apply regularization_term_nonneg, sigmoid_bounds.
Qed.

Lemma same_shape2_length (a b : tensor2) : same_shape2 a b = true -> length a = length b.
Proof.
  unfold same_shape2. intros H. apply bool_decide_eq_true in H.
  apply (f_equal length) in H. now rewrite !length_map in H.
Qed.

(** C8 (as the code has it): on a non-empty batch and a non-empty set of
    positive sources, with targets in [[0, 1]] and [lambda >= 0], the loss is
    a finite non-negative number.  The code applies no clamp: every
    probability whose logarithm is taken lies in [[sigmoid(-1), sigmoid(1)]],
    hence strictly between 0 and 1, because the scores are dot products of
    normalised rows. *)
Theorem loss_nonneg_finite (self : splitter) (node_f feature_f : tensor2)
    (targets : tensor1) (source_f original_f : tensor2) :
  same_shape2 node_f feature_f = true ->
  length targets = length node_f ->
  same_shape2 source_f original_f = true ->
  (0 < length node_f)%nat ->
  (0 < length source_f)%nat ->
  Forall (fun t => (0 <= t <= 1)%R) targets ->
  (0 <= lambd self)%R ->
  (exists r, forward self node_f feature_f targets source_f original_f = Ok (Some r) /\
             (0 <= r)%R) /\
  Forall (fun p => (sigmoid (-1) <= p <= sigmoid 1)%R /\ (0 < p < 1)%R)
         (probabilities node_f feature_f ++ probabilities source_f original_f).
Proof.
  intros Hs Ht Hr Hn Hm Htargets Hlam.
  split; [|apply Forall_app; split; apply probabilities_margin].
  rewrite forward_unfolded by assumption.
  apply same_shape2_length in Hs, Hr.
  assert (Hmain : map (fun e => spec_example_loss (snd e)
                            (spec_probability (fst (fst e)) (snd (fst e))))
                     (zip (zip node_f feature_f) targets) <> []).
  { destruct node_f as [|u node_f]; [simpl in Hn; lia|].
    destruct feature_f as [|v feature_f]; [discriminate|].
    destruct targets as [|t targets]; discriminate. }
  assert (Hreg : map (fun e => (- ln (spec_probability (fst e) (snd e)))%R)
                     (zip source_f original_f) <> []).
  { destruct source_f as [|u source_f]; [simpl in Hm; lia|].
    destruct original_f as [|v original_f]; discriminate. }
  destruct (torch_mean_nonneg _ Hmain (main_terms_nonneg node_f feature_f targets Htargets))
    as (a & -> & Ha).
  destruct (torch_mean_nonneg _ Hreg (regularization_terms_nonneg source_f original_f))
    as (b & -> & Hb).
  exists (a + lambd self * b)%R. split; [reflexivity|]. nra.
Qed.

Lemma loss_nonneg_finite_witness :
  (exists r, forward example_model [[3; 4]; [1; 0]]%R [[4; 3]; [0; 2]]%R [1; 0]%R
                     [[3; 4]]%R [[1; 0]]%R = Ok (Some r) /\ (0 <= r)%R) /\
  Forall (fun p => (sigmoid (-1) <= p <= sigmoid 1)%R /\ (0 < p < 1)%R)
         (probabilities [[3; 4]; [1; 0]]%R [[4; 3]; [0; 2]]%R ++
          probabilities [[3; 4]]%R [[1; 0]]%R).
Proof.
  apply (loss_nonneg_finite example_model [[3; 4]; [1; 0]]%R [[4; 3]; [0; 2]]%R
           [1; 0]%R [[3; 4]]%R [[1; 0]]%R).
  - reflexivity.
  - reflexivity.
  - reflexivity.
  - simpl. lia.
  - simpl. lia.
  - repeat constructor; lra.
  - simpl. lra.
Defined.

(** C8 as the spec states it fails: on an empty batch (a walk too short for
    any window) the means are taken over empty tensors and the loss is NaN. *)
Lemma loss_finite_counterexample :
  same_shape2 [] [] = true /\
  forward example_model [] [] [] [] [] = Ok NaN /\
  ~ exists r, forward example_model [] [] [] [] [] = Ok (Some r) /\ (0 <= r)%R.
Proof.
  split; [reflexivity|]. split; [reflexivity|].
  intros (r & H & _). discriminate H.
Qed.

(** * Further properties of the training engine *)

(** ** The batch builder, call by call *)

Lemma window_pairs_lengths (wl w : Z) (walk src ctx : list Z) :
  window_pairs wl w walk = Ok (src, ctx) ->
  Z.of_nat (length src) = pair_count wl w /\ length ctx = length src.
Proof.
  unfold window_pairs, gather. intros H.
  destruct (mapM (py_getitem walk) (right_source_indices wl w)) as [s1|e] eqn:H1;
    [|discriminate].
  destruct (mapM (py_getitem walk) (right_context_indices wl w)) as [c1|e] eqn:H2;
    [|discriminate].
  destruct (mapM (py_getitem walk) (left_source_indices wl w)) as [s2|e] eqn:H3;
    [|discriminate].
  destruct (mapM (py_getitem walk) (left_context_indices wl w)) as [c2|e] eqn:H4;
    [|discriminate].
  injection H as <- <-.
  apply mapM_result_length in H1, H2, H3, H4.
  pose proof (source_indices_length wl w) as HP.
  pose proof (context_indices_length wl w) as HC.
  rewrite !length_app in *. split; lia.
Qed.

Lemma window_pairs_error (wl w : Z) (walk : list Z) (e : exn) :
  window_pairs wl w walk = Raise e -> e = IndexError.
Proof.
  unfold window_pairs. intros H.
  destruct (gather walk (right_source_indices wl w)) as [s1|e1] eqn:H1;
    [|injection H as <-; exact (gather_error _ _ _ H1)].
  destruct (gather walk (right_context_indices wl w)) as [c1|e1] eqn:H2;
    [|injection H as <-; exact (gather_error _ _ _ H2)].
  destruct (gather walk (left_source_indices wl w)) as [s2|e1] eqn:H3;
    [|injection H as <-; exact (gather_error _ _ _ H3)].
  destruct (gather walk (left_context_indices wl w)) as [c2|e1] eqn:H4;
    [|injection H as <-; exact (gather_error _ _ _ H4)].
  discriminate.
Qed.

(** What a returning call of the builder has done. *)
Lemma create_batch_from_path_returned {rng : Type} (choice : sampler rng)
    (self self' : trainer) (g g' : rng) (walk : list Z) :
  create_batch_from_path choice self g walk = (self', g', Ok tt) ->
  exists src ctx ps negs,
    window_pairs (walk_length self) (window_size self) walk = Ok (src, ctx) /\
    mapM (persona_index self) src = Ok ps /\
    choice g (negative_samples_pool self)
      (negative_samples self * Z.of_nat (length src)) = (g', Ok negs) /\
    same_configuration self self' /\
    pure_sources self' = pure_sources self ++ src /\
    personas self' = personas self ++ ps /\
    sources self' = sources self ++ py_repeat src (negative_samples self + 1) /\
    contexts self' = contexts self ++ (ctx ++ negs) /\
    targets self' = targets self ++ target_block (length src) (negative_samples self).
Proof.
  unfold create_batch_from_path.
  destruct (window_pairs (walk_length self) (window_size self) walk)
    as [[src ctx]|e] eqn:Hw; [|discriminate].
  change (mapM (persona_index (set_pure_sources self (pure_sources self ++ src))) src)
    with (mapM (persona_index self) src).
  destruct (mapM (persona_index self) src) as [ps|e] eqn:Hps; [|discriminate].
  cbn [negative_samples negative_samples_pool set_pure_sources set_personas
       set_sources set_contexts set_targets].
  destruct (choice g (negative_samples_pool self)
              (negative_samples self * Z.of_nat (length src))) as [g1 [negs|e]] eqn:Hc;
    [|discriminate].
  intros [= <- <-]. exists src, ctx, ps, negs.
  split; [reflexivity|]. split; [exact Hps|]. split; [exact Hc|].
  split; [repeat split|]. cbn.
  repeat split. unfold target_block. rewrite Nat2Z.id. do 3 f_equal.
  destruct (Z.le_gt_cases 0 (negative_samples self)) as [Hk|Hk].
  - rewrite Z2Nat.inj_mul, Nat2Z.id by lia. reflexivity.
  - rewrite (Z2Nat.nonpos (negative_samples self)) by lia.
    rewrite Z2Nat.nonpos by nia. reflexivity.
Qed.

(** The builder never changes the configuration, whether it returns or
    raises. *)
Lemma create_batch_from_path_configuration {rng : Type} (choice : sampler rng)
    (self : trainer) (g : rng) (walk : list Z) :
  same_configuration self (fst (fst (create_batch_from_path choice self g walk))).
Proof.
  unfold create_batch_from_path.
  destruct (window_pairs _ _ walk) as [[src ctx]|e]; [|repeat split].
  destruct (mapM _ src) as [ps|e]; [|repeat split].
  destruct (choice _ _ _) as [g1 [negs|e]]; repeat split.
Qed.

(** ** The mini-batch loop *)

Lemma create_batches_step {rng : Type} (choice : sampler rng) (self self' : trainer)
    (g g' : rng) (walk : list Z) (walks : list (list Z)) :
  create_batches choice self g (walk :: walks) = (self', g', Ok tt) ->
  exists self1 g1,
    create_batch_from_path choice self g walk = (self1, g1, Ok tt) /\
    create_batches choice self1 g1 walks = (self', g', Ok tt).
Proof.
  simpl. destruct (create_batch_from_path choice self g walk) as [[self1 g1] [[]|e]].
  - intros H. now exists self1, g1.
  - discriminate.
Qed.

Lemma same_configuration_trans (a b c : trainer) :
  same_configuration a b -> same_configuration b c -> same_configuration a c.
Proof.
  unfold same_configuration. intros H1 H2.
  destruct H1 as (?&?&?&?&?&?&?&?), H2 as (?&?&?&?&?&?&?&?).
  repeat split; congruence.
Qed.

Lemma same_configuration_refl (a : trainer) : same_configuration a a.
Proof. repeat split. Qed.

Lemma persona_index_configuration (a b : trainer) (s : Z) :
  same_configuration a b -> persona_index b s = persona_index a s.
Proof.
  intros (_&_&_&_&Hm&Hs&_). unfold persona_index. now rewrite Hm, Hs.
Qed.

Lemma create_batches_configuration {rng : Type} (choice : sampler rng)
    (self self' : trainer) (g g' : rng) (walks : list (list Z)) :
  create_batches choice self g walks = (self', g', Ok tt) ->
  same_configuration self self'.
Proof.
  revert self g. induction walks as [|walk walks IH]; intros self g H.
  - injection H as <- _. apply same_configuration_refl.
  - apply create_batches_step in H as (self1 & g1 & H1 & H2).
    apply create_batch_from_path_returned in H1
      as (src & ctx & ps & negs & _ & _ & _ & Hc & _).
    exact (same_configuration_trans _ _ _ Hc (IH _ _ H2)).
Qed.

Lemma aligned_step {rng : Type} (choice : sampler rng) (self self' : trainer)
    (g g' : rng) (walk : list Z) :
  (forall g0 pool n g1 xs, choice g0 pool n = (g1, Ok xs) -> length xs = Z.to_nat n) ->
  0 <= negative_samples self ->
  aligned self ->
  create_batch_from_path choice self g walk = (self', g', Ok tt) ->
  aligned self' /\
  length (pure_sources self') =
    (length (pure_sources self) +
     Z.to_nat (pair_count (walk_length self) (window_size self)))%nat.
Proof.
  intros Hchoice Hk (A1 & A2 & A3 & A4) H.
  apply create_batch_from_path_returned in H
    as (src & ctx & ps & negs & Hw & Hps & Hc & Hcfg & E1 & E2 & E3 & E4 & E5).
  destruct (window_pairs_lengths _ _ _ _ _ Hw) as [HP Hctx].
  apply mapM_result_length in Hps. apply Hchoice in Hc.
  destruct Hcfg as (_ & _ & Hneg & _).
  unfold aligned. rewrite <- Hneg, E1, E2, E3, E4, E5.
  unfold target_block.
  rewrite !length_app, py_repeat_length, !repeat_length, Hc, Hctx, Hps.
  rewrite <- HP, Nat2Z.id. repeat split; nia.
Qed.

Lemma np_random_choice_length (g0 : list nat) (pool : list Z) (n : Z)
    (g1 : list nat) (xs : list Z) :
  np_random_choice g0 pool n = (g1, Ok xs) -> length xs = Z.to_nat n.
Proof.
  unfold np_random_choice.
  destruct (n <? 0); [discriminate|].
  destruct (_ && _); [discriminate|].
  intros [= _ <-]. rewrite length_map, length_take, length_app, repeat_length. lia.
Qed.

(** X1: a mini-batch keeps the accumulators parallel.  When the loop over
    the walks of a mini-batch returns, started from parallel accumulators
    (empty ones in particular), there is one persona per positive source and
    [negative_samples + 1] sources, contexts and targets per positive source,
    and each walk has added the same number of positive pairs. *)
Theorem minibatch_keeps_accumulators_aligned {rng : Type} (choice : sampler rng)
    (self self' : trainer) (g g' : rng) (walks : list (list Z)) :
  (forall g0 pool n g1 xs, choice g0 pool n = (g1, Ok xs) -> length xs = Z.to_nat n) ->
  0 <= negative_samples self ->
  aligned self ->
  create_batches choice self g walks = (self', g', Ok tt) ->
  aligned self' /\
  length (pure_sources self') =
    (length (pure_sources self) +
     length walks * Z.to_nat (pair_count (walk_length self) (window_size self)))%nat.
Proof.
  intros Hchoice. revert self g.
  induction walks as [|walk walks IH]; intros self g Hk Ha H.
  - injection H as <- _. split; [exact Ha|]. simpl. lia.
  - apply create_batches_step in H as (self1 & g1 & H1 & H2).
    pose proof (create_batch_from_path_configuration choice self g walk) as Hcfg.
    rewrite H1 in Hcfg. simpl in Hcfg. destruct Hcfg as (Hwl & Hw & Hneg & _).
    destruct (aligned_step choice self self1 g g1 walk Hchoice Hk Ha H1) as [Ha1 Hl1].
    destruct (IH self1 g1 ltac:(lia) Ha1 H2) as [Ha' Hl'].
    split; [exact Ha'|]. rewrite Hl', Hl1, <- Hwl, <- Hw. simpl. lia.
Qed.

Lemma minibatch_keeps_accumulators_aligned_witness :
  aligned (fst (fst (create_batches np_random_choice example_trainer [5; 2; 7]%nat
                       [[1; 2; 3; 4]; [4; 3; 2; 1]]))) /\
  length (pure_sources
            (fst (fst (create_batches np_random_choice example_trainer [5; 2; 7]%nat
                         [[1; 2; 3; 4]; [4; 3; 2; 1]])))) =
    (length (pure_sources example_trainer) +
     length [[1; 2; 3; 4]; [4; 3; 2; 1]] *
     Z.to_nat (pair_count (walk_length example_trainer) (window_size example_trainer)))%nat.
Proof.
  apply (minibatch_keeps_accumulators_aligned np_random_choice example_trainer _
           [5; 2; 7]%nat [] [[1; 2; 3; 4]; [4; 3; 2; 1]]).
  - exact np_random_choice_length.
  - simpl. lia.
  - repeat split.
  - vm_compute. reflexivity.
Defined.

Lemma mapM_ext_result {A B : Type} (f h : A -> result B) (l : list A) :
  (forall x, f x = h x) -> mapM f l = mapM h l.
Proof.
  intros H. induction l as [|x l IH]; [reflexivity|].
  now rewrite !mapM_cons_result, H, IH.
Qed.

Lemma mapM_app_result {A B : Type} (f : A -> result B) (l1 l2 : list A)
    (ys1 ys2 : list B) :
  mapM f l1 = Ok ys1 -> mapM f l2 = Ok ys2 -> mapM f (l1 ++ l2) = Ok (ys1 ++ ys2).
Proof.
  revert ys1. induction l1 as [|x l1 IH]; intros ys1 H1 H2.
  - injection H1 as <-. exact H2.
  - rewrite mapM_cons_result in H1. simpl app. rewrite mapM_cons_result.
    destruct (f x) as [y|e]; [|discriminate].
    destruct (mapM f l1) as [ys|e]; [|discriminate].
    injection H1 as <-. now rewrite (IH ys eq_refl H2).
Qed.

(** X2: the personas of a mini-batch are the owners of its positive sources.
    When the loop returns, [personas] lists, position by position, the base
    index [str2idx[personality_map[s]]] of each entry [s] of [pure_sources],
    provided this held before the loop. *)
Theorem minibatch_personas_own_sources {rng : Type} (choice : sampler rng)
    (self self' : trainer) (g g' : rng) (walks : list (list Z)) :
  mapM (persona_index self) (pure_sources self) = Ok (personas self) ->
  create_batches choice self g walks = (self', g', Ok tt) ->
  mapM (persona_index self') (pure_sources self') = Ok (personas self').
Proof.
  revert self g. induction walks as [|walk walks IH]; intros self g Hinv H.
  - injection H as <- _. exact Hinv.
  - apply create_batches_step in H as (self1 & g1 & H1 & H2).
    apply (IH self1 g1); [|exact H2].
    apply create_batch_from_path_returned in H1
      as (src & ctx & ps & negs & _ & Hps & _ & Hcfg & E1 & E2 & _).
    rewrite E1, E2.
    rewrite (mapM_ext_result _ (persona_index self))
      by (intros s; now apply persona_index_configuration).
    now apply mapM_app_result.
Qed.

Lemma minibatch_personas_own_sources_witness :
  mapM (persona_index
          (fst (fst (create_batches np_random_choice example_trainer [5; 2; 7]%nat
                       [[1; 2; 3; 4]; [4; 3; 2; 1]]))))
       (pure_sources
          (fst (fst (create_batches np_random_choice example_trainer [5; 2; 7]%nat
                       [[1; 2; 3; 4]; [4; 3; 2; 1]])))) =
  Ok (personas
        (fst (fst (create_batches np_random_choice example_trainer [5; 2; 7]%nat
                     [[1; 2; 3; 4]; [4; 3; 2; 1]])))).
Proof.
  apply (minibatch_personas_own_sources np_random_choice example_trainer _
           [5; 2; 7]%nat [] [[1; 2; 3; 4]; [4; 3; 2; 1]]).
  - reflexivity.
  - vm_compute. reflexivity.
Defined.

Lemma concat_repeat_succ {A : Type} (b : list A) (n : nat) :
  concat (repeat b (S n)) = b ++ concat (repeat b n).
Proof. reflexivity. Qed.

(** X3: the targets of a mini-batch are one block per walk, each block being
    [P] ones followed by [negative_samples * P] zeros, [P] the number of
    positive pairs of a walk; the positives of the walks are therefore not
    contiguous in the mini-batch. *)
Theorem minibatch_targets {rng : Type} (choice : sampler rng)
    (self self' : trainer) (g g' : rng) (walks : list (list Z)) :
  create_batches choice self g walks = (self', g', Ok tt) ->
  targets self' =
  targets self ++
  concat (repeat (target_block
                    (Z.to_nat (pair_count (walk_length self) (window_size self)))
                    (negative_samples self))
                 (length walks)).
Proof.
  revert self g. induction walks as [|walk walks IH]; intros self g H.
  - injection H as <- _. simpl. now rewrite app_nil_r.
  - apply create_batches_step in H as (self1 & g1 & H1 & H2).
    rewrite (IH self1 g1 H2).
    apply create_batch_from_path_returned in H1
      as (src & ctx & ps & negs & Hw & _ & _ & Hcfg & _ & _ & _ & _ & E5).
    destruct (window_pairs_lengths _ _ _ _ _ Hw) as [HP _].
    destruct Hcfg as (Hwl & Hws & Hneg & _).
    rewrite E5, <- Hwl, <- Hws, <- Hneg, <- HP, Nat2Z.id.
    cbn [length]. rewrite concat_repeat_succ, <- !app_assoc. reflexivity.
Qed.

Lemma minibatch_targets_witness :
  targets (fst (fst (create_batches np_random_choice example_trainer [5; 2; 7]%nat
                       [[1; 2; 3; 4]; [4; 3; 2; 1]]))) =
  targets example_trainer ++
  concat (repeat (target_block
                    (Z.to_nat (pair_count (walk_length example_trainer)
                                          (window_size example_trainer)))
                    (negative_samples example_trainer))
                 (length [[1; 2; 3; 4]; [4; 3; 2; 1]])).
Proof.
  apply (minibatch_targets np_random_choice example_trainer _
           [5; 2; 7]%nat [] [[1; 2; 3; 4]; [4; 3; 2; 1]]).
  vm_compute. reflexivity.
Defined.

(** ** Exceptions of the batch builder *)

(** X4: a walk shorter than [walk_length] makes the builder raise IndexError
    (as soon as [1 <= window_size < walk_length]) before it has touched any
    accumulator or drawn any sample: the trainer and the generator are
    unchanged. *)
Theorem short_walk_leaves_trainer_unchanged {rng : Type} (choice : sampler rng)
    (self : trainer) (g : rng) (walk : list Z) :
  1 <= window_size self < walk_length self ->
  Z.of_nat (length walk) < walk_length self ->
  create_batch_from_path choice self g walk = (self, g, Raise IndexError).
Proof.
  intros Hw Hlen. unfold create_batch_from_path.
  now rewrite (short_walk_raises _ _ _ Hw Hlen).
Qed.

Lemma short_walk_leaves_trainer_unchanged_witness :
  create_batch_from_path np_random_choice example_trainer [5; 2; 7]%nat [1; 2; 3] =
  (example_trainer, [5; 2; 7]%nat, Raise IndexError).
Proof.
  apply (short_walk_leaves_trainer_unchanged np_random_choice example_trainer
           [5; 2; 7]%nat [1; 2; 3]).
  - simpl. lia.
  - simpl. lia.
Defined.

Lemma persona_index_error (self : trainer) (s : Z) (e : exn) :
  persona_index self s = Raise e -> e = KeyError.
Proof.
  unfold persona_index.
  assert (Hod : forall d : odict Z string,
            forall e', od_get d s = Raise e' -> e' = KeyError).
  { induction d as [|[a b] d IH]; simpl; intros e'; [congruence|].
    destruct (a =? s); [discriminate|apply IH]. }
  destruct (od_get (personality_map self) s) as [o|e'] eqn:Ho; simpl.
  - unfold gm_get. destruct (str2idx self !! o); congruence.
  - intros [= <-]. now apply Hod in Ho.
Qed.

(** X5: a source node without owner.  When the walk is long enough but one
    of its positive sources is missing from [personality_map] (or its owner
    from [str2idx]), the builder raises KeyError after it has extended
    [pure_sources] and before it extends anything else: accumulators that
    were parallel are left out of step, and no sample is drawn. *)
Theorem unmapped_source_raises_KeyError {rng : Type} (choice : sampler rng)
    (self : trainer) (g : rng) (walk src ctx : list Z) :
  window_pairs (walk_length self) (window_size self) walk = Ok (src, ctx) ->
  forallb (fun s => is_ok (persona_index self s)) src = false ->
  create_batch_from_path choice self g walk =
    (set_pure_sources self (pure_sources self ++ src), g, Raise KeyError) /\
  (aligned self ->
   ~ aligned (set_pure_sources self (pure_sources self ++ src))).
Proof.
  intros Hw Hbad.
  assert (Hex : exists s, In s src /\ exists e, persona_index self s = Raise e).
  { clear Hw. induction src as [|s src IH]; [discriminate|].
    simpl in Hbad. destruct (persona_index self s) as [i|e] eqn:Hs.
    - destruct (IH Hbad) as (s' & Hin & He). exists s'. split; [now right|exact He].
    - exists s. split; [now left|eauto]. }
  destruct Hex as (s & Hin & e & He).
  pose proof (persona_index_error _ _ _ He) as ->.
  split.
  - unfold create_batch_from_path. rewrite Hw.
    change (mapM (persona_index (set_pure_sources self (pure_sources self ++ src))) src)
      with (mapM (persona_index self) src).
    rewrite (mapM_result_raises (persona_index self) src s KeyError); auto.
    intros z _ e'. apply persona_index_error.
  - intros (A1 & _) (B1 & _). cbn in B1. rewrite length_app in B1.
    destruct src; [destruct Hin|]. simpl in B1. lia.
Qed.

Lemma unmapped_source_raises_KeyError_witness :
  create_batch_from_path np_random_choice empty_trainer [5; 2; 7]%nat [1; 2; 3; 4] =
    (set_pure_sources empty_trainer (pure_sources empty_trainer ++ [1; 2; 3; 2; 3; 4]),
     [5; 2; 7]%nat, Raise KeyError) /\
  (aligned empty_trainer ->
   ~ aligned (set_pure_sources empty_trainer
                (pure_sources empty_trainer ++ [1; 2; 3; 2; 3; 4]))).
Proof.
  apply (unmapped_source_raises_KeyError np_random_choice empty_trainer [5; 2; 7]%nat
           [1; 2; 3; 4] [1; 2; 3; 2; 3; 4] [2; 3; 4; 1; 2; 3]).
  - vm_compute. reflexivity.
  - vm_compute. reflexivity.
Defined.

(** ** The order of the positive pairs *)

Lemma py_range_lookup (lo hi : Z) (i : nat) :
  (i < Z.to_nat (hi - lo))%nat -> py_range lo hi !! i = Some (lo + Z.of_nat i).
Proof.
  intros H. unfold py_range.
  change (map (fun k => lo + Z.of_nat k) (seq 0 (Z.to_nat (hi - lo))))
    with ((fun k => lo + Z.of_nat k) <$> seq 0 (Z.to_nat (hi - lo))).
  rewrite list_lookup_fmap, lookup_seq_lt by assumption. reflexivity.
Qed.

Lemma comprehension2_lookup {A : Type} (is_ js : list Z) (f : Z -> Z -> A) (k : nat) :
  (k < length is_ * length js)%nat ->
  exists i j,
    is_ !! (k / length js)%nat = Some i /\
    js !! (k mod length js)%nat = Some j /\
    comprehension2 is_ js f !! k = Some (f i j).
Proof.
  unfold comprehension2. set (m := length js).
  revert k. induction is_ as [|a is_ IH]; intros k Hk; [simpl in Hk; lia|].
  assert (Hm : (0 < m)%nat) by (destruct m; simpl in Hk; lia).
  simpl flat_map. destruct (Nat.lt_ge_cases k m) as [Hlt|Hge].
  - rewrite Nat.div_small, Nat.mod_small by assumption.
    destruct (lookup_lt_is_Some_2 js k Hlt) as (j & Hj).
    exists a, j. split; [reflexivity|]. split; [exact Hj|].
    rewrite lookup_app_l by (now rewrite length_map).
    change (map (f a) js) with (f a <$> js). now rewrite list_lookup_fmap, Hj.
  - destruct (IH (k - m)%nat) as (i & j & Hi & Hj & Hf).
    { simpl in Hk. fold m in Hk. lia. }
    assert (Hr : ((k - m) mod m < m)%nat) by (apply Nat.mod_upper_bound; lia).
    assert (Hk' : k = (m * S ((k - m) / m) + (k - m) mod m)%nat).
    { pose proof (Nat.div_mod_eq (k - m) m). lia. }
    rewrite <- (Nat.div_unique k m _ _ Hr Hk').
    rewrite <- (Nat.mod_unique k m _ _ Hr Hk').
    exists i, j. split; [exact Hi|]. split; [exact Hj|].
    rewrite lookup_app_r by (rewrite length_map; fold m; lia).
    rewrite length_map. exact Hf.
Qed.

Lemma py_getitem_lookup {A : Type} (l : list A) (i : Z) (x : A) :
  0 <= i -> py_getitem l i = Ok x -> l !! Z.to_nat i = Some x.
Proof.
  intros Hi. unfold py_getitem.
  destruct (Z.ltb_spec i 0) as [?|_]; [lia|].
  destruct (_ && _); [|discriminate].
  destruct (l !! Z.to_nat i); congruence.
Qed.

Lemma gather_lookup (walk idx xs : list Z) (k : nat) (i : Z) :
  gather walk idx = Ok xs -> idx !! k = Some i -> 0 <= i ->
  xs !! k = walk !! Z.to_nat i /\ is_Some (xs !! k).
Proof.
  intros Hg Hk Hi.
  destruct (mapM_result_lookup _ _ _ Hg k i Hk) as (y & Hy & Hget).
  rewrite Hy, (py_getitem_lookup _ _ _ Hi Hget). eauto.
Qed.

Lemma window_pairs_blocks (wl w : Z) (walk src ctx : list Z) :
  window_pairs wl w walk = Ok (src, ctx) ->
  exists s1 c1 s2 c2,
    src = s1 ++ s2 /\ ctx = c1 ++ c2 /\
    gather walk (right_source_indices wl w) = Ok s1 /\
    gather walk (right_context_indices wl w) = Ok c1 /\
    gather walk (left_source_indices wl w) = Ok s2 /\
    gather walk (left_context_indices wl w) = Ok c2 /\
    length s1 = (Z.to_nat (wl - w) * Z.to_nat w)%nat /\
    length c1 = length s1.
Proof.
  unfold window_pairs. intros H.
  destruct (gather walk (right_source_indices wl w)) as [s1|e] eqn:H1; [|discriminate].
  destruct (gather walk (right_context_indices wl w)) as [c1|e] eqn:H2; [|discriminate].
  destruct (gather walk (left_source_indices wl w)) as [s2|e] eqn:H3; [|discriminate].
  destruct (gather walk (left_context_indices wl w)) as [c2|e] eqn:H4; [|discriminate].
  injection H as <- <-. exists s1, c1, s2, c2.
  repeat split; try reflexivity.
  - apply mapM_result_length in H1. rewrite H1.
    unfold right_source_indices.
    rewrite comprehension2_length, !py_range_length. f_equal; lia.
  - apply mapM_result_length in H1, H2. rewrite H1, H2.
    unfold right_source_indices, right_context_indices.
    now rewrite !comprehension2_length.
Qed.

(** X6: the positive pairs come in position-then-offset order.  With
    [0 < w < L] and [n = w (L - w)], pair [k < n] is
    [(walk[k / w], walk[k / w + k mod w + 1])] (the contexts to the right),
    and pair [n + k] is [(walk[w + k / w], walk[w + k / w - (k mod w + 1)])]
    (the contexts to the left): a source and its context are never further
    apart than the window. *)
Theorem positive_pairs_order (L w : Z) (walk src ctx : list Z) (k : nat) :
  0 < w < L ->
  window_pairs L w walk = Ok (src, ctx) ->
  (k < Z.to_nat (w * (L - w)))%nat ->
  let m := Z.to_nat w in
  let n := Z.to_nat (w * (L - w)) in
  is_Some (src !! k) /\ is_Some (src !! (n + k)%nat) /\
  src !! k = walk !! (k / m)%nat /\
  ctx !! k = walk !! (k / m + k mod m + 1)%nat /\
  src !! (n + k)%nat = walk !! (m + k / m)%nat /\
  ctx !! (n + k)%nat = walk !! (m + k / m - (k mod m + 1))%nat.
Proof.
  intros Hw Hpairs Hk m n.
  destruct (window_pairs_blocks _ _ _ _ _ Hpairs)
    as (s1 & c1 & s2 & c2 & -> & -> & G1 & G2 & G3 & G4 & Hl1 & Hl2).
  assert (Hn : n = length s1).
  { rewrite Hl1. unfold n. rewrite Z2Nat.inj_mul by lia. lia. }
  assert (Hm : length (py_range 1 (w + 1)) = m).
  { rewrite py_range_length. unfold m. f_equal. lia. }
  assert (Hm0 : (0 < m)%nat) by (unfold m; lia).
  assert (Hq : (k / m < Z.to_nat (L - w))%nat).
  { apply Nat.Div0.div_lt_upper_bound. unfold n in Hn. rewrite Hn, Hl1 in Hk.
    fold m in Hk. lia. }
  assert (Hr : (k mod m < m)%nat) by (apply Nat.mod_upper_bound; lia).
  assert (Hk1 : (k < length (py_range 0 (L - w)) * length (py_range 1 (w + 1)))%nat).
  { rewrite Hm, py_range_length, Z.sub_0_r. unfold n in Hn.
    rewrite Hn, Hl1 in Hk. fold m in Hk. exact Hk. }
  assert (Hk2 : (k < length (py_range w L) * length (py_range 1 (w + 1)))%nat).
  { rewrite Hm, py_range_length. unfold n in Hn.
    rewrite Hn, Hl1 in Hk. fold m in Hk. exact Hk. }
  (* the four index lists at position k *)
  destruct (comprehension2_lookup _ _ (fun i _ => i) k Hk1) as (i1 & j1 & Hi1 & Hj1 & R1).
  destruct (comprehension2_lookup _ _ (fun i j => i + j) k Hk1)
    as (i2 & j2 & Hi2 & Hj2 & R2).
  destruct (comprehension2_lookup _ _ (fun i _ => i) k Hk2) as (i3 & j3 & Hi3 & Hj3 & R3).
  destruct (comprehension2_lookup _ _ (fun i j => i - j) k Hk2)
    as (i4 & j4 & Hi4 & Hj4 & R4).
  rewrite Hm in *.
  rewrite py_range_lookup in Hi1, Hi2 by lia.
  rewrite py_range_lookup in Hi3, Hi4 by lia.
  rewrite py_range_lookup in Hj1, Hj2, Hj3, Hj4 by lia.
  injection Hi1 as <-. injection Hi2 as <-. injection Hi3 as <-. injection Hi4 as <-.
  injection Hj1 as <-. injection Hj2 as <-. injection Hj3 as <-. injection Hj4 as <-.
  fold (right_source_indices L w) in R1. fold (right_context_indices L w) in R2.
  fold (left_source_indices L w) in R3. fold (left_context_indices L w) in R4.
  destruct (gather_lookup _ _ _ _ _ G1 R1 ltac:(lia)) as [E1 S1].
  destruct (gather_lookup _ _ _ _ _ G2 R2 ltac:(lia)) as [E2 _].
  destruct (gather_lookup _ _ _ _ _ G3 R3 ltac:(lia)) as [E3 S3].
  destruct (gather_lookup _ _ _ _ _ G4 R4 ltac:(lia)) as [E4 _].
  assert (Hk1' : (k < length s1)%nat) by (rewrite <- Hn; exact Hk).
  rewrite Hn.
  rewrite (lookup_app_l s1 s2 k), (lookup_app_l c1 c2 k) by lia.
  rewrite (lookup_app_r s1 s2 (length s1 + k)) by lia.
  rewrite (lookup_app_r c1 c2 (length s1 + k)) by lia.
  replace (length s1 + k - length s1)%nat with k by lia.
  replace (length s1 + k - length c1)%nat with k by lia.
  split; [exact S1|]. split; [exact S3|].
  rewrite E1, E2, E3, E4.
  repeat split; f_equal; unfold m; lia.
Qed.

Lemma positive_pairs_order_witness :
  let m := Z.to_nat 2 in
  let n := Z.to_nat (2 * (5 - 2)) in
  is_Some ([1; 1; 2; 2; 3; 3; 3; 3; 4; 4; 5; 5] !! 3%nat) /\
  is_Some ([1; 1; 2; 2; 3; 3; 3; 3; 4; 4; 5; 5] !! (n + 3)%nat) /\
  [1; 1; 2; 2; 3; 3; 3; 3; 4; 4; 5; 5] !! 3%nat = [1; 2; 3; 4; 5] !! (3 / m)%nat /\
  [2; 3; 3; 4; 4; 5; 2; 1; 3; 2; 4; 3] !! 3%nat =
    [1; 2; 3; 4; 5] !! (3 / m + 3 mod m + 1)%nat /\
  [1; 1; 2; 2; 3; 3; 3; 3; 4; 4; 5; 5] !! (n + 3)%nat =
    [1; 2; 3; 4; 5] !! (m + 3 / m)%nat /\
  [2; 3; 3; 4; 4; 5; 2; 1; 3; 2; 4; 3] !! (n + 3)%nat =
    [1; 2; 3; 4; 5] !! (m + 3 / m - (3 mod m + 1))%nat.
Proof.
  apply (positive_pairs_order 5 2 [1; 2; 3; 4; 5]
           [1; 1; 2; 2; 3; 3; 3; 3; 4; 4; 5; 5] [2; 3; 3; 4; 4; 5; 2; 1; 3; 2; 4; 3] 3).
  - lia.
  - vm_compute. reflexivity.
  - vm_compute. lia.
Defined.

(** ** What the negative-sample pool holds *)

Lemma build_keys (value : Z -> Z) (ns : list Z) (acc : odict Z Z) (k : Z) :
  In k (map fst (dict_comprehension value ns acc)) <-> In k ns \/ In k (map fst acc).
Proof.
  unfold dict_comprehension. revert acc.
  induction ns as [|a ns IH]; intros acc; simpl; [tauto|].
  rewrite IH, od_set_keys. intuition congruence.
Qed.

Lemma pool_member_is_key (d : odict Z Z) (x : Z) :
  In x (flat_map (fun kv => map (fun _ => fst kv) (py_range 0 (snd kv))) d) ->
  In x (map fst d).
Proof.
  rewrite in_flat_map. intros ([k v] & Hkv & Hx).
  apply in_map_iff in Hx as (i & <- & _).
  apply in_map_iff. now exists (k, v).
Qed.

(** X7: the negative-sample pool holds the nodes of the persona graph and
    nothing else: a node can be drawn as a negative exactly when it is a
    node of the graph, whatever its degree; in particular the pool is empty
    only for a graph without nodes. *)
Theorem pool_members (self : trainer) (x : Z) :
  (In x (negative_samples_pool (create_negative_sample_pool self)) <->
   In x (nodes (persona_graph self))) /\
  (negative_samples_pool (create_negative_sample_pool self) = [] <->
   nodes (persona_graph self) = []).
Proof.
  split.
  - split.
    + intros H. unfold create_negative_sample_pool in H. cbn in H.
      apply pool_member_is_key, build_keys in H. simpl in H. tauto.
    + intros H. apply (count_occ_In Z.eq_dec).
      pose proof (pool_multiplicity_exact self x H) as Hc.
      pose proof (downsampled_degree_positive (degree (persona_graph self) x)). lia.
  - split; [apply pool_empty_only_for_empty_graph|apply empty_graph_empty_pool].
Qed.

Lemma od_set_fresh {V : Type} (d : odict Z V) (k : Z) (v : V) :
  ~ In k (map fst d) -> od_set d k v = d ++ [(k, v)].
Proof.
  induction d as [|[a b] d IH]; simpl; intros H; [reflexivity|].
  destruct (Z.eqb_spec a k) as [->|_]; [tauto|]. rewrite IH by tauto. reflexivity.
Qed.

Lemma build_distinct (value : Z -> Z) (ns : list Z) (acc : odict Z Z) :
  List.NoDup ns -> (forall n, In n ns -> ~ In n (map fst acc)) ->
  dict_comprehension value ns acc = acc ++ map (fun n => (n, value n)) ns.
Proof.
  unfold dict_comprehension. revert acc.
  induction ns as [|a ns IH]; intros acc Hnd Hfresh; simpl.
  - now rewrite app_nil_r.
  - apply List.NoDup_cons_iff in Hnd as [Ha Hnd].
    rewrite od_set_fresh by (apply Hfresh; now left).
    rewrite IH; [now rewrite <- app_assoc|assumption|].
    intros n Hn. rewrite map_app, in_app_iff. simpl.
    intros [H|[<-|[]]]; [|contradiction].
    apply (Hfresh n); [now right|assumption].
Qed.

(** X8: for a graph whose node list has no repetition (as a networkx graph
    has), [downsampled_degrees] lists the nodes in graph order with their
    weights, the pool is the nodes in graph order, each repeated as many
    times as its weight, and the size of the pool is the sum of the
    weights. *)
Theorem pool_layout (self : trainer) :
  List.NoDup (nodes (persona_graph self)) ->
  let g := persona_graph self in
  let weight := fun n => downsampled_degree (degree g n) in
  let self' := create_negative_sample_pool self in
  downsampled_degrees self' = map (fun n => (n, weight n)) (nodes g) /\
  negative_samples_pool self' =
    flat_map (fun n => repeat n (Z.to_nat (weight n))) (nodes g) /\
  length (negative_samples_pool self') =
    list_sum (map (fun n => Z.to_nat (weight n)) (nodes g)).
Proof.
  intros Hnd g weight self'.
  assert (Hdd : downsampled_degrees self' = map (fun n => (n, weight n)) (nodes g)).
  { unfold self', create_negative_sample_pool. cbn.
    rewrite build_distinct; [reflexivity|assumption|]. intros n _ []. }
  assert (Hpool : negative_samples_pool self' =
                  flat_map (fun n => repeat n (Z.to_nat (weight n))) (nodes g)).
  { unfold self', create_negative_sample_pool in *. cbn in *. unfold od_items.
    rewrite Hdd. clear. induction (nodes g) as [|n ns IH]; [reflexivity|].
    simpl. rewrite IH. f_equal.
    unfold py_range. rewrite Z.sub_0_r.
    induction (Z.to_nat (weight n)) as [|c IHc]; [reflexivity|].
    rewrite seq_S, map_app, map_app, IHc. simpl.
    clear. induction c as [|c IHc]; [reflexivity|]. simpl. now rewrite <- IHc. }
  split; [exact Hdd|]. split; [exact Hpool|].
  rewrite Hpool. clear. induction (nodes g) as [|n ns IH]; [reflexivity|].
  simpl. now rewrite length_app, repeat_length, IH.
Qed.

Lemma pool_layout_witness :
  let g := persona_graph example_trainer in
  let weight := fun n => downsampled_degree (degree g n) in
  let self' := create_negative_sample_pool example_trainer in
  downsampled_degrees self' = map (fun n => (n, weight n)) (nodes g) /\
  negative_samples_pool self' =
    flat_map (fun n => repeat n (Z.to_nat (weight n))) (nodes g) /\
  length (negative_samples_pool self') =
    list_sum (map (fun n => Z.to_nat (weight n)) (nodes g)).
Proof.
  apply (pool_layout example_trainer).
  simpl. repeat (constructor; [simpl; lia|]). constructor.
Defined.

Lemma floor_pow075_le (d : Z) : 0 <= d -> floor_pow075 d <= d.
Proof.
  intros Hd. destruct (floor_pow075_spec d Hd) as (Hk0 & Hlo & _).
  set (k := floor_pow075 d) in *.
  destruct (Z.le_gt_cases k d) as [?|Hgt]; [assumption|exfalso].
  assert (H1 : d ^ 3 < k ^ 3) by (apply Z.pow_lt_mono_l; lia).
  assert (H2 : k ^ 3 <= k ^ 4) by (apply Z.pow_le_mono_r; lia).
  lia.
Qed.

Lemma floor_pow075_lt (d : Z) : 2 <= d -> floor_pow075 d < d.
Proof.
  intros Hd. destruct (floor_pow075_spec d ltac:(lia)) as (Hk0 & Hlo & _).
  set (k := floor_pow075 d) in *.
  destruct (Z.lt_ge_cases k d) as [?|Hge]; [assumption|exfalso].
  assert (H1 : d ^ 4 <= k ^ 4) by (apply Z.pow_le_mono_l; lia).
  assert (H2 : 0 < d ^ 3) by (apply Z.pow_pos_nonneg; lia).
  replace (d ^ 4) with (d * d ^ 3) in H1 by ring. nia.
Qed.

(** X9: the weight of a node in the pool is sub-linear in its degree: a node
    of the graph occurs at least once (also with degree 0), at most
    [degree + 1] times, and at most [degree] times once its degree is 2 or
    more. *)
Theorem pool_weight_bounds (self : trainer) (n : Z) :
  In n (nodes (persona_graph self)) ->
  let c := count_occ Z.eq_dec (negative_samples_pool (create_negative_sample_pool self)) n in
  let d := degree (persona_graph self) n in
  (1 <= c <= d + 1)%nat /\ ((2 <= d)%nat -> (c <= d)%nat).
Proof.
  intros Hn c d. pose proof (pool_multiplicity_exact self n Hn) as Hc.
  fold c d in Hc. unfold downsampled_degree in Hc.
  pose proof (floor_pow075_spec (Z.of_nat d) (Nat2Z.is_nonneg d)) as (Hk0 & _).
  pose proof (floor_pow075_le (Z.of_nat d) (Nat2Z.is_nonneg d)).
  split; [lia|]. intros Hd.
  pose proof (floor_pow075_lt (Z.of_nat d) ltac:(lia)). lia.
Qed.

Lemma pool_weight_bounds_witness :
  let c := count_occ Z.eq_dec
             (negative_samples_pool (create_negative_sample_pool example_trainer)) 2 in
  let d := degree (persona_graph example_trainer) 2 in
  (1 <= c <= d + 1)%nat /\ ((2 <= d)%nat -> (c <= d)%nat).
Proof.
  apply (pool_weight_bounds example_trainer 2). simpl. tauto.
Defined.

(** ** The tables after initialisation *)

Lemma base_row_length (base_vectors : list (list R)) (str2idx : gmap string Z)
    (item : Z * string) (row : list R) (D : nat) :
  Forall (fun r => length r = D) base_vectors ->
  base_row base_vectors str2idx item = Ok row -> length row = D.
Proof.
  intros Hall. unfold base_row.
  destruct (gm_get str2idx (snd item)) as [idx|e]; [|discriminate]. simpl.
  unfold py_getitem. destruct (_ && _); [|discriminate].
  destruct (base_vectors !! _) as [r|] eqn:Hr; [|discriminate].
  intros [= <-]. rewrite Forall_forall in Hall. apply Hall.
  eapply list_elem_of_lookup_2. exact Hr.
Qed.

Lemma mapM_result_Forall {A B : Type} (f : A -> result B) (P : B -> Prop)
    (l : list A) (ys : list B) :
  (forall x y, f x = Ok y -> P y) -> mapM f l = Ok ys -> Forall P ys.
Proof.
  intros HP. revert ys. induction l as [|x l IH]; intros ys H.
  - injection H as <-. constructor.
  - rewrite mapM_cons_result in H.
    destruct (f x) as [y|e] eqn:Hy; [|discriminate].
    destruct (mapM f l) as [ys'|e]; [|discriminate].
    injection H as <-. constructor; [now apply (HP x)|now apply IH].
Qed.

Section Table_shapes.

Variable embedding_init : Z -> Z -> tensor2.
Variable float32 : R -> R.

(** X10: the tables take their shape from the data, not from the
    constructor arguments.  After [setup_model] the persona table has one
    row per item of the persona map and the base table one row per base
    vector, whatever node counts and dimension were given to the model; and
    when the base vectors all have dimension [D], so has every row of both
    tables. *)
Theorem setup_model_table_shapes (dims : Z) (lam : R) (base_count persona_count : Z)
    (base_vectors : list (list R)) (mapping : odict Z string)
    (str2idx : gmap string Z) (model : splitter) (D : nat) :
  setup_model embedding_init float32 dims lam base_count persona_count
    base_vectors mapping str2idx = Ok model ->
  length (table (node_embedding model)) = length mapping /\
  length (table (base_node_embedding model)) = length base_vectors /\
  (Forall (fun r => length r = D) base_vectors ->
   Forall (fun r => length r = D) (table (node_embedding model)) /\
   Forall (fun r => length r = D) (table (base_node_embedding model))).
Proof.
  unfold setup_model. intros H.
  destruct (initialize_weights_tables float32 _ _ _ _ _ H) as (pe & Hpe & -> & ->).
  unfold torch_Tensor. rewrite !length_map.
  split; [now apply mapM_result_length in Hpe|]. split; [reflexivity|].
  intros HD. split.
  - apply Forall_map.
    apply (mapM_result_Forall _ (fun r => length (map float32 r) = D) _ _) in Hpe;
      [exact Hpe|].
    intros item row Hrow. rewrite length_map.
    exact (base_row_length _ _ _ _ _ HD Hrow).
  - apply Forall_map. eapply Forall_impl; [exact HD|].
    intros r Hr. simpl. now rewrite length_map.
Qed.

(** X11: [initialize_weights] raises the exception of the first item of the
    persona map whose base vector cannot be read, whether or not the weights
    exist: KeyError when the owner has no entry in [str2idx], IndexError
    when its index is not a row of the base vectors. *)
Theorem initialize_weights_lookup_error (self : splitter) (base_vectors : list (list R))
    (before after : odict Z string) (item : Z * string) (rows : list (list R))
    (str2idx : gmap string Z) (e : exn) :
  mapM (base_row base_vectors str2idx) before = Ok rows ->
  base_row base_vectors str2idx item = Raise e ->
  initialize_weights float32 self base_vectors (before ++ item :: after) str2idx = Raise e /\
  (str2idx !! snd item = None -> e = KeyError) /\
  (is_Some (str2idx !! snd item) -> e = IndexError).
Proof.
  intros Hbefore Hitem. split; [|split].
  - unfold initialize_weights, od_items.
    assert (Hm : mapM (base_row base_vectors str2idx) (before ++ item :: after) = Raise e).
    { clear -Hbefore Hitem. revert rows Hbefore.
      induction before as [|x before IH]; intros rows Hbefore.
      - simpl app. now rewrite mapM_cons_result, Hitem.
      - simpl app. rewrite mapM_cons_result in *.
        destruct (base_row base_vectors str2idx x) as [y|e']; [|discriminate].
        destruct (mapM (base_row base_vectors str2idx) before) as [ys|e'] eqn:Hys;
          [|discriminate].
        now rewrite (IH ys eq_refl). }
    now rewrite Hm.
  - intros Hnone. unfold base_row, gm_get in Hitem. rewrite Hnone in Hitem.
    simpl in Hitem. congruence.
  - intros [idx Hidx]. unfold base_row, gm_get in Hitem. rewrite Hidx in Hitem.
    simpl in Hitem. now apply py_getitem_error in Hitem.
Qed.

(** X12: the personas of one node start from the same vector: two items of
    the persona map with the same owner get equal rows of the persona
    table. *)
Theorem personas_of_one_node_start_equal (self self' : splitter)
    (base_vectors : list (list R)) (mapping : odict Z string)
    (str2idx : gmap string Z) (j1 j2 : nat) (p1 p2 : Z) (o : string) :
  initialize_weights float32 self base_vectors mapping str2idx = Ok self' ->
  od_items mapping !! j1 = Some (p1, o) ->
  od_items mapping !! j2 = Some (p2, o) ->
  is_Some (table (node_embedding self') !! j1) /\
  table (node_embedding self') !! j1 = table (node_embedding self') !! j2.
Proof.
  intros Hinit H1 H2.
  destruct (persona_rows_by_position float32 _ _ _ _ _ _ _ _ Hinit H1)
    as (idx1 & row1 & Hi1 & Hr1 & Hb1).
  destruct (persona_rows_by_position float32 _ _ _ _ _ _ _ _ Hinit H2)
    as (idx2 & row2 & Hi2 & Hr2 & Hb2).
  assert (idx2 = idx1) as -> by congruence.
  assert (row2 = row1) as -> by congruence.
  apply py_getitem_lookup in Hr1, Hr2; try lia.
  rewrite Nat2Z.id in Hr1, Hr2.
  split; [exists row1; exact Hr1|exact (eq_trans Hr1 (eq_sym Hr2))].
Qed.

End Table_shapes.

Lemma setup_model_table_shapes_witness :
  length (table (node_embedding
                   {| dimensions := 7; lambd := (1 / 10)%R;
                      base_node_count := 50; node_count := 60;
                      base_node_embedding :=
                        Some {| weight := {| data := example_base_vectors;
                                             requires_grad := true |};
                                padding_idx := Some 0 |};
                      node_embedding :=
                        Some {| weight := {| data := [[1; 0]; [0; 1]; [0; 1]]%R;
                                             requires_grad := true |};
                                padding_idx := Some 0 |} |}))
    = length example_mapping /\
  length (table (base_node_embedding
                   {| dimensions := 7; lambd := (1 / 10)%R;
                      base_node_count := 50; node_count := 60;
                      base_node_embedding :=
                        Some {| weight := {| data := example_base_vectors;
                                             requires_grad := true |};
                                padding_idx := Some 0 |};
                      node_embedding :=
                        Some {| weight := {| data := [[1; 0]; [0; 1]; [0; 1]]%R;
                                             requires_grad := true |};
                                padding_idx := Some 0 |} |}))
    = length example_base_vectors /\
  (Forall (fun r => length r = 2%nat) example_base_vectors ->
   Forall (fun r => length r = 2%nat)
     (table (node_embedding
               {| dimensions := 7; lambd := (1 / 10)%R;
                  base_node_count := 50; node_count := 60;
                  base_node_embedding :=
                    Some {| weight := {| data := example_base_vectors;
                                         requires_grad := true |};
                            padding_idx := Some 0 |};
                  node_embedding :=
                    Some {| weight := {| data := [[1; 0]; [0; 1]; [0; 1]]%R;
                                         requires_grad := true |};
                            padding_idx := Some 0 |} |})) /\
   Forall (fun r => length r = 2%nat)
     (table (base_node_embedding
               {| dimensions := 7; lambd := (1 / 10)%R;
                  base_node_count := 50; node_count := 60;
                  base_node_embedding :=
                    Some {| weight := {| data := example_base_vectors;
                                         requires_grad := true |};
                            padding_idx := Some 0 |};
                  node_embedding :=
                    Some {| weight := {| data := [[1; 0]; [0; 1]; [0; 1]]%R;
                                         requires_grad := true |};
                            padding_idx := Some 0 |} |}))).
Proof.
  apply (setup_model_table_shapes (fun _ _ => []) (fun x => x) 7 (1 / 10)%R 50 60
           example_base_vectors example_mapping example_str2idx _ 2).
  vm_compute. reflexivity.
Defined.

Lemma initialize_weights_lookup_error_witness :
  initialize_weights (fun x => x) example_model example_base_vectors
    ([(0, "a"%string)] ++ (1, "z"%string) :: [(2, "b"%string)]) example_str2idx
    = Raise KeyError /\
  (example_str2idx !! snd (1, "z"%string) = None -> KeyError = KeyError) /\
  (is_Some (example_str2idx !! snd (1, "z"%string)) -> KeyError = IndexError).
Proof.
  apply (initialize_weights_lookup_error (fun x => x) example_model example_base_vectors
           [(0, "a")]%string [(2, "b")]%string (1, "z")%string [[1; 0]]%R
           example_str2idx KeyError).
  - vm_compute. reflexivity.
  - vm_compute. reflexivity.
Defined.

Lemma personas_of_one_node_start_equal_witness :
  is_Some (table (node_embedding
                    {| dimensions := 2; lambd := (1 / 10)%R;
                       base_node_count := 2; node_count := 3;
                       base_node_embedding :=
                         Some {| weight := {| data := example_base_vectors;
                                              requires_grad := true |};
                                 padding_idx := Some 0 |};
                       node_embedding :=
                         Some {| weight := {| data := [[1; 0]; [0; 1]; [0; 1]]%R;
                                              requires_grad := true |};
                                 padding_idx := Some 0 |} |}) !! 1%nat) /\
  table (node_embedding
           {| dimensions := 2; lambd := (1 / 10)%R;
              base_node_count := 2; node_count := 3;
              base_node_embedding :=
                Some {| weight := {| data := example_base_vectors;
                                     requires_grad := true |};
                        padding_idx := Some 0 |};
              node_embedding :=
                Some {| weight := {| data := [[1; 0]; [0; 1]; [0; 1]]%R;
                                     requires_grad := true |};
                        padding_idx := Some 0 |} |}) !! 1%nat =
  table (node_embedding
           {| dimensions := 2; lambd := (1 / 10)%R;
              base_node_count := 2; node_count := 3;
              base_node_embedding :=
                Some {| weight := {| data := example_base_vectors;
                                     requires_grad := true |};
                        padding_idx := Some 0 |};
              node_embedding :=
                Some {| weight := {| data := [[1; 0]; [0; 1]; [0; 1]]%R;
                                     requires_grad := true |};
                        padding_idx := Some 0 |} |}) !! 2%nat.
Proof.
  apply (personas_of_one_node_start_equal (fun x => x) example_model _
           example_base_vectors example_mapping example_str2idx 1 2 1 2 "b"%string).
  - vm_compute. reflexivity.
  - reflexivity.
  - reflexivity.
Defined.

(** ** The range of the loss *)

Lemma ln_monotone (x y : R) : (0 < x)%R -> (x <= y)%R -> (ln x <= ln y)%R.
Proof.
  intros Hx [Hlt| ->]; [left; now apply ln_increasing|lra].
Qed.

Lemma sigmoid_complement (x : R) : (1 - sigmoid x = sigmoid (- x))%R.
Proof.
  unfold sigmoid. rewrite Ropp_involutive, exp_Ropp.
  pose proof (exp_pos x). field. split; lra.
Qed.

Lemma torch_mean_bounds (xs : tensor1) (lo hi : R) :
  xs <> [] -> Forall (fun x => (lo <= x <= hi)%R) xs ->
  exists r, torch_mean xs = Some r /\ (lo <= r <= hi)%R.
Proof.
  intros Hne Hall. destruct xs as [|x xs]; [congruence|].
  eexists. split; [reflexivity|].
  assert (Hs : (lo * INR (length (x :: xs)) <= sum_r (x :: xs)
                <= hi * INR (length (x :: xs)))%R).
  { clear Hne. induction Hall as [|y ys Hy _ IH].
    - simpl. lra.
    - change (length (y :: ys)) with (S (length ys)). rewrite S_INR.
      change (sum_r (y :: ys)) with (y + sum_r ys)%R. lra. }
  assert (Hn : (0 < INR (length (x :: xs)))%R) by (apply lt_0_INR; simpl; lia).
  set (n := INR (length (x :: xs))) in *. set (s := sum_r (x :: xs)) in *.
  assert (Hi : (0 < / n)%R) by now apply Rinv_0_lt_compat.
  unfold Rdiv. split.
  - replace lo with (lo * n * / n)%R by (field; lra).
    apply Rmult_le_compat_r; lra.
  - replace hi with (hi * n * / n)%R by (field; lra).
    apply Rmult_le_compat_r; lra.
Qed.

Lemma example_loss_range (t p : R) :
  (0 <= t <= 1)%R -> (sigmoid (-1) <= p <= sigmoid 1)%R ->
  (- ln (sigmoid 1) <= spec_example_loss t p <= - ln (sigmoid (-1)))%R.
Proof.
  intros Ht [Hlo Hhi]. unfold spec_example_loss.
  pose proof (sigmoid_bounds (-1)) as [H0 _].
  pose proof (sigmoid_complement 1) as Hc1.
  pose proof (sigmoid_complement (-1)) as Hc2.
  replace (- -1)%R with 1%R in Hc2 by ring.
  assert (L1 : (ln (sigmoid (-1)) <= ln p)%R) by (apply ln_monotone; lra).
  assert (L2 : (ln p <= ln (sigmoid 1))%R) by (apply ln_monotone; lra).
  assert (L3 : (ln (sigmoid (-1)) <= ln (1 - p))%R) by (apply ln_monotone; lra).
  assert (L4 : (ln (1 - p) <= ln (sigmoid 1))%R) by (apply ln_monotone; lra).
  split; nra.
Qed.

Lemma main_terms_range (node_f feature_f : tensor2) (targets : tensor1) :
  Forall (fun t => (0 <= t <= 1)%R) targets ->
  Forall (fun x => (- ln (sigmoid 1) <= x <= - ln (sigmoid (-1)))%R)
    (map (fun e => spec_example_loss (snd e) (spec_probability (fst (fst e)) (snd (fst e))))
         (zip (zip node_f feature_f) targets)).
Proof.
  intros Ht. revert node_f feature_f.
  induction Ht as [|t targets Ht _ IH]; intros node_f feature_f.
  - destruct (zip node_f feature_f); constructor.
  - destruct node_f as [|u node_f]; [constructor|].
    destruct feature_f as [|v feature_f]; [constructor|].
    cbn [zip zip_with map fst snd]. constructor; [|apply IH].
    apply example_loss_range; [assumption|apply probability_margin].
Qed.

Lemma regularization_terms_range (source_f original_f : tensor2) :
  Forall (fun x => (- ln (sigmoid 1) <= x <= - ln (sigmoid (-1)))%R)
    (map (fun e => (- ln (spec_probability (fst e) (snd e)))%R) (zip source_f original_f)).
Proof.
  revert original_f. induction source_f as [|u source_f IH]; intros original_f;
    [constructor|].
  destruct original_f as [|v original_f]; [constructor|].
  cbn [zip zip_with map fst snd]. constructor; [|apply IH].
  pose proof (probability_margin u v) as [Hlo Hhi].
  pose proof (sigmoid_bounds (-1)) as [H0 _].
  assert (ln (sigmoid (-1)) <= ln (spec_probability u v))%R by (apply ln_monotone; lra).
  assert (ln (spec_probability u v) <= ln (sigmoid 1))%R by (apply ln_monotone; lra).
  lra.
Qed.

(** X13: the loss is bounded on both sides, and bounded away from zero.  On
    a non-empty batch with targets in [[0, 1]] and [lambda >= 0], the loss
    lies between [(1 + lambda) * c1] and [(1 + lambda) * c2] with
    [c1 = - log(sigmoid(1)) > 0] and [c2 = - log(sigmoid(-1))]: since the
    scores are cosines, no embedding can bring the loss to zero. *)
Theorem loss_range (self : splitter) (node_f feature_f : tensor2)
    (targets : tensor1) (source_f original_f : tensor2) :
  same_shape2 node_f feature_f = true ->
  length targets = length node_f ->
  same_shape2 source_f original_f = true ->
  (0 < length node_f)%nat ->
  (0 < length source_f)%nat ->
  Forall (fun t => (0 <= t <= 1)%R) targets ->
  (0 <= lambd self)%R ->
  (0 < - ln (sigmoid 1))%R /\
  exists r, forward self node_f feature_f targets source_f original_f = Ok (Some r) /\
    ((1 + lambd self) * - ln (sigmoid 1) <= r <= (1 + lambd self) * - ln (sigmoid (-1)))%R.
Proof.
  intros Hs Ht Hr Hn Hm Htargets Hlam.
  split.
  { pose proof (sigmoid_bounds 1) as [H0 H1].
    assert (ln (sigmoid 1) < 0)%R by (rewrite <- ln_1; now apply ln_increasing). lra. }
  rewrite forward_unfolded by assumption.
  apply same_shape2_length in Hs, Hr.
  assert (Hmain : map (fun e => spec_example_loss (snd e)
                            (spec_probability (fst (fst e)) (snd (fst e))))
                     (zip (zip node_f feature_f) targets) <> []).
  { destruct node_f as [|u node_f]; [simpl in Hn; lia|].
    destruct feature_f as [|v feature_f]; [discriminate|].
    destruct targets as [|t targets]; discriminate. }
  assert (Hreg : map (fun e => (- ln (spec_probability (fst e) (snd e)))%R)
                     (zip source_f original_f) <> []).
  { destruct source_f as [|u source_f]; [simpl in Hm; lia|].
    destruct original_f as [|v original_f]; discriminate. }
  destruct (torch_mean_bounds _ _ _ Hmain (main_terms_range node_f feature_f targets Htargets))
    as (a & -> & Ha).
  destruct (torch_mean_bounds _ _ _ Hreg (regularization_terms_range source_f original_f))
    as (b & -> & Hb).
  exists (a + lambd self * b)%R. split; [reflexivity|]. nra.
Qed.

Lemma loss_range_witness :
  (0 < - ln (sigmoid 1))%R /\
  exists r, forward example_model [[3; 4]; [1; 0]]%R [[4; 3]; [0; 2]]%R [1; 0]%R
                    [[3; 4]]%R [[1; 0]]%R = Ok (Some r) /\
    ((1 + lambd example_model) * - ln (sigmoid 1) <= r
     <= (1 + lambd example_model) * - ln (sigmoid (-1)))%R.
Proof.
  apply (loss_range example_model [[3; 4]; [1; 0]]%R [[4; 3]; [0; 2]]%R
           [1; 0]%R [[3; 4]]%R [[1; 0]]%R).
  - reflexivity.
  - reflexivity.
  - reflexivity.
  - simpl. lia.
  - simpl. lia.
  - repeat constructor; lra.
  - simpl. lra.
Defined.

(** ** Particular inputs of the loss *)

Lemma torch_mean_constant (xs : tensor1) (c : R) :
  xs <> [] -> Forall (fun x => x = c) xs -> torch_mean xs = Some c.
Proof.
  intros Hne Hall.
  destruct (torch_mean_bounds xs c c Hne) as (r & -> & Hr).
  - eapply Forall_impl; [exact Hall|]. intros x ->. simpl. lra.
  - f_equal. lra.
Qed.





Lemma dot_comm (u v : list R) : dot u v = dot v u.
Proof.
  unfold dot, sum_r. revert v. induction u as [|x u IH]; intros v.
  - destruct v; reflexivity.
  - destruct v as [|y v]; [reflexivity|].
    simpl. rewrite IH. ring.
Qed.

Lemma rowwise_dot_comm (a b : tensor2) : rowwise_dot a b = rowwise_dot b a.
Proof.
  unfold rowwise_dot. revert b. induction a as [|u a IH]; intros b.
  - destruct b; reflexivity.
  - destruct b as [|v b]; [reflexivity|].
    cbn [zip_with]. now rewrite dot_comm, IH.
Qed.

Lemma same_shape2_comm (a b : tensor2) : same_shape2 a b = same_shape2 b a.
Proof.
  unfold same_shape2. apply bool_decide_ext. split; intros H; now symmetry.
Qed.

(** X15: the loss does not distinguish the two sides of a pair: exchanging
    the source vectors with the context vectors leaves the main loss
    unchanged, and exchanging the persona vectors with the base vectors
    leaves the regularisation loss unchanged. *)
Theorem loss_symmetric (node_f feature_f : tensor2) (targets : tensor1)
    (source_f original_f : tensor2) :
  calculate_main_loss node_f feature_f targets =
    calculate_main_loss feature_f node_f targets /\
  calculate_regularization source_f original_f =
    calculate_regularization original_f source_f.
Proof.
  split.
  - unfold calculate_main_loss.
    rewrite (same_shape2_comm feature_f node_f).
    destruct (same_shape2 node_f feature_f) eqn:Hs; [|reflexivity].
    rewrite (same_shape2_length _ _ Hs).
    now rewrite (rowwise_dot_comm (normalize node_f)).
  - unfold calculate_regularization.
    rewrite (same_shape2_comm original_f source_f).
    now rewrite (rowwise_dot_comm (normalize source_f)).
Qed.

Lemma normalize_zero_row (v : list R) :
  Forall (fun x => x = 0%R) v -> normalize_row v = v.
Proof.
  intros H. unfold normalize_row.
  induction H as [|x v Hx Hv IH]; [reflexivity|].
  assert (Hmap : forall m, map (fun y => (y / m)%R) (x :: v) = x :: v).
  { intros m. clear IH. simpl. rewrite Hx. f_equal; [unfold Rdiv; ring|].
    induction Hv as [|y w Hy _ IHw]; [reflexivity|].
    simpl. rewrite IHw, Hy. f_equal. unfold Rdiv. ring. }
  apply Hmap.
Qed.

Lemma dot_zero_row (u v : list R) : Forall (fun x => x = 0%R) u -> dot u v = 0%R.
Proof.
  unfold dot, sum_r. intros H. revert v.
  induction H as [|x u Hx _ IH]; intros v; [reflexivity|].
  destruct v as [|y v]; [reflexivity|].
  simpl. rewrite IH, Hx. ring.
Qed.

Lemma sigmoid_0 : sigmoid 0 = (/ 2)%R.
Proof.
  unfold sigmoid. rewrite Ropp_0, exp_0.
  replace (1 + 1)%R with 2%R by ring. reflexivity.
Qed.

(** X16: a zero vector is handled without division by zero.  A source row
    of zeros is normalised to itself, scores 0 against any context and gets
    probability 1/2, so a batch whose source rows are all zero has main loss
    [log 2] whatever the contexts and whatever the targets. *)
Theorem zero_rows_loss (node_f feature_f : tensor2) (targets : tensor1) :
  same_shape2 node_f feature_f = true ->
  length targets = length node_f ->
  (0 < length node_f)%nat ->
  Forall (Forall (fun x => x = 0%R)) node_f ->
  normalize node_f = node_f /\
  Forall (fun p => p = (/ 2)%R) (probabilities node_f feature_f) /\
  calculate_main_loss node_f feature_f targets = Ok (Some (ln 2)).
Proof.
  intros Hs Ht Hn Hz.
  assert (Hnorm : normalize node_f = node_f).
  { clear -Hz. unfold normalize. induction Hz as [|u us Hu _ IH]; [reflexivity|].
    simpl. now rewrite (normalize_zero_row u Hu), IH. }
  assert (Hp : forall b, Forall (fun p => p = (/ 2)%R) (probabilities node_f b)).
  { clear -Hz. unfold probabilities, rowwise_dot, normalize.
    induction Hz as [|u us Hu _ IH]; intros b; [constructor|].
    destruct b as [|v b]; [constructor|].
    cbn [map zip_with]. constructor; [|apply IH].
    rewrite (normalize_zero_row u Hu), (dot_zero_row u _ Hu). apply sigmoid_0. }
  split; [exact Hnorm|]. split; [apply Hp|].
  unfold calculate_main_loss. rewrite Hs, Ht, Nat.eqb_refl. cbn [andb].
  rewrite fneg_torch_mean, main_loss_terms. f_equal.
  apply torch_mean_constant.
  - apply same_shape2_length in Hs.
    destruct node_f as [|u node_f]; [simpl in Hn; lia|].
    destruct feature_f as [|v feature_f]; [discriminate|].
    destruct targets as [|t targets]; discriminate.
  - clear -Hz. revert feature_f targets.
    induction Hz as [|u us Hu _ IH]; intros feature_f targets; [constructor|].
    destruct feature_f as [|v feature_f]; [constructor|].
    destruct targets as [|t targets]; [constructor|].
    cbn [zip zip_with map fst snd]. constructor; [|apply IH].
    unfold spec_probability, spec_example_loss.
    rewrite (normalize_zero_row u Hu), (dot_zero_row u _ Hu), sigmoid_0.
    replace (1 - / 2)%R with (/ 2)%R by field.
    rewrite ln_Rinv by lra. ring.
Qed.

Lemma zero_rows_loss_witness :
  normalize [[0; 0]; [0; 0]]%R = [[0; 0]; [0; 0]]%R /\
  Forall (fun p => p = (/ 2)%R) (probabilities [[0; 0]; [0; 0]]%R [[4; 3]; [0; 2]]%R) /\
  calculate_main_loss [[0; 0]; [0; 0]]%R [[4; 3]; [0; 2]]%R [1; 0]%R = Ok (Some (ln 2)).
Proof.
  apply (zero_rows_loss [[0; 0]; [0; 0]]%R [[4; 3]; [0; 2]]%R [1; 0]%R).
  - reflexivity.
  - reflexivity.
  - simpl. lia.
  - repeat constructor.
Defined.

(** ** From the accumulators to the loss *)

Lemma py_getitem_In {A : Type} (l : list A) (i : Z) (x : A) :
  py_getitem l i = Ok x -> In x l.
Proof.
  unfold py_getitem. destruct (_ && _); [|discriminate].
  destruct (l !! _) as [y|] eqn:Hy; [|discriminate].
  intros [= <-]. apply list_elem_of_In. eapply list_elem_of_lookup_2. exact Hy.
Qed.

Lemma embedding_forward_rows (e : embedding) (indices : list Z) (rows : tensor2) :
  embedding_forward e indices = Ok rows ->
  length rows = length indices /\ Forall (fun r => In r (data (weight e))) rows.
Proof.
  unfold embedding_forward. intros H. split.
  - now apply mapM_result_length in H.
  - apply (mapM_result_Forall _ (fun r => In r (data (weight e))) _ _) in H;
      [exact H|].
    intros i r. destruct (_ && _); [|discriminate]. apply py_getitem_In.
Qed.

Lemma embedding_forward_total (e : embedding) (indices : list Z) :
  Forall (fun i => 0 <= i < Z.of_nat (length (data (weight e)))) indices ->
  exists rows, embedding_forward e indices = Ok rows.
Proof.
  intros H. apply mapM_result_total. intros i Hi.
  rewrite Forall_forall in H. specialize (H i (proj2 (list_elem_of_In _ _) Hi)).
  destruct (Z.leb_spec 0 i); [|lia].
  destruct (Z.ltb_spec i (Z.of_nat (length (data (weight e))))); [|lia].
  simpl. destruct (py_getitem_in_range (data (weight e)) i H) as (x & Hx & _). eauto.
Qed.

Lemma rows_shape (rows table_rows : tensor2) (D : nat) :
  Forall (fun r => length r = D) table_rows ->
  Forall (fun r => In r table_rows) rows ->
  map length rows = repeat D (length rows).
Proof.
  intros HD Hin. induction Hin as [|r rows Hr _ IH]; [reflexivity|].
  simpl. rewrite IH. f_equal. rewrite Forall_forall in HD.
  apply HD. now apply list_elem_of_In.
Qed.

Lemma transfer_batch_returned (self : trainer) (model : splitter) (b : batch) :
  transfer_batch self model = Ok b ->
  exists ne be,
    node_embedding model = Some ne /\ base_node_embedding model = Some be /\
    embedding_forward ne (sources self) = Ok (node_f b) /\
    embedding_forward ne (contexts self) = Ok (feature_f b) /\
    targets_tensor b = map Q2R (targets self) /\
    embedding_forward ne (pure_sources self) = Ok (source_f b) /\
    embedding_forward be (personas self) = Ok (original_f b).
Proof.
  unfold transfer_batch.
  destruct (node_embedding model) as [ne|]; [|discriminate]. simpl.
  destruct (embedding_forward ne (sources self)) as [nf|e] eqn:H1; [|discriminate].
  simpl.
  destruct (embedding_forward ne (contexts self)) as [ff|e] eqn:H2; [|discriminate].
  simpl.
  destruct (embedding_forward ne (pure_sources self)) as [sf|e] eqn:H3; [|discriminate].
  simpl.
  destruct (base_node_embedding model) as [be|]; [|discriminate]. simpl.
  destruct (embedding_forward be (personas self)) as [orig|e] eqn:H4; [|discriminate].
  simpl. intros [= <-]. exists ne, be. repeat split; assumption.
Qed.

Lemma transfer_batch_shapes (self : trainer) (model : splitter) (b : batch) (D : nat) :
  aligned self ->
  Forall (fun r => length r = D) (table (node_embedding model)) ->
  Forall (fun r => length r = D) (table (base_node_embedding model)) ->
  transfer_batch self model = Ok b ->
  length (node_f b) = length (sources self) /\
  length (source_f b) = length (pure_sources self) /\
  same_shape2 (node_f b) (feature_f b) = true /\
  length (targets_tensor b) = length (node_f b) /\
  same_shape2 (source_f b) (original_f b) = true.
Proof.
  intros (A1 & A2 & A3 & A4) HDn HDb H.
  apply transfer_batch_returned in H
    as (ne & be & Hne & Hbe & H1 & H2 & Ht & H3 & H4).
  rewrite Hne in HDn. rewrite Hbe in HDb. simpl in HDn, HDb.
  apply embedding_forward_rows in H1 as [L1 R1], H2 as [L2 R2],
    H3 as [L3 R3], H4 as [L4 R4].
  split; [exact L1|]. split; [exact L3|].
  unfold same_shape2.
  rewrite (rows_shape _ _ D HDn R1), (rows_shape _ _ D HDn R2),
    (rows_shape _ _ D HDn R3), (rows_shape _ _ D HDb R4).
  rewrite Ht, length_map, L1, L2, L3, L4, A1, A3, A4.
  repeat split; apply bool_decide_eq_true_2; reflexivity.
Qed.

(** X17: the accumulators of a mini-batch are valid input for the loss.  When
    the accumulators are parallel and both tables have rows of one
    dimension, the tensors [transfer_batch] returns have matching shapes
    (one row per example, one target per example, one base row per positive
    source) and [forward] computes a loss on them without raising. *)
Theorem transferred_batch_fits_the_loss (self : trainer) (model : splitter)
    (b : batch) (D : nat) :
  aligned self ->
  Forall (fun r => length r = D) (table (node_embedding model)) ->
  Forall (fun r => length r = D) (table (base_node_embedding model)) ->
  transfer_batch self model = Ok b ->
  length (node_f b) = length (sources self) /\
  length (feature_f b) = length (sources self) /\
  length (targets_tensor b) = length (sources self) /\
  length (source_f b) = length (pure_sources self) /\
  length (original_f b) = length (pure_sources self) /\
  forward model (node_f b) (feature_f b) (targets_tensor b) (source_f b) (original_f b) =
  Ok (spec_loss (lambd model) (node_f b) (feature_f b) (targets_tensor b)
                (source_f b) (original_f b)).
Proof.
  intros Ha HDn HDb H.
  destruct (transfer_batch_shapes self model b D Ha HDn HDb H)
    as (L1 & L3 & S1 & Lt & S2).
  pose proof (same_shape2_length _ _ S1) as L2.
  pose proof (same_shape2_length _ _ S2) as L4.
  repeat split; try congruence.
  unfold spec_loss, spec_main_loss, spec_regularization_loss.
  now apply forward_unfolded.
Qed.

Lemma transferred_batch_fits_the_loss_witness :
  length (node_f path_batch) = length (sources path_trainer_loaded) /\
  length (feature_f path_batch) = length (sources path_trainer_loaded) /\
  length (targets_tensor path_batch) = length (sources path_trainer_loaded) /\
  length (source_f path_batch) = length (pure_sources path_trainer_loaded) /\
  length (original_f path_batch) = length (pure_sources path_trainer_loaded) /\
  forward path_model (node_f path_batch) (feature_f path_batch)
          (targets_tensor path_batch) (source_f path_batch) (original_f path_batch) =
  Ok (spec_loss (lambd path_model) (node_f path_batch) (feature_f path_batch)
                (targets_tensor path_batch) (source_f path_batch)
                (original_f path_batch)).
Proof.
  apply (transferred_batch_fits_the_loss path_trainer_loaded path_model path_batch 2).
  - vm_compute. repeat split.
  - repeat constructor.
  - repeat constructor.
  - vm_compute. reflexivity.
Defined.

(** The example: the pool of the path graph, the model [setup_model] builds,
    and the accumulators after the two walks. *)
Example path_example :
  negative_samples_pool path_trainer = [0; 0; 1; 1; 2; 2] /\
  setup_model (fun _ _ => []) (fun x => x) 2 (1 / 10)%R 2 3 example_base_vectors
    (personality_map path_trainer) (str2idx path_trainer) = Ok path_model /\
  pure_sources path_trainer_loaded = [0; 1; 1; 2; 2; 1; 1; 0] /\
  personas path_trainer_loaded = [0; 1; 1; 1; 1; 1; 1; 0] /\
  length (sources path_trainer_loaded) = 16%nat.
Proof. vm_compute. repeat split. Qed.

(** ** From [setup_model] to the loop *)

Lemma py_getitem_range {A : Type} (l : list A) (i : Z) (x : A) :
  py_getitem l i = Ok x -> - Z.of_nat (length l) <= i < Z.of_nat (length l).
Proof.
  unfold py_getitem. destruct (Z.ltb_spec i 0);
    destruct (Z.leb_spec 0 (if false then i + Z.of_nat (length l) else i));
    destruct (Z.leb_spec 0 (i + Z.of_nat (length l)));
    destruct (Z.ltb_spec (i + Z.of_nat (length l)) (Z.of_nat (length l)));
    destruct (Z.ltb_spec i (Z.of_nat (length l)));
    simpl; try discriminate; intros _; lia.
Qed.

Lemma is_persona_owner (self : trainer) (x : Z) :
  is_persona self x -> exists o, od_get (personality_map self) x = Ok o.
Proof.
  unfold is_persona. destruct (od_get (personality_map self) x) as [o|e];
    [eauto|discriminate].
Qed.

Section Prepared_tables.

Variable embedding_init : Z -> Z -> tensor2.
Variable float32 : R -> R.

(** X18: [setup_model] prepares the tables the training loop indexes.  When
    the personas are numbered by their rank in the persona map and the base
    indices of [str2idx] are not negative, the model that [setup_model]
    returns has both embeddings, keeps [lambda], has a persona-table row for
    every persona, and a base-table row for the owner of every persona. *)
Theorem setup_model_serves_the_trainer (dims : Z) (lam : R)
    (base_count persona_count : Z) (base_vectors : list (list R))
    (self : trainer) (model : splitter) :
  setup_model embedding_init float32 dims lam base_count persona_count
    base_vectors (personality_map self) (str2idx self) = Ok model ->
  map fst (personality_map self) =
    map Z.of_nat (seq 0 (length (personality_map self))) ->
  (forall o i, str2idx self !! o = Some i -> 0 <= i) ->
  is_Some (node_embedding model) /\ is_Some (base_node_embedding model) /\
  lambd model = lam /\
  forall x, is_persona self x ->
    0 <= x < Z.of_nat (length (table (node_embedding model))) /\
    exists i, persona_index self x = Ok i /\
              0 <= i < Z.of_nat (length (table (base_node_embedding model))).
Proof.
  intros Hsetup Hrank Hnonneg.
  assert (Hattr : is_Some (node_embedding model) /\ is_Some (base_node_embedding model)
                  /\ lambd model = lam).
  { revert Hsetup. unfold setup_model, initialize_weights.
    destruct (mapM _ _) as [pe|e]; [|discriminate]. simpl.
    intros [= <-]. simpl. eauto. }
  destruct Hattr as (Hne & Hbe & Hlam).
  split; [exact Hne|]. split; [exact Hbe|]. split; [exact Hlam|].
  unfold setup_model in Hsetup.
  destruct (initialize_weights_tables float32 _ _ _ _ _ Hsetup) as (pe & Hpe & -> & ->).
  unfold torch_Tensor. rewrite !length_map.
  intros x Hx. destruct (is_persona_owner self x Hx) as (o & Ho).
  destruct (od_get_lookup _ _ _ Ho) as (j & Hj).
  pose proof (row_number_key _ _ _ _ Hrank Hj) as ->.
  destruct (mapM_result_lookup _ _ _ Hpe j (Z.of_nat j, o) Hj) as (row & Hrow & Hbase).
  split.
  - apply lookup_lt_Some in Hrow. lia.
  - unfold base_row in Hbase. simpl in Hbase.
    destruct (gm_get (str2idx self) o) as [i|e] eqn:Hi; [|discriminate]. simpl in Hbase.
    exists i. split.
    + unfold persona_index. rewrite Ho. simpl. exact Hi.
    + apply py_getitem_range in Hbase. unfold gm_get in Hi.
      destruct (str2idx self !! o) as [i'|] eqn:Hi'; [|discriminate].
      injection Hi as ->. specialize (Hnonneg o i Hi'). lia.
Qed.

End Prepared_tables.

Lemma setup_model_serves_the_trainer_witness :
  is_Some (node_embedding path_model) /\ is_Some (base_node_embedding path_model) /\
  lambd path_model = (1 / 10)%R /\
  forall x, is_persona path_trainer x ->
    0 <= x < Z.of_nat (length (table (node_embedding path_model))) /\
    exists i, persona_index path_trainer x = Ok i /\
              0 <= i < Z.of_nat (length (table (base_node_embedding path_model))).
Proof.
  apply (setup_model_serves_the_trainer (fun _ _ => []) (fun x => x) 2 (1 / 10)%R 2 3
           example_base_vectors path_trainer path_model).
  - vm_compute. reflexivity.
  - reflexivity.
  - intros o i H.
    assert (Hcases : o = "a"%string \/ o = "b"%string \/
                     (o <> "a"%string /\ o <> "b"%string)).
    { destruct (decide (o = "a"%string)); [tauto|].
      destruct (decide (o = "b"%string)); tauto. }
    change (str2idx path_trainer) with example_str2idx in H.
    unfold example_str2idx in H. simpl in H.
    destruct Hcases as [->|[->|[Ha Hb]]].
    + vm_compute in H. injection H as <-. lia.
    + vm_compute in H. injection H as <-. lia.
    + rewrite !lookup_insert_ne in H by congruence.
      rewrite lookup_empty in H. discriminate.
Defined.

(** ** One iteration of the loop of [fit] *)

Lemma gather_members (walk idx xs : list Z) :
  gather walk idx = Ok xs -> Forall (fun x => In x walk) xs.
Proof.
  unfold gather. intros H.
  apply (mapM_result_Forall _ (fun x => In x walk) _ _) in H; [exact H|].
  intros i x. apply py_getitem_In.
Qed.

Lemma window_pairs_members (wl w : Z) (walk src ctx : list Z) :
  window_pairs wl w walk = Ok (src, ctx) ->
  Forall (fun x => In x walk) src /\ Forall (fun x => In x walk) ctx.
Proof.
  intros H. destruct (window_pairs_blocks _ _ _ _ _ H)
    as (s1 & c1 & s2 & c2 & -> & -> & G1 & G2 & G3 & G4 & _).
  apply gather_members in G1, G2, G3, G4.
  split; apply Forall_app; split; assumption.
Qed.

Lemma py_repeat_Forall {A : Type} (P : A -> Prop) (l : list A) (n : Z) :
  Forall P l -> Forall P (py_repeat l n).
Proof.
  intros H. unfold py_repeat. induction (Z.to_nat n) as [|k IH]; simpl;
    [constructor|]. apply Forall_app. now split.
Qed.

Lemma target_block_values (P : nat) (k : Z) :
  Forall (fun t => t = 1%Q \/ t = 0%Q) (target_block P k).
Proof.
  unfold target_block. apply Forall_app. split.
  - induction P as [|P IH]; simpl; constructor; auto.
  - induction (Z.to_nat k * P)%nat as [|c IH]; simpl; constructor; auto.
Qed.

Section Loop.

Context {rng : Type}.
Variable choice : sampler rng.
Variable V : Z -> Prop.

(** One returning call of the builder maintains the invariant, when the
    nodes of the walk and the draws satisfy [V]. *)
Lemma batch_invariant_step (self self' : trainer) (g g' : rng) (walk : list Z) :
  (forall g0 pool n g1 xs, choice g0 pool n = (g1, Ok xs) ->
     length xs = Z.to_nat n /\ Forall (fun x => In x pool) xs) ->
  0 <= negative_samples self ->
  Forall V walk ->
  Forall V (negative_samples_pool self) ->
  batch_invariant V self ->
  create_batch_from_path choice self g walk = (self', g', Ok tt) ->
  batch_invariant V self' /\
  length (pure_sources self') =
    (length (pure_sources self) +
     Z.to_nat (pair_count (walk_length self) (window_size self)))%nat.
Proof.
  intros Hchoice Hk Hwalk Hpool (Ha & Hp & Ht & V1 & V2 & V3) H.
  destruct (aligned_step choice self self' g g' walk
              (fun g0 pool n g1 xs Hc => proj1 (Hchoice g0 pool n g1 xs Hc))
              Hk Ha H) as [Ha' Hlen].
  split; [|exact Hlen].
  apply create_batch_from_path_returned in H
    as (src & ctx & ps & negs & Hw & Hps & Hc & Hcfg & E1 & E2 & E3 & E4 & E5).
  destruct (window_pairs_members _ _ _ _ _ Hw) as [Msrc Mctx].
  apply Hchoice in Hc as [_ Hnegs].
  assert (Vsrc : Forall V src).
  { rewrite Forall_forall in *. intros x Hx. apply Hwalk.
    apply list_elem_of_In. now apply Msrc. }
  assert (Vctx : Forall V ctx).
  { rewrite Forall_forall in *. intros x Hx. apply Hwalk.
    apply list_elem_of_In. now apply Mctx. }
  assert (Vnegs : Forall V negs).
  { rewrite Forall_forall in *. intros x Hx. apply Hpool.
    apply list_elem_of_In. now apply Hnegs. }
  unfold batch_invariant. rewrite E1, E2, E3, E4, E5.
  split; [exact Ha'|]. split.
  - rewrite (mapM_ext_result _ (persona_index self))
      by (intros s; now apply persona_index_configuration).
    now apply mapM_app_result.
  - split; [apply Forall_app; split; [exact Ht|apply target_block_values]|].
    split; [apply Forall_app; now split|].
    split; [apply Forall_app; split; [exact V2|now apply py_repeat_Forall]|].
    apply Forall_app. split; [exact V3|]. apply Forall_app. now split.
Qed.

(** The loop over well-formed walks returns and maintains the invariant. *)
Lemma create_batches_run (self : trainer) (g : rng) (walks : list (list Z)) :
  (forall g0 pool n g1 xs, choice g0 pool n = (g1, Ok xs) ->
     length xs = Z.to_nat n /\ Forall (fun x => In x pool) xs) ->
  (forall g0 n, 0 <= n ->
     exists g1 xs, choice g0 (negative_samples_pool self) n = (g1, Ok xs)) ->
  0 <= negative_samples self ->
  Forall (fun walk => walk_length self <= Z.of_nat (length walk) /\ Forall V walk) walks ->
  (forall x, V x -> is_ok (persona_index self x) = true) ->
  Forall V (negative_samples_pool self) ->
  batch_invariant V self ->
  exists self' g',
    create_batches choice self g walks = (self', g', Ok tt) /\
    same_configuration self self' /\
    batch_invariant V self' /\
    length (pure_sources self') =
      (length (pure_sources self) +
       length walks * Z.to_nat (pair_count (walk_length self) (window_size self)))%nat.
Proof.
  intros Hchoice. revert self g.
  induction walks as [|walk walks IH];
    intros self g Hdraw Hk Hwalks Hmapped Hpool Hinv.
  - exists self, g. split; [reflexivity|]. split; [apply same_configuration_refl|].
    split; [exact Hinv|]. simpl. lia.
  - apply Forall_cons in Hwalks as [[Hlen Hwalk] Hwalks].
    (* the call for [walk] returns *)
    assert (Hcall : exists self1 g1,
              create_batch_from_path choice self g walk = (self1, g1, Ok tt)).
    { unfold create_batch_from_path.
      rewrite (window_pairs_long_walk (walk_length self) (window_size self) walk Hlen).
      set (src := map _ (right_source_indices _ _ ++ left_source_indices _ _)).
      change (mapM (persona_index (set_pure_sources self (pure_sources self ++ src))) src)
        with (mapM (persona_index self) src).
      destruct (persona_index_total self walk
                  (right_source_indices (walk_length self) (window_size self) ++
                   left_source_indices (walk_length self) (window_size self)))
        as (ps & Hps).
      { apply forallb_forall. intros x Hx. apply Hmapped.
        rewrite Forall_forall in Hwalk. apply Hwalk. now apply list_elem_of_In. }
      { intros k Hin.
        assert (In k (accessed_indices (walk_length self) (window_size self))) as Hacc.
        { unfold accessed_indices. rewrite !in_app_iff in *. tauto. }
        apply accessed_indices_bounds in Hacc. lia. }
      fold src in Hps. rewrite Hps.
      cbn [negative_samples negative_samples_pool set_pure_sources set_personas
           set_sources set_contexts set_targets].
      destruct (Hdraw g (negative_samples self * Z.of_nat (length src)) ltac:(lia))
        as (g1 & negs & ->). eauto. }
    destruct Hcall as (self1 & g1 & Hcall).
    destruct (batch_invariant_step self self1 g g1 walk Hchoice Hk Hwalk Hpool Hinv Hcall)
      as [Hinv1 Hlen1].
    pose proof (create_batch_from_path_configuration choice self g walk) as Hcfg.
    rewrite Hcall in Hcfg. simpl in Hcfg.
    pose proof Hcfg as (Hwl & Hws & Hneg & _ & Hpm & Hs2i & _ & Hpl).
    destruct (IH self1 g1) as (self' & g' & Hrun & Hcfg' & Hinv' & Hlen').
    + intros g0 n Hn. rewrite <- Hpl. now apply Hdraw.
    + lia.
    + now rewrite <- Hwl.
    + intros x Hx. rewrite (persona_index_configuration self self1 x Hcfg). now apply Hmapped.
    + now rewrite <- Hpl.
    + exact Hinv1.
    + exists self', g'. split; [simpl; now rewrite Hcall|].
      split; [exact (same_configuration_trans _ _ _ Hcfg Hcfg')|].
      split; [exact Hinv'|]. rewrite Hlen', Hlen1, <- Hwl, <- Hws. simpl. lia.
Qed.

End Loop.

Lemma torch_mean_cases (xs : tensor1) :
  Forall (fun x => (0 <= x)%R) xs ->
  (length xs = 0%nat /\ torch_mean xs = NaN) \/
  (length xs <> 0%nat /\ exists r, torch_mean xs = Some r /\ (0 <= r)%R).
Proof.
  intros H. destruct xs as [|x xs]; [left; split; reflexivity|].
  right. split; [discriminate|]. apply torch_mean_nonneg; [discriminate|exact H].
Qed.

Lemma forward_value (self : splitter) (node_f feature_f : tensor2)
    (targets : tensor1) (source_f original_f : tensor2) :
  same_shape2 node_f feature_f = true ->
  length targets = length node_f ->
  same_shape2 source_f original_f = true ->
  Forall (fun t => (0 <= t <= 1)%R) targets ->
  (0 <= lambd self)%R ->
  exists loss,
    forward self node_f feature_f targets source_f original_f = Ok loss /\
    (loss = NaN <-> length node_f = 0%nat \/ length source_f = 0%nat) /\
    (forall r, loss = Some r -> (0 <= r)%R).
Proof.
  intros Hs Ht Hr Htargets Hlam.
  rewrite forward_unfolded by assumption.
  apply same_shape2_length in Hs, Hr.
  pose proof (main_terms_nonneg node_f feature_f targets Htargets) as Hmain.
  pose proof (regularization_terms_nonneg source_f original_f) as Hreg.
  set (xs := map _ (zip (zip node_f feature_f) targets)) in *.
  set (ys := map _ (zip source_f original_f)) in *.
  assert (Lx : length xs = length node_f).
  { unfold xs. rewrite length_map, length_zip_with_l_eq; rewrite length_zip_with_l_eq;
      congruence. }
  assert (Ly : length ys = length source_f).
  { unfold ys. now rewrite length_map, length_zip_with_l_eq. }
  eexists. split; [reflexivity|]. rewrite <- Lx, <- Ly.
  destruct (torch_mean_cases xs Hmain) as [[Hx ->]|(Hx & a & -> & Ha)];
    destruct (torch_mean_cases ys Hreg) as [[Hy ->]|(Hy & b & -> & Hb)]; simpl.
  - split; [split; [intros _; now left|reflexivity]|discriminate].
  - split; [split; [intros _; now left|reflexivity]|discriminate].
  - split; [split; [intros _; now right|reflexivity]|discriminate].
  - split; [split; [discriminate|tauto]|]. intros r [= <-]. nra.
Qed.

Lemma targets_tensor_range (ts : list Q) :
  Forall (fun t => t = 1%Q \/ t = 0%Q) ts ->
  Forall (fun t => (0 <= t <= 1)%R) (map Q2R ts).
Proof.
  induction 1 as [|t ts Ht _ IH]; [constructor|].
  simpl. constructor; [|exact IH].
  destruct Ht as [-> | ->]; unfold Q2R; simpl; lra.
Qed.

Lemma reset_node_sets_empty (self : trainer) :
  accumulators_empty (reset_node_sets self) /\
  same_configuration self (reset_node_sets self).
Proof. split; repeat split. Qed.

(** X19: one iteration of the training loop goes through.  Started with
    empty accumulators on walks that are long enough and visit personas
    only, with a pool of personas and a model that has a row for every
    persona and for every owner, the iteration builds the batches, looks the
    vectors up, computes the loss and updates the model without raising; it
    leaves the accumulators empty and the configuration unchanged.  The loss
    is computed on [n * P * (negative_samples + 1)] examples for [n] walks
    of [P] positive pairs; it is NaN exactly when there is no positive pair,
    and a non-negative number otherwise. *)
Theorem fit_minibatch_returns {rng : Type} (choice : sampler rng)
    (optimizer_step : splitter -> batch -> splitter)
    (self : trainer) (model : splitter) (g : rng) (walks : list (list Z)) (D : nat) :
  (forall g0 pool n g1 xs, choice g0 pool n = (g1, Ok xs) ->
     length xs = Z.to_nat n /\ Forall (fun x => In x pool) xs) ->
  (forall g0 n, 0 <= n ->
     exists g1 xs, choice g0 (negative_samples_pool self) n = (g1, Ok xs)) ->
  0 <= negative_samples self ->
  (0 <= lambd model)%R ->
  accumulators_empty self ->
  Forall (fun walk => walk_length self <= Z.of_nat (length walk) /\
                      Forall (is_persona self) walk) walks ->
  Forall (is_persona self) (negative_samples_pool self) ->
  is_Some (node_embedding model) ->
  is_Some (base_node_embedding model) ->
  Forall (fun r => length r = D) (table (node_embedding model)) ->
  Forall (fun r => length r = D) (table (base_node_embedding model)) ->
  (forall x, is_persona self x ->
     0 <= x < Z.of_nat (length (table (node_embedding model))) /\
     exists i, persona_index self x = Ok i /\
               0 <= i < Z.of_nat (length (table (base_node_embedding model)))) ->
  let P := Z.to_nat (pair_count (walk_length self) (window_size self)) in
  exists self' g' b loss,
    fit_minibatch choice optimizer_step self model g walks =
      (self', optimizer_step model b, g', Ok loss) /\
    accumulators_empty self' /\
    same_configuration self self' /\
    length (node_f b) =
      (length walks * P * (Z.to_nat (negative_samples self) + 1))%nat /\
    length (source_f b) = (length walks * P)%nat /\
    (loss = NaN <-> (length walks * P)%nat = 0%nat) /\
    (forall r, loss = Some r -> (0 <= r)%R).
Proof.
  intros Hchoice Hdraw Hk Hlam (E1 & E2 & E3 & E4 & E5) Hwalks Hpool
    [ne Hne] [be Hbe] HDn HDb Hrows P.
  (* the loop *)
  destruct (create_batches_run choice (is_persona self) self g walks Hchoice Hdraw Hk
              Hwalks) as (self1 & g1 & Hrun & Hcfg & Hinv & Hlen).
  { intros x Hx. destruct (Hrows x Hx) as (_ & i & -> & _). reflexivity. }
  { exact Hpool. }
  { unfold batch_invariant, aligned. rewrite E1, E2, E3, E4, E5.
    repeat split; constructor. }
  destruct Hinv as (Ha & Hp & Ht & V1 & V2 & V3).
  rewrite E1 in Hlen. simpl in Hlen. fold P in Hlen.
  (* the look-ups *)
  rewrite Hne in HDn, Hrows. rewrite Hbe in HDb, Hrows. simpl in HDn, HDb, Hrows.
  assert (Hrow : forall l, Forall (is_persona self) l ->
                 exists rows, embedding_forward ne l = Ok rows).
  { intros l Hl. apply embedding_forward_total.
    eapply Forall_impl; [exact Hl|]. intros x Hx. now apply Hrows. }
  destruct (Hrow _ V2) as (nf & Hnf). destruct (Hrow _ V3) as (ff & Hff).
  destruct (Hrow _ V1) as (sf & Hsf).
  assert (Hof : exists orig, embedding_forward be (personas self1) = Ok orig).
  { apply embedding_forward_total.
    apply (mapM_result_Forall (persona_index self1)
             (fun i => 0 <= i < Z.of_nat (length (data (weight be)))) _ _) in Hp;
      [exact Hp|].
    intros x i Hi. rewrite (persona_index_configuration self self1 x Hcfg) in Hi.
    assert (Hx : is_persona self x).
    { unfold is_persona. unfold persona_index in Hi.
      destruct (od_get (personality_map self) x); [reflexivity|discriminate]. }
    destruct (Hrows x Hx) as (_ & i' & Hi' & Hrange). congruence. }
  destruct Hof as (orig & Horig).
  set (b := {| node_f := nf; feature_f := ff;
               targets_tensor := map Q2R (targets self1);
               source_f := sf; original_f := orig |}).
  assert (Htransfer : transfer_batch self1 model = Ok b).
  { unfold transfer_batch. rewrite Hne, Hbe. simpl.
    rewrite Hnf. simpl. rewrite Hff. simpl. rewrite Hsf. simpl. rewrite Horig.
    reflexivity. }
  assert (HDn' : Forall (fun r => length r = D) (table (node_embedding model)))
    by (now rewrite Hne).
  assert (HDb' : Forall (fun r => length r = D) (table (base_node_embedding model)))
    by (now rewrite Hbe).
  destruct (transfer_batch_shapes self1 model b D Ha HDn' HDb' Htransfer)
    as (L1 & L3 & S1 & Lt & S2).
  (* the loss *)
  destruct (forward_value model nf ff (map Q2R (targets self1)) sf orig S1 Lt S2
              (targets_tensor_range _ Ht) Hlam) as (loss & Hloss & Hnan & Hpos).
  exists (reset_node_sets self1), g1, b, loss.
  split.
  { unfold fit_minibatch, optimize. rewrite Hrun, Htransfer. simpl.
    rewrite Hloss. reflexivity. }
  destruct (reset_node_sets_empty self1) as [Hempty Hcfg1].
  split; [exact Hempty|].
  split; [exact (same_configuration_trans _ _ _ Hcfg Hcfg1)|].
  destruct Ha as (A1 & A2 & A3 & A4).
  destruct Hcfg as (_ & _ & Hneg & _).
  simpl in L1, L3. simpl.
  split; [rewrite L1, A2, Hlen, Hneg; reflexivity|].
  split; [now rewrite L3, Hlen|].
  split; [|exact Hpos].
  rewrite Hnan, L1, L3, A2, Hlen. split; [|tauto].
  intros [H|H]; [|exact H]. nia.
Qed.

Lemma np_random_choice_draws (g0 : list nat) (pool : list Z) (n : Z)
    (g1 : list nat) (xs : list Z) :
  np_random_choice g0 pool n = (g1, Ok xs) ->
  length xs = Z.to_nat n /\ Forall (fun x => In x pool) xs.
Proof.
  intros H. split; [exact (np_random_choice_length _ _ _ _ _ H)|].
  revert H. unfold np_random_choice.
  destruct (n <? 0); [discriminate|].
  destruct (Nat.eqb_spec (length pool) 0) as [H0|H0].
  - destruct (Z.eqb_spec n 0) as [->|_]; [|discriminate]. simpl.
    intros [= _ <-]. constructor.
  - simpl andb. cbv iota. intros [= _ <-].
    apply Forall_map, Forall_forall. intros r _.
    apply nth_In. now apply Nat.mod_upper_bound.
Qed.

Lemma np_random_choice_returns (g0 : list nat) (pool : list Z) (n : Z) :
  pool <> [] -> 0 <= n ->
  exists g1 xs, np_random_choice g0 pool n = (g1, Ok xs).
Proof.
  intros Hpool Hn. unfold np_random_choice.
  destruct (Z.ltb_spec n 0); [lia|].
  destruct (Nat.eqb_spec (length pool) 0) as [H0|H0]; [|simpl; eauto].
  destruct pool; [congruence|discriminate H0].
Qed.

Lemma path_personas_have_rows (x : Z) :
  is_persona path_trainer x ->
  0 <= x < Z.of_nat (length (table (node_embedding path_model))) /\
  exists i, persona_index path_trainer x = Ok i /\
            0 <= i < Z.of_nat (length (table (base_node_embedding path_model))).
Proof.
  unfold is_persona. change (personality_map path_trainer) with example_mapping.
  unfold example_mapping. cbn [od_get].
  destruct (Z.eqb_spec 0 x) as [<-|_];
    [intros _; split; [simpl; lia|exists 0; split; [vm_compute; reflexivity|simpl; lia]]|].
  destruct (Z.eqb_spec 1 x) as [<-|_];
    [intros _; split; [simpl; lia|exists 1; split; [vm_compute; reflexivity|simpl; lia]]|].
  destruct (Z.eqb_spec 2 x) as [<-|_];
    [intros _; split; [simpl; lia|exists 1; split; [vm_compute; reflexivity|simpl; lia]]|].
  simpl. discriminate.
Qed.

Lemma fit_minibatch_returns_witness :
  let P := Z.to_nat (pair_count (walk_length path_trainer) (window_size path_trainer)) in
  exists self' g' b loss,
    fit_minibatch np_random_choice (fun model _ => model) path_trainer path_model
      [5; 2; 7]%nat path_walks = (self', (fun model _ => model) path_model b, g', Ok loss) /\
    accumulators_empty self' /\
    same_configuration path_trainer self' /\
    length (node_f b) =
      (length path_walks * P * (Z.to_nat (negative_samples path_trainer) + 1))%nat /\
    length (source_f b) = (length path_walks * P)%nat /\
    (loss = NaN <-> (length path_walks * P)%nat = 0%nat) /\
    (forall r, loss = Some r -> (0 <= r)%R).
Proof.
  apply (fit_minibatch_returns np_random_choice (fun model _ => model) path_trainer
           path_model [5; 2; 7]%nat path_walks 2).
  - exact np_random_choice_draws.
  - intros g0 n Hn. apply np_random_choice_returns; [discriminate|exact Hn].
  - simpl. lia.
  - simpl. lra.
  - repeat split.
  - repeat constructor; simpl; lia.
  - repeat constructor.
  - simpl. eauto.
  - simpl. eauto.
  - repeat constructor.
  - repeat constructor.
  - exact path_personas_have_rows.
Defined.

(** ** The saved persona embedding *)

Lemma py_str_inj (a b : Z) : py_str a = py_str b -> a = b.
Proof.
  unfold py_str. intros H.
  assert (Some (Z.to_int a) = Some (Z.to_int b)) as E.
  { rewrite <- !DecimalString.NilEmpty.isi. now rewrite H. }
  injection E as E.
  rewrite <- (DecimalZ.of_to a), <- (DecimalZ.of_to b). now rewrite E.
Qed.

Lemma sd_get_set_eq {V : Type} (d : odict string V) (k : string) (v : V) :
  sd_get (sd_set d k v) k = Ok v.
Proof.
  induction d as [|[a b] d IH]; simpl.
  - now rewrite String.eqb_refl.
  - destruct (String.eqb_spec a k) as [->|Hn]; simpl.
    + now rewrite String.eqb_refl.
    + destruct (String.eqb_spec a k); [contradiction|exact IH].
Qed.

Lemma sd_get_set_neq {V : Type} (d : odict string V) (k k' : string) (v : V) :
  k <> k' -> sd_get (sd_set d k v) k' = sd_get d k'.
Proof.
  intros Hk. induction d as [|[a b] d IH]; simpl.
  - destruct (String.eqb_spec k k'); [contradiction|reflexivity].
  - destruct (String.eqb_spec a k) as [->|Hn]; simpl.
    + destruct (String.eqb_spec k k'); [contradiction|reflexivity].
    + destruct (String.eqb_spec a k'); [reflexivity|exact IH].
Qed.

Lemma sd_set_keys {V : Type} (d : odict string V) (k k' : string) (v : V) :
  In k' (map fst (sd_set d k v)) <-> k' = k \/ In k' (map fst d).
Proof.
  induction d as [|[a b] d IH]; simpl.
  - intuition congruence.
  - destruct (String.eqb_spec a k) as [->|Hn]; simpl.
    + intuition congruence.
    + rewrite IH. intuition congruence.
Qed.

Lemma sd_set_fresh {V : Type} (d : odict string V) (k : string) (v : V) :
  ~ In k (map fst d) -> sd_set d k v = d ++ [(k, v)].
Proof.
  induction d as [|[a b] d IH]; simpl; intros H; [reflexivity|].
  destruct (String.eqb_spec a k) as [->|_]; [tauto|]. rewrite IH by tauto. reflexivity.
Qed.

(** A lookup that returns has read, for each index, the row at that index. *)
Lemma embedding_forward_map (e : embedding) (indices : list Z) (rows : tensor2) :
  embedding_forward e indices = Ok rows ->
  Forall (fun i => 0 <= i < Z.of_nat (length (data (weight e)))) indices /\
  rows = map (fun i => default [] (data (weight e) !! Z.to_nat i)) indices.
Proof.
  unfold embedding_forward. revert rows.
  induction indices as [|i l IH]; intros rows H.
  - injection H as <-. split; [constructor|reflexivity].
  - rewrite mapM_cons_result in H.
    destruct (Z.leb_spec 0 i) as [H0|]; [|discriminate].
    destruct (Z.ltb_spec i (Z.of_nat (length (data (weight e))))) as [H1|]; [|discriminate].
    simpl in H.
    destruct (py_getitem (data (weight e)) i) as [r|] eqn:Hr; [|discriminate].
    destruct (mapM _ l) as [rs|]; [|discriminate].
    injection H as <-. destruct (IH rs eq_refl) as [Hf ->].
    split; [constructor; [lia|exact Hf]|].
    cbn [map]. apply py_getitem_lookup in Hr; [|exact H0].
    apply (f_equal2 cons); [|reflexivity].
    exact (eq_sym (f_equal (default []) Hr)).
Qed.


Lemma saved_fold_get (f : Z -> list R) (l : list Z) (acc : odict string (list R)) (n : Z) :
  In n l \/ sd_get acc (py_str n) = Ok (f n) ->
  sd_get (fold_left (fun d ne => sd_set d (py_str (fst ne)) (snd ne))
                    (zip l (map f l)) acc) (py_str n) = Ok (f n).
Proof.
  revert acc. induction l as [|a l IH]; intros acc H; simpl.
  - destruct H as [[]|H]; exact H.
  - apply IH. destruct (Z.eq_dec a n) as [->|Hn].
    + right. apply sd_get_set_eq.
    + destruct H as [[H|H]|H]; [contradiction|now left|right].
      rewrite sd_get_set_neq; [exact H|]. intros E. now apply py_str_inj in E.
Qed.

Lemma saved_fold_keys (f : Z -> list R) (l : list Z) (acc : odict string (list R))
    (k : string) :
  In k (map fst (fold_left (fun d ne => sd_set d (py_str (fst ne)) (snd ne))
                           (zip l (map f l)) acc)) <->
  (exists n, In n l /\ k = py_str n) \/ In k (map fst acc).
Proof.
  revert acc. induction l as [|a l IH]; intros acc; simpl.
  - split; [now right|]. intros [(n & [] & _)|H]; exact H.
  - rewrite IH, sd_set_keys. split.
    + intros [(n & Hn & ->)|[->|H]]; [left; exists n|left; exists a|right]; tauto.
    + intros [(n & [->|Hn] & ->)|H]; [right; now left|left; now exists n|right; now right].
Qed.

Lemma saved_fold_distinct (f : Z -> list R) (l : list Z) (acc : odict string (list R)) :
  List.NoDup l -> (forall n, In n l -> ~ In (py_str n) (map fst acc)) ->
  fold_left (fun d ne => sd_set d (py_str (fst ne)) (snd ne)) (zip l (map f l)) acc =
  acc ++ map (fun n => (py_str n, f n)) l.
Proof.
  revert acc. induction l as [|a l IH]; intros acc Hnd Hfresh; simpl.
  - now rewrite app_nil_r.
  - inversion Hnd as [|? ? Ha Hl]; subst.
    rewrite sd_set_fresh by (apply Hfresh; now left).
    rewrite IH; [now rewrite <- app_assoc|exact Hl|].
    intros n Hn. rewrite map_app, in_app_iff. simpl.
    intros [H|[H|[]]]; [exact (Hfresh n (or_intror Hn) H)|].
    apply py_str_inj in H. subst. contradiction.
Qed.

Lemma sorted_distinct_increasing (l : list Z) :
  StronglySorted Z.le l -> List.NoDup l -> StronglySorted Z.lt l.
Proof.
  induction 1 as [|a l Hl IH Ha]; intros Hnd; constructor;
    inversion Hnd as [|? ? Hin Hl']; subst.
  - now apply IH.
  - rewrite List.Forall_forall in *. intros x Hx.
    specialize (Ha x Hx). assert (x <> a) by (intros ->; contradiction). lia.
Qed.

(** X20: when every node of the persona graph is a row of the persona table,
    [save_persona_embedding] returns; the dictionary it pickles holds, under
    the decimal string of each node, the row of the table at that node, and it
    has no other key. *)
Theorem saved_persona_embedding (self : trainer) (model : splitter) (e : embedding) :
  node_embedding model = Some e ->
  Forall (fun n => 0 <= n < Z.of_nat (length (data (weight e))))
         (nodes (persona_graph self)) ->
  exists return_data,
    save_persona_embedding self model = Ok return_data /\
    (forall n, In n (nodes (persona_graph self)) ->
       exists row, data (weight e) !! Z.to_nat n = Some row /\
                   sd_get return_data (py_str n) = Ok row) /\
    (forall k, In k (map fst return_data) <->
               exists n, In n (nodes (persona_graph self)) /\ k = py_str n).
Proof.
  intros He Hrange. unfold save_persona_embedding. rewrite He. simpl.
  pose proof (merge_sort_Permutation Z.le (nodes (persona_graph self))) as Hp.
  set (sorted := merge_sort Z.le (nodes (persona_graph self))) in *.
  assert (Forall (fun n => 0 <= n < Z.of_nat (length (data (weight e)))) sorted) as Hs
    by now rewrite Hp.
  destruct (embedding_forward_total e sorted Hs) as (rows & Hrows).
  rewrite Hrows. simpl.
  destruct (embedding_forward_map _ _ _ Hrows) as [_ ->].
  eexists. split; [reflexivity|]. split.
  - intros n Hn.
    rewrite List.Forall_forall in Hrange. specialize (Hrange n Hn).
    destruct (lookup_lt_is_Some_2 (data (weight e)) (Z.to_nat n)) as (row & Hrow); [lia|].
    exists row. split; [exact Hrow|].
    rewrite saved_fold_get;
      [exact (f_equal (fun o => Ok (default [] o)) Hrow)|].
    left. apply (Permutation_in n (Permutation_sym Hp) Hn).
  - intros k. rewrite saved_fold_keys. simpl. split.
    + intros [(n & Hn & ->)|[]]. exists n. split; [|reflexivity].
      apply (Permutation_in n Hp Hn).
    + intros (n & Hn & ->). left. exists n. split; [|reflexivity].
      apply (Permutation_in n (Permutation_sym Hp) Hn).
Qed.

Lemma saved_persona_embedding_witness :
  exists return_data,
    save_persona_embedding path_trainer path_model = Ok return_data /\
    (forall n, In n (nodes (persona_graph path_trainer)) ->
       exists row, [[1; 0]; [0; 1]; [0; 1]]%R !! Z.to_nat n = Some row /\
                   sd_get return_data (py_str n) = Ok row) /\
    (forall k, In k (map fst return_data) <->
               exists n, In n (nodes (persona_graph path_trainer)) /\ k = py_str n).
Proof.
  apply (saved_persona_embedding path_trainer path_model
           {| weight := {| data := [[1; 0]; [0; 1]; [0; 1]]%R; requires_grad := true |};
              padding_idx := Some 0 |}).
  - reflexivity.
  - change (nodes (persona_graph path_trainer)) with [0; 1; 2].
    repeat (constructor; [simpl; lia|]). constructor.
Defined.



(** X22: for a persona graph whose nodes are distinct, the keys of the pickled
    dictionary follow each other by increasing node id: they are the decimal
    strings of the nodes in strictly increasing order, one key per node. *)
Theorem saved_persona_embedding_order (self : trainer) (model : splitter)
    (return_data : odict string (list R)) :
  List.NoDup (nodes (persona_graph self)) ->
  save_persona_embedding self model = Ok return_data ->
  exists ns, Permutation ns (nodes (persona_graph self)) /\
             StronglySorted Z.lt ns /\
             map fst return_data = map py_str ns.
Proof.
  intros Hnd. unfold save_persona_embedding.
  destruct (node_embedding model) as [e|]; [|discriminate]. simpl.
  pose proof (merge_sort_Permutation Z.le (nodes (persona_graph self))) as Hp.
  pose proof (StronglySorted_merge_sort Z.le (nodes (persona_graph self))) as Hs.
  set (sorted := merge_sort Z.le (nodes (persona_graph self))) in *.
  destruct (embedding_forward e sorted) as [rows|] eqn:Hrows; [|discriminate].
  simpl. intros H. injection H as <-.
  destruct (embedding_forward_map _ _ _ Hrows) as [_ ->].
  assert (List.NoDup sorted) as Hnd' by now rewrite Hp.
  exists sorted. split; [exact Hp|]. split.
  - now apply sorted_distinct_increasing.
  - rewrite saved_fold_distinct; [|exact Hnd'|intros ? ? []].
    simpl. rewrite map_map. reflexivity.
Qed.

Lemma saved_persona_embedding_order_witness :
  exists ns, Permutation ns (nodes (persona_graph path_trainer)) /\
             StronglySorted Z.lt ns /\
             map fst (result_value [] (save_persona_embedding path_trainer path_model)) =
             map py_str ns.
Proof.
  apply (saved_persona_embedding_order path_trainer path_model).
  - change (nodes (persona_graph path_trainer)) with [0; 1; 2].
    repeat constructor; simpl; intuition lia.
  - reflexivity.
Defined.
